(** * YT-DL-Bot: link validation, format resolution, download orchestration,
      file lifecycle and request throttling

    A shallow embedding of the Python sources

      - [bot/services/youtube.py]      (class [YouTubeService])
      - [bot/handlers/callbacks.py]    ([callback_format], [callback_quality])
      - [bot/middlewares/throttling.py] ([ThrottlingMiddleware])
      - [bot/handlers/messages.py]     ([handle_text])
      - [bot/keyboards/inline.py]      (the three inline keyboards)
      - [bot/database/models.py]       ([UserSettings], [UserDatabase])
      - [bot/locales/__init__.py], [bot/locales/en.py] ([Localization])

    Python [str] values are sequences of Unicode code points, integers are
    [Z], [float] values (wall-clock instants and rates) are IEEE 754 binary64
    numbers with the operations of the standard library's [SpecFloat], [set]
    is [gset],
    the [RESOLUTIONS] dict is an association list in insertion order, and
    code that logs, touches the download directory, talks to the chat
    transport or may raise runs in a state-and-exception monad. *)

From Stdlib Require Import ZArith QArith Qminmax Lia List Ascii String.
From Stdlib Require SpecFloat.
From stdpp Require Import base gmap sets list strings sorting pretty.

Open Scope Z_scope.

(** ** Python strings *)

Module Py.

(** A Python [str]: a sequence of Unicode code points. *)
Definition pystr := list N.

(** The [str] written by an ASCII literal of the source. *)
Definition py (s : string) : pystr := N_of_ascii <$> list_ascii_of_string s.

(** [str.isspace] on one code point; [str.strip()] and the [\s] class of
    [re] on [str] patterns use this same predicate. *)
Definition is_space (c : N) : bool :=
  ((9 <=? c) && (c <=? 13) || (28 <=? c) && (c <=? 32) || (c =? 133)
   || (c =? 160) || (c =? 5760) || (8192 <=? c) && (c <=? 8202)
   || (c =? 8232) || (c =? 8233) || (c =? 8239) || (c =? 8287)
   || (c =? 12288))%N.

Fixpoint lstrip_with (p : N -> bool) (s : pystr) : pystr :=
  match s with
  | c :: s' => if p c then lstrip_with p s' else s
  | [] => []
  end.

(** [s.strip()] *)
Definition strip (s : pystr) : pystr :=
  rev (lstrip_with is_space (rev (lstrip_with is_space s))).

(** [re.sub(r'^[@\s]+', '', s)]: the longest prefix made of at-signs and
    white space is removed (the anchor only matches at position 0). *)
Definition sub_leading_at_space (s : pystr) : pystr :=
  lstrip_with (fun c => (c =? 64)%N || is_space c) s.

(** [s.startswith(p)] *)
Fixpoint startswith (s p : pystr) {struct p} : bool :=
  match p, s with
  | [], _ => true
  | _ :: _, [] => false
  | c :: p', d :: s' => (c =? d)%N && startswith s' p'
  end.

(** [s.endswith(p)] *)
Definition endswith (s p : pystr) : bool := startswith (rev s) (rev p).

(** [sub in s] *)
Fixpoint contains (sub s : pystr) : bool :=
  startswith s sub ||
  match s with
  | [] => false
  | _ :: s' => contains sub s'
  end.

Definition str_eqb (a b : pystr) : bool := bool_decide (a = b).

(** [s.split(sep)] for a one-character separator. *)
Fixpoint split (sep : N) (s : pystr) : list pystr :=
  match s with
  | [] => [[]]
  | c :: s' =>
      if (c =? sep)%N then [] :: split sep s'
      else match split sep s' with
           | w :: ws => (c :: w) :: ws
           | [] => [[c]]
           end
  end.

(** [sep.join(parts)] *)
Fixpoint join (sep : pystr) (parts : list pystr) : pystr :=
  match parts with
  | [] => []
  | [w] => w
  | w :: ws => w ++ sep ++ join sep ws
  end.

(** [str(n)] for an [int], as interpolated by an f-string. *)
Definition str_of_int (n : Z) : pystr := py (pretty n).

End Py.
Export Py.

(** ** The fragment of [re] used by [YOUTUBE_URL_PATTERN] *)

Module Re.

Inductive re : Type :=
| Lit (s : pystr)              (* literal text *)
| Cls (p : N -> bool)          (* one character of a class *)
| Seq (r1 r2 : re)             (* r1 r2 *)
| Alt (r1 r2 : re)             (* r1 | r2 *)
| Opt (r : re)                 (* r? *)
| Rep (n : nat) (r : re)       (* r{n} *)
| PlusCls (p : N -> bool).     (* [class]+ *)

(** Every way of consuming one or more characters of the class [p],
    longest first. *)
Fixpoint plus_cls (p : N -> bool) (s : pystr) : list pystr :=
  match s with
  | c :: s' => if p c then plus_cls p s' ++ [s'] else []
  | [] => []
  end.

(** [match_re r s]: the remainders of [s] after every way in which [r]
    matches a prefix of [s], in the backtracking order of [re]. *)
Fixpoint match_re (r : re) (s : pystr) : list pystr :=
  match r with
  | Lit l => if startswith s l then [drop (length l) s] else []
  | Cls p => match s with
             | c :: s' => if p c then [s'] else []
             | [] => []
             end
  | Seq r1 r2 => flat_map (match_re r2) (match_re r1 s)
  | Alt r1 r2 => match_re r1 s ++ match_re r2 s
  | Opt r1 => match_re r1 s ++ [s]
  | Rep n r1 =>
      (fix rep (k : nat) (t : pystr) : list pystr :=
         match k with
         | O => [t]
         | S k' => flat_map (rep k') (match_re r1 t)
         end) n s
  | PlusCls p => plus_cls p s
  end.

(** [bool(re.search(r, s))]: some position of [s] starts a match. *)
Fixpoint search (r : re) (s : pystr) : bool :=
  match match_re r s with
  | _ :: _ => true
  | [] => match s with
          | [] => false
          | _ :: s' => search r s'
          end
  end.

End Re.

(** ** [bot/services/youtube.py] : the pure part *)

Module YouTubeService.
Import Re.

Definition in_range (lo hi : string) (c : N) : bool :=
  match py lo, py hi with
  | [a], [b] => ((a <=? c) && (c <=? b))%N
  | _, _ => false
  end.

(** The class [[a-zA-Z0-9_-]]. *)
Definition is_id_char (c : N) : bool :=
  in_range "a" "z" c || in_range "A" "Z" c || in_range "0" "9" c
  || (c =? 95)%N || (c =? 45)%N.

(** [YOUTUBE_URL_PATTERN]. *)
Definition YOUTUBE_URL_PATTERN : re :=
  Seq (Opt (Seq (Lit (py "http")) (Seq (Opt (Lit (py "s"))) (Lit (py "://")))))
 (Seq (Opt (Lit (py "www.")))
 (Seq (Alt (Seq (Lit (py "youtube.com/"))
                (Alt (Lit (py "watch?v="))
                (Alt (Lit (py "embed/")) (Lit (py "v/")))))
           (Lit (py "youtu.be/")))
 (Seq (Rep 11 (Cls is_id_char))
      (Opt (PlusCls (fun c => negb (is_space c))))))).

(** [is_valid_youtube_url]: the value it returns.  The call itself, with
    the DEBUG record it writes, is [World.is_valid_youtube_url_logged]. *)
Definition is_valid_youtube_url (url : pystr) : bool :=
  match url with
  | [] => false
  | _ =>
      let cleaned_url := strip url in
      let cleaned_url := sub_leading_at_space cleaned_url in
      if contains (py "youtube.com") cleaned_url
         || contains (py "youtu.be") cleaned_url
      then true
      else search YOUTUBE_URL_PATTERN cleaned_url
  end.


(** *** Dictionaries and sorting *)

(** [d.get(k)] on a dict kept in insertion order. *)
Fixpoint dict_get {V : Type} (d : list (pystr * V)) (k : pystr) : option V :=
  match d with
  | [] => None
  | (k', v) :: d' => if str_eqb k' k then Some v else dict_get d' k
  end.

Fixpoint insert_by {A : Type} (key : A -> Z) (x : A) (l : list A) : list A :=
  match l with
  | [] => [x]
  | y :: l' => if key x <=? key y then x :: l else y :: insert_by key x l'
  end.

(** [sorted(l, key=key)]; stable, as Python's sort is. *)
Fixpoint sorted_by {A : Type} (key : A -> Z) (l : list A) : list A :=
  match l with
  | [] => []
  | x :: l' => insert_by key x (sorted_by key l')
  end.

(** [max(l)] of a non-empty sequence ([None] stands for the [ValueError]
    raised on an empty one). *)
Definition py_max (l : list Z) : option Z :=
  match l with
  | [] => None
  | x :: l' => Some (foldl Z.max x l')
  end.

(** *** Format resolver *)

(** [RESOLUTIONS] *)
Definition RESOLUTIONS : list (pystr * Z) :=
  [ (py "144p", 144); (py "240p", 240); (py "360p", 360); (py "480p", 480);
    (py "720p", 720); (py "1080p", 1080); (py "1440p", 1440);
    (py "2160p", 2160) ].

(** [self.RESOLUTIONS[x]]; only ever applied to keys of the dict. *)
Definition resolution_of (x : pystr) : Z := default 0 (dict_get RESOLUTIONS x).

(** One entry of the extractor's [formats] list: [fmt.get('vcodec')] and
    [fmt.get('height')]. *)
Record fmt := { vcodec : option pystr; height : option Z }.

(** Lines 129-134: the heights of the entries that carry video. *)
Definition available_heights (formats : list fmt) : gset Z :=
  foldl (fun acc f =>
           if bool_decide (vcodec f = Some (py "none")) then acc
           else match height f with
                | Some h => if h =? 0 then acc else {[ h ]} ∪ acc
                | None => acc
                end) ∅ formats.

(** [abs(available_height - height) <= max(height * 0.1, 50)].  The
    product is taken in exact rationals; for the heights of [RESOLUTIONS]
    the binary64 value of the maximum is the exact one (50 up to 480p, then
    72, 108, 144 and 216). *)
Definition close_to (available_height height : Z) : bool :=
  let height_diff := Z.abs (available_height - height) in
  Qle_bool (inject_Z height_diff)
           (Qmax (inject_Z height * (1 # 10)) (inject_Z 50)).

(** Lines 139-147: the labels, by ascending height, that have some
    available height close to their own. *)
Definition matching_formats (heights : gset Z) : list pystr :=
  fst <$> List.filter
    (fun '(_, height) =>
       existsb (fun available_height => close_to available_height height)
               (sorted_by id (elements heights)))
    (sorted_by snd RESOLUTIONS).

(** Lines 138-158 of [get_available_formats]: from the set of available
    heights to the list of quality labels offered. *)
Definition available_qualities (heights : gset Z) : list pystr :=
  let available_formats := matching_formats heights in
  let available_formats :=
    match available_formats with
    | [] =>
        (* max(available_heights) if available_heights else 720 *)
        let max_height := default 720 (py_max (elements heights)) in
        fst <$> List.filter (fun '(_, height) => height <=? max_height)
                            RESOLUTIONS
    | _ :: _ => available_formats
    end in
  sorted_by resolution_of available_formats.

(** The list returned when probing fails (line 165). *)
Definition DEFAULT_FORMATS : list pystr :=
  [py "144p"; py "240p"; py "360p"; py "480p"; py "720p"; py "1080p"].

(** *** Download specs *)

(** Values stored in the options dict handed to the extractor. *)
Inductive pyval : Type :=
| VStr (s : pystr)
| VBool (b : bool)
| VInt (n : Z)
| VPostprocessors (l : list (list (pystr * pystr))).

Definition ydl_options := list (pystr * pyval).

(** [self.RESOLUTIONS.get(quality, 720)] *)
Definition height_for (quality : pystr) : Z :=
  default 720 (dict_get RESOLUTIONS quality).

(** [f"bestvideo[height<={height}]+bestaudio/best[height<={height}]"] *)
Definition format_code (height : Z) : pystr :=
  py "bestvideo[height<=" ++ str_of_int height
     ++ py "]+bestaudio/best[height<=" ++ str_of_int height ++ py "]".

(** [ydl_opts] of [download_video]. *)
Definition video_opts (quality output_path : pystr) : ydl_options :=
  let height := height_for quality in
  [ (py "format", VStr (format_code height));
    (py "outtmpl", VStr output_path);
    (py "quiet", VBool true);
    (py "no_warnings", VBool true);
    (py "merge_output_format", VStr (py "mp4"));
    (py "postprocessors",
       VPostprocessors [[ (py "key", py "FFmpegVideoConvertor");
                          (py "preferedformat", py "mp4") ]]);
    (py "retries", VInt 10);
    (py "fragment_retries", VInt 10);
    (py "skip_unavailable_fragments", VBool true);
    (py "keepvideo", VBool false) ].

(** [ydl_opts] of [download_audio]. *)
Definition audio_opts (output_path : pystr) : ydl_options :=
  [ (py "format", VStr (py "bestaudio/best"));
    (py "outtmpl", VStr output_path);
    (py "quiet", VBool true);
    (py "no_warnings", VBool true);
    (py "postprocessors",
       VPostprocessors [[ (py "key", py "FFmpegExtractAudio");
                          (py "preferredcodec", py "mp3");
                          (py "preferredquality", py "192") ]]) ].

(** [ydl_opts] of [get_video_info]. *)
Definition info_opts : ydl_options :=
  [ (py "quiet", VBool true); (py "no_warnings", VBool true);
    (py "skip_download", VBool true) ].

End YouTubeService.

(** ** The extractor's format selection

    [download_video] only builds a selection string; choosing streams is the
    extractor's work.  This module follows the extractor's documented
    reading of such a string, for the fragment the bot produces:
    alternatives separated by [/], tried left to right; within one
    alternative, parts joined by [+], all of which must be found;
    [bestvideo] is the best video-only stream, [bestaudio] the best
    audio-only stream, [best] the best stream with both or, when there is
    none and the list the extractor got holds no stream with video or none
    with audio, the best stream of any kind; a filter [[height<=N]] is
    applied first and keeps the streams whose height is known and at most
    [N].  Streams are listed from worst to best. *)

Module YtDlp.

Record stream := { has_video : bool; has_audio : bool; stream_height : option Z }.

Inductive kind := BestVideo | BestAudio | Best.

Record atom := { a_kind : kind; a_height_le : list Z }.

(** Alternatives, each a list of parts to merge. *)
Definition selector := list (list atom).

Definition digit (c : N) : option Z :=
  if ((48 <=? c) && (c <=? 57))%N then Some (Z.of_N c - 48) else None.

Definition parse_nat (s : pystr) : option Z :=
  match s with
  | [] => None
  | _ => foldl (fun acc c => match acc, digit c with
                             | Some a, Some d => Some (10 * a + d)
                             | _, _ => None
                             end) (Some 0) s
  end.

(** One filter, given without its opening bracket: [height<=N]]. *)
Definition parse_filter (s : pystr) : option Z :=
  if startswith s (py "height<=") && endswith s (py "]")
  then parse_nat (rev (drop 1 (rev (drop 8 s))))
  else None.

Definition parse_kind (s : pystr) : option kind :=
  if str_eqb s (py "bestvideo") then Some BestVideo
  else if str_eqb s (py "bestaudio") then Some BestAudio
  else if str_eqb s (py "best") then Some Best
  else None.

Definition parse_atom (s : pystr) : option atom :=
  match split 91 s with
  | name :: filters =>
      k ← parse_kind name;
      caps ← mapM parse_filter filters;
      Some {| a_kind := k; a_height_le := caps |}
  | [] => None
  end.

Definition parse_format (s : pystr) : option selector :=
  mapM (fun alt => mapM parse_atom (split 43 alt)) (split 47 s).

(** The filters of an atom: every cap holds of the stream's height. *)
Definition capped (a : atom) (s : stream) : bool :=
  forallb (fun cap => match stream_height s with
                      | Some h => h <=? cap
                      | None => false
                      end) (a_height_le a).

Definition eligible (a : atom) (s : stream) : bool :=
  match a_kind a with
  | BestVideo => has_video s && negb (has_audio s)
  | BestAudio => has_audio s && negb (has_video s)
  | Best => has_video s && has_audio s
  end
  && capped a s.

(** A stream that carries video or audio. *)
Definition has_media (s : stream) : bool := has_video s || has_audio s.

(** The extractor's [incomplete_formats]: no stream of the list carries
    video, or none carries audio. *)
Definition incomplete_formats (formats : list stream) : bool :=
  forallb (fun s => negb (has_video s)) formats
  || forallb (fun s => negb (has_audio s)) formats.

(** One atom: the best of the eligible streams; for [best], when there is
    none and the list is incomplete, the best capped stream of any kind. *)
Definition pick (formats : list stream) (a : atom) : option stream :=
  match List.filter (eligible a) formats, a_kind a with
  | [], Best =>
      if incomplete_formats formats
      then last (List.filter (fun s => has_media s && capped a s) formats)
      else None
  | matches, _ => last matches
  end.

Fixpoint select (sel : selector) (formats : list stream) : option (list stream) :=
  match sel with
  | [] => None
  | alt :: sel' =>
      match mapM (pick formats) alt with
      | Some chosen => Some chosen
      | None => select sel' formats
      end
  end.

(** The streams fetched for a format string. *)
Definition select_format (code : pystr) (formats : list stream) : option (list stream) :=
  sel ← parse_format code;
  select sel formats.

End YtDlp.

(** ** Effects: exceptions, the download directory, the chat transport *)

Module World.
Import YouTubeService.

(** Exceptions below [Exception]; [except TelegramAPIError] only catches
    the first kind, [except Exception] both. *)
Inductive exn : Type :=
| TelegramAPIError (detail : pystr)
| OtherError (detail : pystr).

(** [str(e)] *)
Definition exn_str (e : exn) : pystr :=
  match e with
  | TelegramAPIError d => d
  | OtherError d => d
  end.

(** The extractor's answer to a probe: [info.get('title')] and
    [info.get('formats', [])]. *)
Record info := { title : option pystr; formats : list fmt }.

(** [localization.get_message(key, language, error=...)] *)
Inductive text : Type :=
| Localized (key language : pystr) (error : option pystr).

(** [get_video_quality_keyboard(language, url, available_formats)] *)
Inductive markup : Type :=
| QualityKeyboard (language url : pystr) (available_formats : option (list pystr)).

(** Calls made on the chat transport. *)
Inductive call : Type :=
| edit_text (t : text) (reply_markup : option markup)
| answer_audio (audio title : pystr)
| answer_video (video caption : pystr)
| answer.

Inductive level := DEBUG | INFO | ERROR.

(** What a run leaves behind, oldest first: every transport call with its
    fate, every log record, and every entry into [cleanup_file]. *)
Inductive entry : Type :=
| Transport (c : call) (failure : option exn)
| Log (l : level) (message : pystr)
| CleanupFile (file_path : pystr).

Record world := {
  files : list pystr;       (* the paths that exist, in directory order *)
  journal : list entry;
  fresh : nat               (* number of identifiers drawn so far *)
}.

(** Everything outside the repository that the code calls. *)
Record env := {
  download_dir : pystr;
  (* [YoutubeDL(options).extract_info(url, download=False)] *)
  extract_info : pystr -> ydl_options -> exn + info;
  (* [YoutubeDL(options).download([url])]: new directory contents, and the
     exception it ends with, if any *)
  ydl_download : pystr -> ydl_options -> list pystr -> option exn * list pystr;
  uuid4 : nat -> pystr;
  remove_error : pystr -> option exn;
  rename_error : pystr -> pystr -> option exn;
  is_word : N -> bool;                  (* the class [\w] *)
  size_text : pystr -> pystr;           (* [f"{file_size:.2f}"] of a file *)
  user_language : Z -> pystr;           (* [user_db.get_user_language] *)
  transport_fate : list entry -> call -> option exn
}.

(** State and exceptions. *)
Definition M (A : Type) : Type := world -> (exn + A) * world.

Definition ret {A : Type} (a : A) : M A := fun w => (inr a, w).

Definition bind {A B : Type} (m : M A) (k : A -> M B) : M B :=
  fun w => match m w with
           | (inr a, w') => k a w'
           | (inl e, w') => (inl e, w')
           end.

Definition raise {A : Type} (e : exn) : M A := fun w => (inl e, w).

(** [try: body / except Exception as e: handler e] *)
Definition try_except {A : Type} (body : M A) (handler : exn -> M A) : M A :=
  fun w => match body w with
           | (inr a, w') => (inr a, w')
           | (inl e, w') => handler e w'
           end.

(** [try: body / except TelegramAPIError as e: handler e] *)
Definition try_except_api {A : Type} (body : M A) (handler : exn -> M A) : M A :=
  fun w => match body w with
           | (inl (TelegramAPIError d), w') => handler (TelegramAPIError d) w'
           | other => other
           end.

(** [try: body / finally: final] *)
Definition try_finally {A : Type} (body : M A) (final : M unit) : M A :=
  fun w => match body w with
           | (r, w') => match final w' with
                        | (inr _, w'') => (r, w'')
                        | (inl e, w'') => (inl e, w'')
                        end
           end.

Declare Scope py_scope.
Delimit Scope py_scope with py.
Notation "x <- m ;; k" := (bind m (fun x => k))
  (at level 20, m at level 99, k at level 200, only parsing) : py_scope.
Notation "m ;; k" := (bind m (fun _ => k))
  (at level 100, k at level 200, right associativity, only parsing) : py_scope.
Open Scope py_scope.

Definition record (x : entry) : M unit :=
  fun w => (inr tt, {| files := files w; journal := journal w ++ [x]; fresh := fresh w |}).

(** [self.logger.<level>(message)] *)
Definition log (l : level) (message : pystr) : M unit := record (Log l message).

Definition lift_result {A : Type} (r : exn + A) : M A := fun w => (r, w).

Definition set_files (fs : list pystr) : M unit :=
  fun w => (inr tt, {| files := fs; journal := journal w; fresh := fresh w |}).

Definition get_files : M (list pystr) := fun w => (inr (files w), w).

(** [os.path.join(a, b)] *)
Definition path_join (a b : pystr) : pystr :=
  if startswith b (py "/") then b
  else if str_eqb a [] || endswith a (py "/") then a ++ b
  else a ++ py "/" ++ b.

(** [os.path.exists(p)] *)
Definition os_path_exists (p : pystr) : M bool :=
  fs <- get_files ;; ret (bool_decide (p ∈ fs)).

(** The names directly under the directory [d] among the paths [fs]. *)
Definition dir_names (d : pystr) (fs : list pystr) : list pystr :=
  let prefix := path_join d [] in
  omap (fun p =>
          let name := drop (length prefix) p in
          if startswith p prefix && negb (str_eqb name [])
             && negb (contains (py "/") name)
          then Some name else None) fs.

(** [os.listdir(d)] *)
Definition os_listdir (d : pystr) : M (list pystr) :=
  fs <- get_files ;; ret (dir_names d fs).

Section WithEnv.
Variable E : env.

(** One call on the chat transport; its fate is the transport's. *)
Definition tg (c : call) : M unit :=
  fun w =>
    let failure := transport_fate E (journal w) c in
    let w' := {| files := files w;
                 journal := journal w ++ [Transport c failure];
                 fresh := fresh w |} in
    match failure with
    | Some e => (inl e, w')
    | None => (inr tt, w')
    end.

(** [str(uuid.uuid4())] *)
Definition new_uuid : M pystr :=
  fun w => (inr (uuid4 E (fresh w)),
            {| files := files w; journal := journal w; fresh := S (fresh w) |}).

(** [os.remove(p)] *)
Definition os_remove (p : pystr) : M unit :=
  match remove_error E p with
  | Some e => raise e
  | None => fs <- get_files ;; set_files (List.filter (fun q => negb (str_eqb q p)) fs)
  end.

(** [os.rename(a, b)] *)
Definition os_rename (a b : pystr) : M unit :=
  match rename_error E a b with
  | Some e => raise e
  | None =>
      fs <- get_files ;;
      set_files ((fun q => if str_eqb q a then b else q)
                   <$> List.filter (fun q => negb (str_eqb q b)) fs)
  end.

(** [_extract_info] and [_download], run on the executor. *)
Definition _extract_info (url : pystr) (options : ydl_options) : M info :=
  lift_result (extract_info E url options).

Definition _download (url : pystr) (options : ydl_options) : M unit :=
  fs <- get_files ;;
  let '(failure, fs') := ydl_download E url options fs in
  set_files fs' ;;
  match failure with
  | Some e => raise e
  | None => ret tt
  end.

(** [url.strip()] followed by [re.sub(r'^[@\s]+', '', ...)] *)
Definition clean (url : pystr) : pystr := sub_leading_at_space (strip url).

(** [str(b)] of a [bool], as interpolated by an f-string. *)
Definition str_of_bool (b : bool) : pystr := if b then py "True" else py "False".

(** [is_valid_youtube_url] as it runs: the verdict of
    [YouTubeService.is_valid_youtube_url] together with the DEBUG record of
    line 66 or of line 71; an empty [url] returns before either. *)
Definition is_valid_youtube_url_logged (url : pystr) : M bool :=
  match url with
  | [] => ret false
  | _ :: _ =>
      let cleaned_url := clean url in
      if contains (py "youtube.com") cleaned_url
         || contains (py "youtu.be") cleaned_url
      then
        log DEBUG (py "URL contains youtube.com or youtu.be - considered valid") ;;
        ret true
      else
        let result := Re.search YOUTUBE_URL_PATTERN cleaned_url in
        log DEBUG (py "Regular expression validation result: " ++ str_of_bool result) ;;
        ret result
  end.

(** [get_video_info] *)
Definition get_video_info (url : pystr) : M info :=
  let cleaned_url := clean url in
  log INFO (py "Getting video information: " ++ cleaned_url) ;;
  try_except
    (i <- _extract_info cleaned_url info_opts ;;
     log INFO (py "Successfully got video information: "
                  ++ default (py "Unknown") (title i)) ;;
     ret i)
    (fun e =>
       log ERROR (py "Error getting video information: " ++ exn_str e) ;;
       raise e).

Definition repr_ints (l : list Z) : pystr :=
  py "[" ++ join (py ", ") (str_of_int <$> l) ++ py "]".

Definition repr_labels (l : list pystr) : pystr :=
  py "[" ++ join (py ", ") ((fun s => py "'" ++ s ++ py "'") <$> l) ++ py "]".

(** [get_available_formats] *)
Definition get_available_formats (url : pystr) : M (list pystr) :=
  let cleaned_url := clean url in
  log INFO (py "Getting available formats for video: " ++ cleaned_url) ;;
  try_except
    (i <- get_video_info cleaned_url ;;
     let heights := available_heights (formats i) in
     log DEBUG (py "Available video heights: "
                   ++ repr_ints (sorted_by id (elements heights))) ;;
     let available_formats := available_qualities heights in
     log INFO (py "Available formats: " ++ repr_labels available_formats) ;;
     ret available_formats)
    (fun e =>
       log ERROR (py "Error getting available formats: " ++ exn_str e) ;;
       ret DEFAULT_FORMATS).

(** [re.sub(r'[^\w\-_\. ]', '_', title)] *)
Definition safe (title : pystr) : pystr :=
  (fun c => if is_word E c || (c =? 45)%N || (c =? 95)%N || (c =? 46)%N
               || (c =? 32)%N
            then c else 95%N) <$> title.

(** The loop over [os.listdir(self.download_dir)] with its [break]. *)
Definition find_downloaded (file_id ext : pystr) (names : list pystr) : option pystr :=
  path_join (download_dir E)
    <$> List.find (fun file => startswith file file_id && endswith file ext) names.

(** [download_audio] *)
Definition download_audio (url : pystr) : M (option pystr * option pystr) :=
  let cleaned_url := clean url in
  log INFO (py "Downloading audio from video: " ++ cleaned_url) ;;
  file_id <- new_uuid ;;
  let output_path := path_join (download_dir E) (file_id ++ py ".%(ext)s") in
  let ydl_opts := audio_opts output_path in
  try_except
    (i <- get_video_info cleaned_url ;;
     let title := default (py "audio") (title i) in
     _download cleaned_url ydl_opts ;;
     names <- os_listdir (download_dir E) ;;
     match find_downloaded file_id (py ".mp3") names with
     | Some downloaded_file =>
         let safe_title := safe title in
         let new_filename := safe_title ++ py ".mp3" in
         let new_path := path_join (download_dir E) new_filename in
         taken <- os_path_exists new_path ;;
         let new_filename :=
           if taken then safe_title ++ py "_" ++ take 8 file_id ++ py ".mp3"
           else new_filename in
         let new_path :=
           if taken then path_join (download_dir E) new_filename else new_path in
         os_rename downloaded_file new_path ;;
         ret (Some new_path, Some new_filename)
     | None => ret (None, None)
     end)
    (fun e =>
       log ERROR (py "Error downloading audio: " ++ exn_str e) ;;
       ret (None, None)).

(** [download_video] *)
Definition download_video (url quality : pystr) : M (option pystr * option pystr) :=
  let cleaned_url := clean url in
  log INFO (py "Downloading video: " ++ cleaned_url ++ py ", quality: " ++ quality) ;;
  file_id <- new_uuid ;;
  let output_path := path_join (download_dir E) (file_id ++ py ".%(ext)s") in
  let height := height_for quality in
  let format_code := format_code height in
  log INFO (py "Using format for quality " ++ quality ++ py ": " ++ format_code) ;;
  let ydl_opts := video_opts quality output_path in
  try_except
    (i <- get_video_info cleaned_url ;;
     let title := default (py "video") (title i) in
     _download cleaned_url ydl_opts ;;
     names <- os_listdir (download_dir E) ;;
     match find_downloaded file_id (py ".mp4") names with
     | Some downloaded_file =>
         log INFO (py "Downloaded file: " ++ downloaded_file ++ py ", size: "
                      ++ size_text E downloaded_file ++ py " MB") ;;
         let safe_title := safe title in
         let new_filename := safe_title ++ py "_" ++ quality ++ py ".mp4" in
         let new_path := path_join (download_dir E) new_filename in
         taken <- os_path_exists new_path ;;
         let new_filename :=
           if taken
           then safe_title ++ py "_" ++ quality ++ py "_" ++ take 8 file_id ++ py ".mp4"
           else new_filename in
         let new_path :=
           if taken then path_join (download_dir E) new_filename else new_path in
         os_rename downloaded_file new_path ;;
         ret (Some new_path, Some new_filename)
     | None => ret (None, None)
     end)
    (fun e =>
       log ERROR (py "Error downloading video: " ++ exn_str e) ;;
       ret (None, None)).

(** [cleanup_file] *)
Definition cleanup_file (file_path : pystr) : M unit :=
  record (CleanupFile file_path) ;;
  try_except
    (present <- os_path_exists file_path ;;
     if present
     then os_remove file_path ;;
          log INFO (py "Deleted file: " ++ file_path)
     else ret tt)
    (fun e =>
       log ERROR (py "Error deleting file " ++ file_path ++ py ": " ++ exn_str e)).

End WithEnv.

(** Unfolds a run down to the world it acts on. *)
Ltac run :=
  unfold get_available_formats, download_video, download_audio, cleanup_file,
    get_video_info, _extract_info, _download, os_listdir, os_path_exists,
    os_rename, os_remove, new_uuid, tg, log, record, lift_result, set_files,
    get_files, try_except, try_except_api, try_finally, bind, raise, ret;
  simpl.

End World.

(** ** [bot/handlers/callbacks.py] *)

Module Callbacks.
Import YouTubeService World.

(** The parts of a [CallbackQuery] the handlers read: [callback.data],
    [callback.from_user.id] and the text of the message replied to. *)
Record CallbackQuery := {
  data : pystr;
  from_user_id : Z;
  reply_to_text : option pystr
}.

(** Truth value of an [Optional[str]]. *)
Definition truthy (o : option pystr) : bool :=
  match o with
  | Some (_ :: _) => true
  | _ => false
  end.

Section WithEnv.
Variable E : env.

Definition message (key : string) (language : pystr) : text :=
  Localized (py key) language None.

Definition error_message (language error : pystr) : text :=
  Localized (py "error") language (Some error).

(** [parts[1]] *)
Definition second (parts : list pystr) : M pystr :=
  match parts !! 1%nat with
  | Some x => ret x
  | None => raise (OtherError (py "list index out of range"))
  end.

(** Lines 115-145 of [callback_format]: what follows [download_audio]. *)
Definition deliver_audio (language : pystr)
    (file_path file_name : option pystr) : M unit :=
  if truthy file_path && truthy file_name then
    let path := default [] file_path in
    let name := default [] file_name in
    tg E (edit_text (message "uploading" language) None) ;;
    try_finally
      (try_except_api
         (tg E (answer_audio path name) ;;
          tg E (edit_text (message "download_complete" language) None))
         (fun e =>
            log ERROR (py "Error sending audio: " ++ exn_str e) ;;
            tg E (edit_text (error_message language (exn_str e)) None)))
      (cleanup_file E path)
  else
    tg E (edit_text (error_message language (py "Failed to download audio")) None).

(** Lines 189-219 of [callback_quality]: what follows [download_video]. *)
Definition deliver_video (language : pystr)
    (file_path file_name : option pystr) : M unit :=
  if truthy file_path && truthy file_name then
    let path := default [] file_path in
    let name := default [] file_name in
    tg E (edit_text (message "uploading" language) None) ;;
    try_finally
      (try_except_api
         (tg E (answer_video path name) ;;
          tg E (edit_text (message "download_complete" language) None))
         (fun e =>
            log ERROR (py "Error sending video: " ++ exn_str e) ;;
            tg E (edit_text (error_message language (exn_str e)) None)))
      (cleanup_file E path)
  else
    tg E (edit_text (error_message language (py "Failed to download video")) None).

(** [callback_format] *)
Definition callback_format (callback : CallbackQuery) : M unit :=
  let parts := split 58 (data callback) in
  format_type <- second parts ;;
  let user_id := from_user_id callback in
  let language := user_language E user_id in
  let url :=
    if bool_decide (2 < length parts)%nat
    then Some (clean (join (py ":") (drop 2 parts)))
    else None in
  let url :=
    if truthy url then url
    else if truthy (reply_to_text callback)
         then clean <$> reply_to_text callback
         else url in
  valid <- (if truthy url then is_valid_youtube_url_logged (default [] url)
            else ret false) ;;
  if negb (truthy url) || negb valid then
    tg E (edit_text (message "invalid_url" language) None) ;;
    tg E answer
  else
    let url := default [] url in
    (if str_eqb format_type (py "video") then
       tg E (edit_text (message "processing" language) None) ;;
       try_except
         (available_formats <- get_available_formats E url ;;
          tg E (edit_text (message "select_quality" language)
                  (Some (QualityKeyboard language url (Some available_formats)))))
         (fun e =>
            log ERROR (py "Error getting video formats: " ++ exn_str e) ;;
            tg E (edit_text (message "select_quality" language)
                    (Some (QualityKeyboard language url None))))
     else if str_eqb format_type (py "audio") then
       tg E (edit_text (message "downloading" language) None) ;;
       r <- download_audio E url ;;
       deliver_audio language r.1 r.2
     else ret tt) ;;
    tg E answer.

(** [callback_quality] *)
Definition callback_quality (callback : CallbackQuery) : M unit :=
  let parts := split 58 (data callback) in
  quality <- second parts ;;
  let raw_url := join (py ":") (drop 2 parts) in
  let url := clean raw_url in
  let user_id := from_user_id callback in
  let language := user_language E user_id in
  tg E (edit_text (message "downloading" language) None) ;;
  valid <- is_valid_youtube_url_logged url ;;
  if negb valid then
    tg E (edit_text (message "invalid_url" language) None) ;;
    tg E answer
  else
    try_except
      (r <- download_video E url quality ;;
       deliver_video language r.1 r.2)
      (fun e =>
         log ERROR (py "Error in video download process: " ++ exn_str e) ;;
         tg E (edit_text (error_message language (exn_str e)) None)) ;;
    tg E answer.

End WithEnv.

End Callbacks.

(** ** Python [float] *)

Module Float64.

(** A [float] is an IEEE 754 binary64 number: 53 bits of precision. *)
Definition float := SpecFloat.spec_float.

Definition prec : Z := 53.
Definition emax : Z := 1024.

(** [x - y], rounded to nearest, ties to even. *)
Definition sub (x y : float) : float := SpecFloat.SFsub prec emax x y.

(** [x < y] and [x <= y]; both are false when either side is a NaN. *)
Definition ltb (x y : float) : bool := SpecFloat.SFltb x y.
Definition leb (x y : float) : bool := SpecFloat.SFleb x y.

(** The [int] 0 of the source where it meets a float. *)
Definition zero : float := SpecFloat.S754_zero false.

(** Truth value of a float: the two zeros are falsy, all else is truthy. *)
Definition truthy (x : float) : bool :=
  match x with
  | SpecFloat.S754_zero _ => false
  | _ => true
  end.

(** The float nearest to [m * 2^e], and the float of an [int]. *)
Definition scaled (m e : Z) : float :=
  SpecFloat.binary_normalize prec emax m e false.

Definition of_Z (n : Z) : float := scaled n 0.

(** The number a finite float stands for, in lowest terms. *)
Definition value (x : float) : option Q :=
  match x with
  | SpecFloat.S754_zero _ => Some 0%Q
  | SpecFloat.S754_finite s m e =>
      Some (Qred ((if s then - inject_Z (Zpos m) else inject_Z (Zpos m)) * 2 ^ e))%Q
  | _ => None
  end.

End Float64.

(** ** [bot/middlewares/throttling.py] *)

Module Throttling.
Import Float64.

Record User := { id : Z }.

Inductive TelegramObject : Type :=
| Message (from_user : option User)
| CallbackQuery (from_user : option User)
| OtherUpdate.

(** Instants ([time.time()]) and rates are floats.  A rate given as an
    [int] is taken at its float value, which is the same number up to
    2^53. *)
Record ThrottlingMiddleware := {
  default_rate : float;
  user_last_request : gmap Z float
}.

(** [_get_user] *)
Definition _get_user (event : TelegramObject) : option User :=
  match event with
  | Message u => u
  | CallbackQuery u => u
  | OtherUpdate => None
  end.

Section Call.
(** The handler's [data] dict with its [throttling_rate] flag, and the
    handler itself as a function on whatever state it acts upon. *)
Context {D S R : Type}.
Variable get_flag : D -> option float.
Variable handler : TelegramObject -> D -> S -> R * S.

(** [get_flag(data, "throttling_rate") or self.default_rate] *)
Definition rate_for (self : ThrottlingMiddleware) (data : D) : float :=
  match get_flag data with
  | Some r => if truthy r then r else default_rate self
  | None => default_rate self
  end.

Definition invoke (self : ThrottlingMiddleware) (event : TelegramObject)
    (data : D) (s : S) : option R * ThrottlingMiddleware * S :=
  let '(r, s') := handler event data s in (Some r, self, s').

(** [__call__] at the instant [current_time] read from the clock.
    [None] is the [return None] of a dropped request. *)
Definition __call__ (self : ThrottlingMiddleware) (event : TelegramObject)
    (data : D) (current_time : float) (s : S)
    : option R * ThrottlingMiddleware * S :=
  match _get_user event with
  | Some user =>
      let throttling_rate := rate_for self data in
      if leb throttling_rate zero then invoke self event data s
      else
        let user_id := id user in
        let last_request_time := default zero (user_last_request self !! user_id) in
        if ltb (sub current_time last_request_time) throttling_rate then
          (None, self, s)
        else
          let self' :=
            {| default_rate := default_rate self;
               user_last_request := <[user_id := current_time]> (user_last_request self) |} in
          invoke self' event data s
  | None => invoke self event data s
  end.

End Call.

End Throttling.

(** ** Vocabulary of the statements *)

Module Spec.
Import YouTubeService World.

(** Order of two items by their sort key. *)
Definition key_le {A : Type} (key : A -> Z) (a b : A) : Prop := key a ≤ key b.

(** Some available height lies within [max(height * 0.1, 50)] of
    [height]. *)
Definition within_tolerance (heights : gset Z) (height : Z) : Prop :=
  ∃ a, a ∈ heights ∧
       (inject_Z (Z.abs (a - height))
          <= Qmax (inject_Z height * (1 # 10)) (inject_Z 50))%Q.

(** [height] does not exceed the largest available height, taken to be
    720 when nothing is available. *)
Definition within_ceiling (heights : gset Z) (height : Z) : Prop :=
  (heights = ∅ ∧ height ≤ 720)
  ∨ (∃ m, m ∈ heights ∧ (∀ a, a ∈ heights → a ≤ m) ∧ height ≤ m).

(** The eight labels, by ascending height. *)
Definition LABELS : list pystr := fst <$> RESOLUTIONS.

(** What [download_video] and [download_audio], entered in world [w], get
    back from the extractor's download: the exception it ended with, if
    any, and the directory contents it left. *)
Definition video_request (E : env) (url quality : pystr) (w : world)
    : option exn * list pystr :=
  ydl_download E (clean url)
    (video_opts quality
       (path_join (download_dir E) (uuid4 E (fresh w) ++ py ".%(ext)s")))
    (files w).

Definition audio_request (E : env) (url : pystr) (w : world)
    : option exn * list pystr :=
  ydl_download E (clean url)
    (audio_opts (path_join (download_dir E) (uuid4 E (fresh w) ++ py ".%(ext)s")))
    (files w).

(** The paths [cleanup_file] was entered with, in order. *)
Definition cleanups (j : list entry) : list pystr :=
  omap (fun x => match x with
                 | CleanupFile p => Some p
                 | _ => None
                 end) j.

End Spec.

(** ** Concrete worlds *)

Module Examples.
Import YouTubeService World Callbacks YtDlp.

Definition ascii_word (c : N) : bool := is_id_char c && negb (c =? 45)%N.

Definition file_id : pystr := py "0f8fad5b-d9cb-469f-a165-70867728950e".

Definition quiet_transport : list entry -> call -> option exn := fun _ _ => None.

(** A transport that rejects the "uploading" status edit and nothing else. *)
Definition rejects_uploading : list entry -> call -> option exn :=
  fun _ c =>
    match c with
    | edit_text (Localized key _ _) _ =>
        if str_eqb key (py "uploading")
        then Some (TelegramAPIError (py "Bad Request: message to edit not found"))
        else None
    | _ => None
    end.

Definition make_env
    (dl : pystr -> ydl_options -> list pystr -> option exn * list pystr)
    (fate : list entry -> call -> option exn) : env :=
  {| download_dir := py "downloads";
     extract_info := fun _ _ => inr {| title := Some (py "My clip!"); formats := [] |};
     ydl_download := dl;
     uuid4 := fun _ => file_id;
     remove_error := fun _ => None;
     rename_error := fun _ _ => None;
     is_word := ascii_word;
     size_text := fun _ => py "1.00";
     user_language := fun _ => py "en";
     transport_fate := fate |}.

(** The extractor writes [<file_id>.mp3] or [<file_id>.mp4]. *)
Definition writes (ext : string) : pystr -> ydl_options -> list pystr -> option exn * list pystr :=
  fun _ _ fs => (None, fs ++ [py "downloads/" ++ file_id ++ py ext]).

(** The extractor raises. *)
Definition breaks : pystr -> ydl_options -> list pystr -> option exn * list pystr :=
  fun _ _ fs => (Some (OtherError (py "HTTP Error 403: Forbidden")), fs).

(** The extractor returns normally and leaves nothing behind. *)
Definition writes_nothing : pystr -> ydl_options -> list pystr -> option exn * list pystr :=
  fun _ _ fs => (None, fs).

Definition empty_world : world := {| files := []; journal := []; fresh := 0 |}.

Definition link : pystr := py "https://youtu.be/dQw4w9WgXcQ".

Definition audio_pressed : CallbackQuery :=
  {| data := py "format:audio:https://youtu.be/dQw4w9WgXcQ";
     from_user_id := 7; reply_to_text := None |}.

Definition quality_pressed : CallbackQuery :=
  {| data := py "quality:720p:https://youtu.be/dQw4w9WgXcQ";
     from_user_id := 7; reply_to_text := None |}.

Definition video_1080 : stream :=
  {| has_video := true; has_audio := false; stream_height := Some 1080 |}.

Definition some_streams : list stream :=
  [ {| has_video := true; has_audio := true; stream_height := Some 360 |};
    {| has_video := false; has_audio := true; stream_height := None |};
    video_1080;
    {| has_video := true; has_audio := false; stream_height := Some 2160 |} ].

(** A video that comes without any audio stream. *)
Definition video_720 : stream :=
  {| has_video := true; has_audio := false; stream_height := Some 720 |}.

Definition silent_streams : list stream :=
  [ {| has_video := true; has_audio := false; stream_height := Some 360 |};
    video_720;
    {| has_video := true; has_audio := false; stream_height := Some 1440 |} ].

Definition some_choice : list stream :=
  [ video_1080;
    {| has_video := false; has_audio := true; stream_height := None |} ].

(** An environment in which every probe fails. *)
Definition unreachable : env :=
  {| download_dir := py "downloads";
     extract_info := fun _ _ => inl (OtherError (py "Video unavailable"));
     ydl_download := writes_nothing;
     uuid4 := fun _ => file_id;
     remove_error := fun _ => None;
     rename_error := fun _ _ => None;
     is_word := ascii_word;
     size_text := fun _ => py "0.00";
     user_language := fun _ => py "en";
     transport_fate := quiet_transport |}.

(** A handler that counts how often it ran. *)
Definition counting_handler
    (event : Throttling.TelegramObject) (data : option Float64.float) (n : nat)
    : unit * nat :=
  (tt, S n).

Definition message_from (user_id : Z) : Throttling.TelegramObject :=
  Throttling.Message (Some {| Throttling.id := user_id |}).

(** The gate as [bot.py] sets it up: half a second, nobody seen yet. *)
Definition fresh_gate : Throttling.ThrottlingMiddleware :=
  {| Throttling.default_rate := Float64.scaled 1 (-1);
     Throttling.user_last_request := ∅ |}.

End Examples.

(** ** A stream of requests through the rate gate *)

Module Traffic.
Import Throttling.

Section Serve.
Context {D S R : Type}.
Variable get_flag : D -> option Float64.float.
Variable handler : TelegramObject -> D -> S -> R * S.

(** The dispatcher hands the requests to [__call__] one after the other,
    each with the instant at which the clock is read. *)
Fixpoint serve (self : ThrottlingMiddleware)
    (requests : list (TelegramObject * D * Float64.float)) (s : S)
    : list (option R) * ThrottlingMiddleware * S :=
match requests with
| [] => ([], self, s)
| (event, data, now) :: rest =>
    let '(r, self', s') := __call__ get_flag handler self event data now s in
    let '(rs, self'', s'') := serve self' rest s' in
    (r :: rs, self'', s'')
end.

End Serve.

(** The instants of the requests of user [uid] that were let through. *)
Fixpoint accepted_at {D R : Type} (uid : Z)
    (requests : list (TelegramObject * D * Float64.float))
    (results : list (option R)) : list Float64.float :=
match requests, results with
| (event, _, now) :: requests', Some _ :: results' =>
    match _get_user event with
    | Some user =>
        if bool_decide (id user = uid) then now :: accepted_at uid requests' results'
        else accepted_at uid requests' results'
    | None => accepted_at uid requests' results'
    end
| _ :: requests', None :: results' => accepted_at uid requests' results'
| _, _ => []
end.

(** Consecutive instants lie at least [rate] apart as the gate measures
    it: the test [t' - t < rate] of line 62 fails. *)
Fixpoint spaced (rate : Float64.float) (instants : list Float64.float) : Prop :=
match instants with
| t :: ((t' :: _) as rest) =>
    Float64.ltb (Float64.sub t' t) rate = false ∧ spaced rate rest
| _ => True
end.

End Traffic.

(** ** [bot/locales/__init__.py] and [bot/locales/en.py] *)

Module Localization.
Import YouTubeService World.

(** A language module: its [MESSAGES] and [BUTTONS] dicts. *)
Record language_module := {
  MESSAGES : list (pystr * pystr);
  BUTTONS : list (pystr * pystr)
}.

(** [MESSAGES] of [bot/locales/en.py]; characters outside ASCII are given
    by their code points. *)
Definition en_MESSAGES : list (pystr * pystr) :=
[ (py "welcome",
   ([128075] ++ py " Hello! I'm a bot for downloading videos and audio from YouTube." ++ [10; 10]
    ++ py "Just send me a link to a video, and I'll offer download options.")%N);
  (py "language_selected",
   ([9989] ++ py " Language changed to English")%N);
  (py "select_language",
   ([127760] ++ py " Select language / " ++ [1042; 1099; 1073; 1077; 1088; 1080; 1090; 1077]
    ++ py " " ++ [1103; 1079; 1099; 1082])%N);
  (py "processing",
   ([9203] ++ py " Processing your link...")%N);
  (py "error",
   ([10060] ++ py " An error occurred: {error}")%N);
  (py "invalid_url",
   ([10060] ++ py " Invalid link. Please send a valid YouTube video link.")%N);
  (py "select_format",
   ([127916] ++ py " Select format for download:")%N);
  (py "video",
   ([128249] ++ py " Video")%N);
  (py "audio",
   ([127925] ++ py " Audio")%N);
  (py "select_quality",
   ([128202] ++ py " Select video quality:")%N);
  (py "downloading",
   ([9203] ++ py " Downloading file... This may take some time.")%N);
  (py "uploading",
   ([9203] ++ py " Uploading file to Telegram...")%N);
  (py "download_complete",
   ([9989] ++ py " Download complete!")%N);
  (py "file_too_large",
   ([9888; 65039] ++ py " File is too large to send.")%N);
  (py "help",
   ([8505; 65039] ++ py " *How to use the bot:*" ++ [10; 10]
    ++ py "1. Send a YouTube video link" ++ [10]
    ++ py "2. Select format (video or audio)" ++ [10]
    ++ py "3. For video, select quality" ++ [10]
    ++ py "4. Wait for the file to download" ++ [10; 10]
    ++ py "Commands:" ++ [10] ++ py "/start - Restart the bot" ++ [10]
    ++ py "/help - Show this help" ++ [10]
    ++ py "/language - Change language")%N);
  (py "back",
   ([11013; 65039] ++ py " Back")%N);
  (py "cancel",
   ([10060] ++ py " Cancel")%N);
  (py "operation_cancelled",
   ([10060] ++ py " Operation cancelled")%N);
  (py "quality_144p",
   (py "144p")%N);
  (py "quality_240p",
   (py "240p")%N);
  (py "quality_360p",
   (py "360p")%N);
  (py "quality_480p",
   (py "480p")%N);
  (py "quality_720p",
   (py "720p HD")%N);
  (py "quality_1080p",
   (py "1080p Full HD")%N);
  (py "quality_1440p",
   (py "1440p 2K")%N);
  (py "quality_2160p",
   (py "2160p 4K")%N);
  (py "best_quality",
   ([128285] ++ py " Best quality")%N) ].

(** [BUTTONS] of [bot/locales/en.py]. *)
Definition en_BUTTONS : list (pystr * pystr) :=
[ (py "ru",
   ([127479; 127482] ++ py " " ++ [1056; 1091; 1089; 1089; 1082; 1080; 1081])%N);
  (py "en",
   ([127468; 127463] ++ py " English")%N);
  (py "video",
   ([128249] ++ py " Video")%N);
  (py "audio",
   ([127925] ++ py " Audio")%N);
  (py "back",
   ([11013; 65039] ++ py " Back")%N);
  (py "cancel",
   ([10060] ++ py " Cancel")%N) ].

Definition en : language_module :=
{| MESSAGES := en_MESSAGES; BUTTONS := en_BUTTONS |}.

Record Localization := {
  languages : list (pystr * language_module);
  default_language : pystr
}.

(** [Localization(default_language)].  The module [ru] is imported by the
    source but is not among its files; it is left open. *)
Definition __init__ (ru : language_module) (default_language : pystr) : Localization :=
{| languages := [(py "ru", ru); (py "en", en)];
   default_language := default_language |}.

(** The module-level instance [localization = Localization()]. *)
Definition localization (ru : language_module) : Localization :=
__init__ ru (py "en").

(** What [message.format( **kwargs )] does: the formatted text, a
    [KeyError] for a field that has no keyword, or another exception. *)
Inductive format_outcome : Type :=
| Formatted (s : pystr)
| KeyError
| FormatError (e : exn).

(** [d[k]] *)
Definition subscript {V : Type} (d : list (pystr * V)) (k : pystr) : exn + V :=
match dict_get d k with
| Some v => inr v
| None => inl (OtherError (py "KeyError"))
end.

(** [k in d] *)
Definition has_key {V : Type} (d : list (pystr * V)) (k : pystr) : bool :=
match dict_get d k with
| Some _ => true
| None => false
end.

Definition try_result {A B : Type} (r : exn + A) (k : A -> exn + B) : exn + B :=
match r with
| inr a => k a
| inl e => inl e
end.

Section Format.
(** [str.format] is Python's own. *)
Variable str_format : pystr -> list (pystr * pystr) -> format_outcome.

(** Lines 48-57 of [get_message]: the text found, formatted when keyword
    arguments are given. *)
Definition finish (messages : list (pystr * pystr)) (key : pystr)
    (kwargs : list (pystr * pystr)) : exn + pystr :=
try_result (subscript messages key) (fun message =>
  match kwargs with
  | [] => inr message
  | _ :: _ =>
      match str_format message kwargs with
      | Formatted s => inr s
      | KeyError => inr message
      | FormatError e => inl e
      end
  end).

(** [get_message] *)
Definition get_message (self : Localization) (key language : pystr)
    (kwargs : list (pystr * pystr)) : exn + pystr :=
let language :=
  if has_key (languages self) language then language else default_language self in
try_result (subscript (languages self) language) (fun m =>
  let messages := MESSAGES m in
  if has_key messages key then finish messages key kwargs
  else
    try_result (subscript (languages self) (default_language self)) (fun d =>
      let messages := MESSAGES d in
      if has_key messages key then finish messages key kwargs
      else inr (py "Message key '" ++ key ++ py "' not found"))).

End Format.

(** [get_button] *)
Definition get_button (self : Localization) (key language : pystr) : exn + pystr :=
let language :=
  if has_key (languages self) language then language else default_language self in
try_result (subscript (languages self) language) (fun m =>
  let buttons := BUTTONS m in
  if has_key buttons key then subscript buttons key
  else
    try_result (subscript (languages self) (default_language self)) (fun d =>
      let buttons := BUTTONS d in
      if has_key buttons key then subscript buttons key
      else inr (py "Button key '" ++ key ++ py "' not found"))).

(** [get_available_languages]: the dict built by the comprehension, in the
    order of [self.languages]. *)
Fixpoint names_of (self : Localization) (codes : list pystr) : exn + list (pystr * pystr) :=
match codes with
| [] => inr []
| lang :: rest =>
    try_result (get_button self lang lang) (fun name =>
      try_result (names_of self rest) (fun names => inr ((lang, name) :: names)))
end.

Definition get_available_languages (self : Localization) : exn + list (pystr * pystr) :=
names_of self (fst <$> languages self).

(** The message keys the handlers ask for. *)
Definition HANDLER_KEYS : list pystr :=
[ py "welcome"; py "help"; py "select_language"; py "language_selected";
  py "processing"; py "select_format"; py "select_quality"; py "invalid_url";
  py "downloading"; py "uploading"; py "download_complete"; py "error";
  py "operation_cancelled" ].

End Localization.

(** ** [bot/keyboards/inline.py] *)

Module Keyboards.
Import YouTubeService.

(** A button caption: a literal string, or
    [localization.get_button(key, language)]. *)
Inductive caption : Type :=
| Plain (s : pystr)
| Button (key language : pystr).

Record InlineKeyboardButton := { text : caption; callback_data : pystr }.

(** [InlineKeyboardMarkup.inline_keyboard]: the rows of buttons. *)
Definition InlineKeyboardMarkup := list (list InlineKeyboardButton).

(** The chat library's [KeyboardBuilder.adjust] as its loop is written: a
    row is closed when a button arrives and the row already holds [size]
    buttons; the next size is then taken, the last one being repeated. *)
Fixpoint rows_of {B : Type} (size : nat) (sizes : list nat) (row : list B)
    (buttons : list B) : list (list B) :=
match buttons with
| [] => match row with
        | [] => []
        | _ :: _ => [row]
        end
| button :: rest =>
    if (size <=? length row)%nat then
      row :: match sizes with
             | [] => rows_of size [] [button] rest
             | size' :: sizes' => rows_of size' sizes' [button] rest
             end
    else rows_of size sizes (row ++ [button]) rest
end.

(** [builder.add(...)] for every button, [builder.adjust( *sizes )], then
    [builder.as_markup()]. *)
Definition adjust {B : Type} (sizes : list nat) (buttons : list B) : list (list B) :=
match sizes with
| [] => rows_of 8 [] [] buttons
| size :: sizes' => rows_of size sizes' [] buttons
end.

(** The list used when no formats are given (line 89). *)
Definition STANDARD_FORMATS : list pystr :=
[ py "144p"; py "240p"; py "360p"; py "480p"; py "720p"; py "1080p";
  py "1440p"; py "2160p" ].

Definition quality_button (url quality : pystr) : InlineKeyboardButton :=
{| text := Plain quality;
   callback_data := py "quality:" ++ quality ++ py ":" ++ url |}.

Definition back_button (language url : pystr) : InlineKeyboardButton :=
{| text := Button (py "back") language;
   callback_data := py "back_to_format:" ++ url |}.

Definition cancel_button (language : pystr) : InlineKeyboardButton :=
{| text := Button (py "cancel") language; callback_data := py "cancel" |}.

(** [if not available_formats: available_formats = [...]] *)
Definition shown_formats (available_formats : option (list pystr)) : list pystr :=
match available_formats with
| Some (q :: l) => q :: l
| _ => STANDARD_FORMATS
end.

(** [get_video_quality_keyboard] *)
Definition get_video_quality_keyboard (language url : pystr)
    (available_formats : option (list pystr)) : InlineKeyboardMarkup :=
let available_formats := shown_formats available_formats in
let buttons :=
  (quality_button url <$> available_formats)
    ++ [back_button language url; cancel_button language] in
if (length available_formats <=? 4)%nat then adjust [1; 1]%nat buttons
else
  let buttons_per_row := 2%nat in
  let rows := ((length available_formats + buttons_per_row - 1) / buttons_per_row)%nat in
  let adjust_values := replicate rows buttons_per_row ++ [1; 1]%nat in
  adjust adjust_values buttons.

(** [f"format:video:{url}" if url else "format:video"] and its audio twin. *)
Definition format_data (kind : string) (url : option pystr) : pystr :=
match url with
| Some (c :: u) => py "format:" ++ py kind ++ py ":" ++ (c :: u)
| _ => py "format:" ++ py kind
end.

(** [get_format_keyboard] *)
Definition get_format_keyboard (language : pystr) (url : option pystr)
    : InlineKeyboardMarkup :=
adjust [1%nat]
  [ {| text := Button (py "video") language; callback_data := format_data "video" url |};
    {| text := Button (py "audio") language; callback_data := format_data "audio" url |};
    cancel_button language ].

(** [get_language_keyboard], from the dict that
    [localization.get_available_languages()] returned. *)
Definition get_language_keyboard (languages : list (pystr * pystr))
    : InlineKeyboardMarkup :=
adjust [1%nat]
  ((fun '(lang_code, lang_name) =>
      {| text := Plain lang_name; callback_data := py "language:" ++ lang_code |})
     <$> languages).

(** Consecutive pairs of a list, a last single one if its length is odd. *)
Fixpoint pairs {B : Type} (l : list B) : list (list B) :=
match l with
| a :: b :: rest => [a; b] :: pairs rest
| [a] => [[a]]
| [] => []
end.

End Keyboards.

(** ** [bot/database/models.py] *)

Module Database.
Import YouTubeService World.

(** A Python dict in insertion order: assigning to a key that is present
    replaces its value in place, assigning to a new key appends. *)
Fixpoint odict_get {K V : Type} `{EqDecision K} (d : list (K * V)) (k : K) : option V :=
match d with
| [] => None
| (k', v) :: d' => if decide (k' = k) then Some v else odict_get d' k
end.

Fixpoint odict_set {K V : Type} `{EqDecision K} (k : K) (v : V) (d : list (K * V))
    : list (K * V) :=
match d with
| [] => [(k, v)]
| (k', v') :: d' =>
    if decide (k' = k) then (k', v) :: d' else (k', v') :: odict_set k v d'
end.

Record UserSettings := { user_id : Z; language : pystr }.

(** One user's JSON object, as [to_dict] writes it and as a file may hold
    it with a key missing. *)
Record user_json := { json_user_id : option Z; json_language : option pystr }.

(** [to_dict] *)
Definition to_dict (self : UserSettings) : user_json :=
{| json_user_id := Some (user_id self); json_language := Some (language self) |}.

(** [from_dict] applied to [{**user_data, "user_id": n}]: the identifier is
    the one merged in, the language defaults to ["en"]. *)
Definition from_dict (user_data : user_json) (n : Z) : UserSettings :=
{| user_id := n; language := default (py "en") (json_language user_data) |}.

(** The JSON document behind [db_path]; [None] when the file is missing or
    is not valid JSON. *)
Definition document := option (list (pystr * user_json)).

(** The [UserDatabase] object together with the file it writes. *)
Record UserDatabase := {
  _users : list (Z * UserSettings);
  file : document
}.

Section Int.
(** [int(s)] on a key of the document; [None] for its [ValueError]. *)
Variable int : pystr -> option Z.

(** [_load_users]: a missing or undecodable file gives the empty dict; a key
    that is not an integer raises. *)
Definition _load_users (doc : document) : exn + list (Z * UserSettings) :=
match doc with
| None => inr []
| Some data =>
    foldl (fun acc '(key, user_data) =>
             match acc, int key with
             | inr users, Some n => inr (odict_set n (from_dict user_data n) users)
             | inr _, None => inl (OtherError (py "invalid literal for int()"))
             | inl e, _ => inl e
             end) (inr []) data
end.

(** [UserDatabase(db_path)]: [_ensure_db_exists] creates an empty document
    when there is no file, then the users are loaded. *)
Definition open_database (on_disk : option document) : exn + UserDatabase :=
let doc := match on_disk with
           | None => Some []
           | Some doc => doc
           end in
match _load_users doc with
| inr users => inr {| _users := users; file := doc |}
| inl e => inl e
end.

End Int.

(** [_save_users] *)
Definition _save_users (self : UserDatabase) : UserDatabase :=
let data :=
  foldl (fun acc '(uid, user) => odict_set (str_of_int uid) (to_dict user) acc)
        [] (_users self) in
{| _users := _users self; file := Some data |}.

(** [get_user] *)
Definition get_user (self : UserDatabase) (uid : Z) : option UserSettings :=
odict_get (_users self) uid.

(** [add_or_update_user] *)
Definition add_or_update_user (self : UserDatabase) (user : UserSettings) : UserDatabase :=
_save_users {| _users := odict_set (user_id user) user (_users self);
               file := file self |}.

(** [set_user_language].  A settings object that is found is changed in
    place, under the key it was found at, before it is stored again under
    its own [user_id]. *)
Definition set_user_language (self : UserDatabase) (uid : Z) (lang : pystr)
    : UserDatabase :=
match get_user self uid with
| Some user =>
    let user := {| user_id := user_id user; language := lang |} in
    add_or_update_user
      {| _users := odict_set uid user (_users self); file := file self |} user
| None =>
    add_or_update_user self {| user_id := uid; language := lang |}
end.

(** [get_user_language] *)
Definition get_user_language (self : UserDatabase) (uid : Z) (default : pystr)
    : pystr :=
match get_user self uid with
| Some user => language user
| None => default
end.

(** Every settings object sits under its own identifier, once. *)
Definition consistent (users : list (Z * UserSettings)) : Prop :=
NoDup (fst <$> users) ∧ ∀ uid user, (uid, user) ∈ users → user_id user = uid.

End Database.

(** ** [bot/handlers/messages.py] and the language callback *)

Module Conversation.
Import YouTubeService World Database Localization.

(** [Message]: its text and [from_user.id]. *)
Record Message := { text : pystr; from_user_id : Z }.

(** Calls on the incoming message and on the "processing" message sent in
    reply to it. *)
Inductive reply : Type :=
| message_answer (t : World.text)
| processing_edit_text (t : World.text) (format_keyboard : option (pystr * pystr)).

(** The service's world, the user database, and the replies made so far,
    each with its fate. *)
Record chat := {
  world : World.world;
  users : UserDatabase;
  outbox : list (reply * option exn)
}.

Definition C (A : Type) : Type := chat -> (exn + A) * chat.

Definition cret {A : Type} (a : A) : C A := fun c => (inr a, c).

Definition cbind {A B : Type} (m : C A) (k : A -> C B) : C B :=
fun c => match m c with
         | (inr a, c') => k a c'
         | (inl e, c') => (inl e, c')
         end.

(** [try: body / except Exception as e: handler e] *)
Definition ctry {A : Type} (body : C A) (handler : exn -> C A) : C A :=
fun c => match body c with
         | (inr a, c') => (inr a, c')
         | (inl e, c') => handler e c'
         end.

(** A service call, run on the world inside the chat. *)
Definition lift {A : Type} (m : M A) : C A :=
fun c => let '(r, w') := m (world c) in
         (r, {| world := w'; users := users c; outbox := outbox c |}).

Definition of_result {A : Type} (r : exn + A) : C A := fun c => (r, c).

Definition get_users : C UserDatabase := fun c => (inr (users c), c).

Definition set_users (db : UserDatabase) : C unit :=
fun c => (inr tt, {| world := world c; users := db; outbox := outbox c |}).

Declare Scope chat_scope.
Delimit Scope chat_scope with chat.
Notation "x <- m ;; k" := (cbind m (fun x => k))
  (at level 20, m at level 99, k at level 200, only parsing) : chat_scope.
Notation "m ;; k" := (cbind m (fun _ => k))
  (at level 100, k at level 200, right associativity, only parsing) : chat_scope.

Section WithEnv.
Variable E : env.
Variable ru : language_module.
Variable reply_fate : list (reply * option exn) -> reply -> option exn.

(** One reply; its fate is the transport's. *)
Definition send (r : reply) : C unit :=
fun c =>
  let failure := reply_fate (outbox c) r in
  let c' := {| world := world c; users := users c;
               outbox := outbox c ++ [(r, failure)] |} in
  match failure with
  | Some e => (inl e, c')
  | None => (inr tt, c')
  end.

(** [handle_text] *)
Definition handle_text (message : Message) : C unit :=
(let user_id := from_user_id message in
 db <- get_users ;;
 let language := get_user_language db user_id (py "en") in
 let text := clean (Conversation.text message) in
 lift (log INFO (py "Received message: " ++ text)) ;;
 is_youtube <- lift (is_valid_youtube_url_logged text) ;;
 lift (log DEBUG (py "YouTube link check result: " ++ str_of_bool is_youtube)) ;;
 if is_youtube then
   send (message_answer (Localized (py "processing") language None)) ;;
   ctry
     (video_info <- lift (get_video_info E text) ;;
      send (processing_edit_text (Localized (py "select_format") language None)
              (Some (language, text))))
     (fun e =>
        lift (log ERROR (py "Error processing video: " ++ exn_str e)) ;;
        send (processing_edit_text
                (Localized (py "error") language (Some (exn_str e))) None))
 else
   ru_button <- of_result (get_button (localization ru) (py "ru") (py "ru")) ;;
   en_button <- of_result (get_button (localization ru) (py "en") (py "en")) ;;
   if str_eqb (Conversation.text message) ru_button
      || str_eqb (Conversation.text message) en_button then
     let selected_language :=
       if str_eqb (Conversation.text message) ru_button then py "ru" else py "en" in
     db <- get_users ;;
     set_users (set_user_language db user_id selected_language) ;;
     send (message_answer (Localized (py "language_selected") selected_language None))
   else cret tt)%chat.

(** [callback_language] of [bot/handlers/callbacks.py] *)
Definition callback_language (callback : Callbacks.CallbackQuery) : C unit :=
(language <- lift (Callbacks.second (split 58 (Callbacks.data callback))) ;;
 let user_id := Callbacks.from_user_id callback in
 db <- get_users ;;
 set_users (set_user_language db user_id language) ;;
 lift (tg E (edit_text (Localized (py "language_selected") language None) None)) ;;
 lift (tg E answer))%chat.

End WithEnv.

End Conversation.

(** ** Vocabulary of the further properties *)

Module Outcomes.
Import World.

(** What [is_valid_youtube_url] logs when it rejects a link. *)
Definition rejection_record : entry :=
  Log DEBUG (py "Regular expression validation result: False").

(** The records of a rejected link: none for the empty string, which is
    turned down before anything is logged. *)
Definition rejection_records (url : pystr) : list entry :=
  match url with
  | [] => []
  | _ :: _ => [rejection_record]
  end.

(** A stretch of journal made of transport calls and, at most, the
    validator's rejection record: no probe, no download, no entry into
    [cleanup_file]. *)
Definition starts_nothing (added : list entry) : Prop :=
  Forall (fun x => (∃ c failure, x = Transport c failure) ∨ x = rejection_record)
         added.

End Outcomes.

(** ** Further example data *)

Module Cases.
Import YouTubeService World.

(** An instant of the wall clock: 1700000000 seconds and [quarters]
    quarters of a second. *)
Definition clock (quarters : Z) : Float64.float :=
  Float64.scaled (4 * 1700000000 + quarters) (-2).

(** A gate that let user 7 through at instant [clock 0]. *)
Definition busy_gate : Throttling.ThrottlingMiddleware :=
  {| Throttling.default_rate := Float64.scaled 1 (-1);
     Throttling.user_last_request := {[ 7 := clock 0 ]} |}.

(** A gate with a rate of 2^53 + 4 seconds that let user 7 through at
    instant 1. *)
Definition slow_gate : Throttling.ThrottlingMiddleware :=
  {| Throttling.default_rate := Float64.of_Z (2 ^ 53 + 4);
     Throttling.user_last_request := {[ 7 := Float64.of_Z 1 ]} |}.

(** A handler registered without a [throttling_rate] flag. *)
Definition no_flag (data : unit) : option Float64.float := None.

Definition plain_handler
    (event : Throttling.TelegramObject) (data : unit) (n : nat) : unit * nat :=
  (tt, S n).

(** Four messages of user 7, a quarter of a second apart. *)
Definition burst : list (Throttling.TelegramObject * unit * Float64.float) :=
  [ (Examples.message_from 7, tt, clock 0);
    (Examples.message_from 7, tt, clock 1);
    (Examples.message_from 7, tt, clock 2);
    (Examples.message_from 7, tt, clock 3) ].

(** [int] on plain decimal literals with an optional minus sign. *)
Fixpoint digits (acc : Z) (s : pystr) : option Z :=
  match s with
  | [] => Some acc
  | c :: s' =>
      if (48 <=? c)%N && (c <=? 57)%N
      then digits (acc * 10 + Z.of_N (c - 48)) s'
      else None
  end.

Definition int (s : pystr) : option Z :=
  match s with
  | [] => None
  | c :: s' =>
      if (c =? 45)%N
      then match s' with
           | [] => None
           | _ :: _ => Z.opp <$> digits 0 s'
           end
      else digits 0 s
  end.

(** [str.format] on a text whose replacement fields are plain [{name}]:
    every field is replaced by the keyword argument of that name, and a
    field without one raises [KeyError]. *)
Definition format_fields (text : pystr) (kwargs : list (pystr * pystr))
    : Localization.format_outcome :=
  match split 123 text with
  | [] => Localization.Formatted []
  | head :: fields =>
      match mapM (fun field =>
                    match split 125 field with
                    | name :: rest =>
                        (fun v => v ++ join (py "}") rest) <$> dict_get kwargs name
                    | [] => None
                    end) fields with
      | Some parts => Localization.Formatted (head ++ concat parts)
      | None => Localization.KeyError
      end
  end.

Definition two_users : Database.UserDatabase :=
  {| Database._users :=
       [ (7, {| Database.user_id := 7; Database.language := py "en" |});
         (8, {| Database.user_id := 8; Database.language := py "ru" |}) ];
     Database.file := None |}.

Definition quiet_replies
    : list (Conversation.reply * option exn) -> Conversation.reply -> option exn :=
  fun _ _ => None.

Definition idle_chat : Conversation.chat :=
  {| Conversation.world := Examples.empty_world;
     Conversation.users := two_users;
     Conversation.outbox := [] |}.

Definition greeting : Conversation.Message :=
  {| Conversation.text := py "hello"; Conversation.from_user_id := 7 |}.

Definition link_sent : Conversation.Message :=
  {| Conversation.text := Examples.link; Conversation.from_user_id := 8 |}.

Definition russian_pressed : Callbacks.CallbackQuery :=
  {| Callbacks.data := py "language:ru";
     Callbacks.from_user_id := 7; Callbacks.reply_to_text := None |}.

Definition stray_quality : Callbacks.CallbackQuery :=
  {| Callbacks.data := py "quality:720p:https://example.org/clip";
     Callbacks.from_user_id := 7; Callbacks.reply_to_text := None |}.

Definition stray_format : Callbacks.CallbackQuery :=
  {| Callbacks.data := py "format:audio";
     Callbacks.from_user_id := 7;
     Callbacks.reply_to_text := Some (py "see https://example.org/clip") |}.

Definition two_files : world :=
  {| files := [py "downloads/a.mp3"; py "downloads/b.mp3"];
     journal := []; fresh := 1 |}.

End Cases.

(** * Properties *)

Import YouTubeService Spec.

(** ** Sorting helpers *)

Section Sorting.
Context {A : Type} (key : A -> Z).

Lemma insert_by_perm (x : A) (l : list A) : insert_by key x l ≡ₚ x :: l.
Proof.
  induction l as [|y l IH]; simpl; [done|].
  destruct (key x <=? key y); [done|].
  rewrite IH. apply Permutation_swap.
Qed.

Lemma sorted_by_perm (l : list A) : sorted_by key l ≡ₚ l.
Proof.
  induction l as [|x l IH]; simpl; [done|].
  by rewrite insert_by_perm, IH.
Qed.

Lemma elem_of_sorted_by (x : A) (l : list A) : x ∈ sorted_by key l ↔ x ∈ l.
Proof. by rewrite sorted_by_perm. Qed.

(** Sorting a list that is already in order leaves it alone. *)
Lemma sorted_by_sorted (l : list A) :
  StronglySorted (key_le key) l → sorted_by key l = l.
Proof.
  induction 1 as [|x l Hs IH Hall]; simpl; [done|].
  rewrite IH. destruct l as [|y l]; simpl; [done|].
  apply Forall_cons in Hall as [Hxy _]. unfold key_le in Hxy.
  by destruct (Z.leb_spec (key x) (key y)); [|lia].
Qed.

Lemma StronglySorted_sublist_of (l k : list A) :
  l `sublist_of` k → StronglySorted (key_le key) k → StronglySorted (key_le key) l.
Proof.
  induction 1 as [|x l k Hsub IH|x l k Hsub IH]; intros Hk; [done|..].
  - apply StronglySorted_cons in Hk as [Hall Hk].
    apply StronglySorted_cons. split; [|by apply IH].
    rewrite Forall_forall in Hall |- *. intros y Hy.
    apply Hall. by eapply elem_of_sublist.
  - apply StronglySorted_cons in Hk as [_ Hk]. by apply IH.
Qed.
End Sorting.

Lemma filter_sublist_of {A : Type} (f : A -> bool) (l : list A) :
  List.filter f l `sublist_of` l.
Proof.
  induction l as [|x l IH]; simpl; [constructor|].
  destruct (f x); by constructor.
Qed.

Lemma elem_of_filter_bool {A : Type} (f : A -> bool) (l : list A) (x : A) :
  x ∈ List.filter f l ↔ x ∈ l ∧ f x = true.
Proof. rewrite !list_elem_of_In. apply filter_In. Qed.

Lemma existsb_elem_of {A : Type} (f : A -> bool) (l : list A) :
  existsb f l = true ↔ ∃ x, x ∈ l ∧ f x = true.
Proof.
  rewrite existsb_exists. split; intros (x & ? & ?); exists x;
    by rewrite ?list_elem_of_In in *.
Qed.

(** ** Format resolver *)

Lemma close_to_spec (a h : Z) :
  close_to a h = true ↔
  (inject_Z (Z.abs (a - h)) <= Qmax (inject_Z h * (1 # 10)) (inject_Z 50))%Q.
Proof. unfold close_to. apply Qle_bool_iff. Qed.

Lemma RESOLUTIONS_sorted : sorted_by snd RESOLUTIONS = RESOLUTIONS.
Proof. reflexivity. Qed.

Lemma LABELS_sorted : StronglySorted (key_le resolution_of) LABELS.
Proof.
  unfold LABELS, RESOLUTIONS. simpl.
  repeat match goal with
         | |- StronglySorted _ _ => constructor
         | |- Forall _ _ => constructor
         end; unfold key_le; vm_compute; discriminate.
Qed.

Lemma sorted_labels (f : pystr * Z -> bool) :
  sorted_by resolution_of (fst <$> List.filter f RESOLUTIONS)
  = fst <$> List.filter f RESOLUTIONS.
Proof.
  apply sorted_by_sorted.
  eapply StronglySorted_sublist_of; [|apply LABELS_sorted].
  unfold LABELS. apply fmap_sublist, filter_sublist_of.
Qed.

Lemma matching_formats_spec (heights : gset Z) (name : pystr) :
  name ∈ matching_formats heights ↔
  ∃ h, (name, h) ∈ RESOLUTIONS ∧ within_tolerance heights h.
Proof.
  unfold matching_formats. rewrite RESOLUTIONS_sorted, list_elem_of_fmap. split.
  - intros ([n h] & -> & Hin). apply elem_of_filter_bool in Hin as [Hin Hex].
    exists h. split; [done|].
    apply existsb_elem_of in Hex as (a & Ha & Hc).
    rewrite elem_of_sorted_by, elem_of_elements in Ha.
    exists a. split; [done|]. by apply close_to_spec.
  - intros (h & Hin & a & Ha & Hc). exists (name, h). split; [done|].
    apply elem_of_filter_bool. split; [done|].
    apply existsb_elem_of. exists a.
    rewrite elem_of_sorted_by, elem_of_elements. split; [done|].
    by apply close_to_spec.
Qed.

Lemma foldl_max_spec (l : list Z) (x : Z) :
  (foldl Z.max x l = x ∨ foldl Z.max x l ∈ l)
  ∧ x ≤ foldl Z.max x l
  ∧ ∀ a, a ∈ l → a ≤ foldl Z.max x l.
Proof.
  revert x. induction l as [|y l IH]; intros x; simpl.
  - split; [by left|]. split; [lia|]. intros a Ha. by apply elem_of_nil in Ha.
  - destruct (IH (Z.max x y)) as (Hm & Hle & Hall). split; [|split].
    + destruct Hm as [Hm|Hm].
      * rewrite Hm. destruct (Z.max_spec x y) as [[_ ->]|[_ ->]];
          [right; apply list_elem_of_here | by left].
      * right. by apply list_elem_of_further.
    + lia.
    + intros a Ha. apply elem_of_cons in Ha as [->|Ha]; [lia|by apply Hall].
Qed.

Lemma py_max_elements (heights : gset Z) (m : Z) :
  py_max (elements heights) = Some m →
  m ∈ heights ∧ ∀ a, a ∈ heights → a ≤ m.
Proof.
  unfold py_max. destruct (elements heights) as [|x l] eqn:Hel; [done|].
  intros [= <-]. destruct (foldl_max_spec l x) as (Hm & Hle & Hall).
  split.
  - apply elem_of_elements. rewrite Hel.
    destruct Hm as [->|Hm]; [apply list_elem_of_here|by apply list_elem_of_further].
  - intros a Ha. apply elem_of_elements in Ha. rewrite Hel in Ha.
    apply elem_of_cons in Ha as [->|Ha]; [done|by apply Hall].
Qed.

Lemma py_max_none (heights : gset Z) :
  py_max (elements heights) = None → heights = ∅.
Proof.
  unfold py_max. destruct (elements heights) eqn:Hel; [|done].
  intros _. by apply leibniz_equiv, elements_empty_inv.
Qed.

(** What the fallback of lines 151-155 offers. *)
Lemma fallback_spec (heights : gset Z) (name : pystr) :
  name ∈ fst <$> List.filter
      (fun '(_, height) => height <=? default 720 (py_max (elements heights)))
      RESOLUTIONS ↔
  ∃ h, (name, h) ∈ RESOLUTIONS ∧ within_ceiling heights h.
Proof.
  rewrite list_elem_of_fmap. split.
  - intros ([n h] & -> & Hin). apply elem_of_filter_bool in Hin as [Hin Hle].
    exists h. split; [done|]. apply Z.leb_le in Hle.
    destruct (py_max (elements heights)) as [m|] eqn:Hmax; simpl in Hle.
    + right. exists m. apply py_max_elements in Hmax as [? ?]. done.
    + left. split; [by apply py_max_none|done].
  - intros (h & Hin & Hc). exists (name, h). split; [done|].
    apply elem_of_filter_bool. split; [done|]. apply Z.leb_le.
    destruct Hc as [[-> Hle]|(m & Hm & Hall & Hle)].
    + by rewrite elements_empty.
    + destruct (py_max (elements heights)) as [m'|] eqn:Hmax; simpl.
      * apply py_max_elements in Hmax as [Hm' Hall']. specialize (Hall' m Hm). lia.
      * apply py_max_none in Hmax. subst. by apply not_elem_of_empty in Hm.
Qed.

Lemma available_qualities_empty_list :
  matching_formats ∅ = []
  ∧ available_qualities ∅
    = [py "144p"; py "240p"; py "360p"; py "480p"; py "720p"].
Proof. split; vm_compute; reflexivity. Qed.

(** C1. With no stream height available the resolver assumes a maximum of
    720 and offers exactly the labels whose height is at most 720, in
    ascending order: 144p, 240p, 360p, 480p, 720p. *)
Theorem available_qualities_empty :
  available_qualities ∅
  = fst <$> List.filter (fun '(_, h) => h <=? 720) (sorted_by snd RESOLUTIONS)
  ∧ available_qualities ∅
    = [py "144p"; py "240p"; py "360p"; py "480p"; py "720p"].
Proof. split; vm_compute; reflexivity. Qed.

(** C4, as stated, fails when nothing is available: 144p is offered although
    no available height lies within its tolerance window. *)
Lemma available_qualities_not_only_matches :
  py "144p" ∈ available_qualities ∅
  ∧ (py "144p", 144) ∈ RESOLUTIONS
  ∧ ¬ within_tolerance ∅ 144.
Proof.
  split; [|split].
  - replace (available_qualities ∅)
      with [py "144p"; py "240p"; py "360p"; py "480p"; py "720p"]
      by (vm_compute; reflexivity).
    apply list_elem_of_here.
  - apply list_elem_of_here.
  - intros (a & Ha & _). by apply not_elem_of_empty in Ha.
Qed.

(** C4, amended. A label is offered exactly when some available height lies
    within [max(height * 0.1, 50)] of its height or, if no label at all has
    such a height, when its height does not exceed the largest available one
    (720 when none is available); the labels come in ascending order, and
    heights 360, 480, 720 give exactly 360p, 480p, 720p. *)
Theorem available_qualities_spec (heights : gset Z) :
  (∀ name, name ∈ available_qualities heights ↔
     ∃ h, (name, h) ∈ RESOLUTIONS ∧
          (within_tolerance heights h
           ∨ ((∀ n' h', (n', h') ∈ RESOLUTIONS → ¬ within_tolerance heights h')
              ∧ within_ceiling heights h)))
  ∧ available_qualities heights `sublist_of` LABELS
  ∧ available_qualities {[ 360; 480; 720 ]} = [py "360p"; py "480p"; py "720p"].
Proof.
  split; [|split]; [| |vm_compute; reflexivity].
  - intros name. unfold available_qualities.
    destruct (matching_formats heights) as [|n0 l0] eqn:Hm.
    + rewrite sorted_labels, fallback_spec.
      assert (Hnone : ∀ n' h', (n', h') ∈ RESOLUTIONS → ¬ within_tolerance heights h').
      { intros n' h' Hin Hw.
        assert (Hn' : n' ∈ matching_formats heights)
          by (apply matching_formats_spec; eauto).
        rewrite Hm in Hn'. by apply elem_of_nil in Hn'. }
      split.
      * intros (h & Hin & Hc). exists h. split; [done|]. by right.
      * intros (h & Hin & [Hw|[_ Hc]]); [by destruct (Hnone _ _ Hin)|eauto].
    + rewrite <- Hm. unfold matching_formats at 1.
      rewrite RESOLUTIONS_sorted, sorted_labels.
      change (name ∈ matching_formats heights ↔
              ∃ h, (name, h) ∈ RESOLUTIONS ∧
                   (within_tolerance heights h
                    ∨ ((∀ n' h', (n', h') ∈ RESOLUTIONS → ¬ within_tolerance heights h')
                       ∧ within_ceiling heights h))).
      rewrite matching_formats_spec. split.
      * intros (h & Hin & Hw). exists h. split; [done|]. by left.
      * intros (h & Hin & [Hw|[Hnone _]]); [eauto|].
        assert (Hn0 : n0 ∈ matching_formats heights)
          by (rewrite Hm; apply list_elem_of_here).
        apply matching_formats_spec in Hn0 as (h0 & Hin0 & Hw0).
        by destruct (Hnone _ _ Hin0).
  - unfold available_qualities.
    destruct (matching_formats heights) as [|n0 l0] eqn:Hm.
    + rewrite sorted_labels. unfold LABELS. apply fmap_sublist, filter_sublist_of.
    + rewrite <- Hm. unfold matching_formats.
      rewrite RESOLUTIONS_sorted, sorted_labels.
      unfold LABELS. apply fmap_sublist, filter_sublist_of.
Qed.

(** ** Download specs *)

Lemma dict_get_None {V : Type} (d : list (pystr * V)) (k : pystr) :
  k ∉ fst <$> d → dict_get d k = None.
Proof.
  induction d as [|[k' v] d IH]; simpl; [done|].
  intros Hk. apply not_elem_of_cons in Hk as [Hne Hk].
  unfold str_eqb. rewrite bool_decide_eq_false_2 by congruence. by apply IH.
Qed.

(** ** Link validator *)

Lemma startswith_spec (s p : pystr) :
  startswith s p = true ↔ ∃ b, s = p ++ b.
Proof.
  revert s. induction p as [|c p IH]; intros s; simpl.
  - split; [intros _; by exists s|done].
  - destruct s as [|d s].
    + split; [done|]. intros [b Hb]. simpl in Hb. discriminate Hb.
    + rewrite andb_true_iff, N.eqb_eq, IH. split.
      * intros [-> [b ->]]. by exists b.
      * intros [b [= -> ->]]. eauto.
Qed.

Lemma contains_spec (sub s : pystr) :
  contains sub s = true ↔ ∃ a b, s = a ++ sub ++ b.
Proof.
  induction s as [|c s IH]; simpl.
  - rewrite orb_false_r, startswith_spec. split.
    + intros [b Hb]. by exists [], b.
    + intros (a & b & Hab). symmetry in Hab.
      apply app_eq_nil in Hab as [-> Hab]. exists b. by rewrite Hab.
  - rewrite orb_true_iff, startswith_spec, IH. split.
    + intros [[b Hb]|(a & b & ->)]; [by exists [], b|by exists (c :: a), b].
    + intros ([|x a] & b & Hab); simpl in Hab.
      * left. eauto.
      * right. injection Hab as -> ->. eauto.
Qed.

Lemma lstrip_with_suffix (p : N -> bool) (s : pystr) :
  ∃ pre, s = pre ++ lstrip_with p s.
Proof.
  induction s as [|c s [pre IH]]; simpl; [by exists []|].
  destruct (p c); [|by exists []].
  exists (c :: pre). simpl. by rewrite <- IH.
Qed.

(** Stripping a prefix of [p]-characters cannot cut into a substring that
    starts with a character outside [p]. *)
Lemma lstrip_with_keeps (p : N -> bool) (c : N) (sub a b : pystr) :
  p c = false →
  ∃ a', lstrip_with p (a ++ (c :: sub) ++ b) = a' ++ (c :: sub) ++ b.
Proof.
  intros Hc. induction a as [|x a [a' IH]]; simpl.
  - rewrite Hc. by exists [].
  - destruct (p x); [by exists a'|by exists (x :: a)].
Qed.

Lemma clean_infix (url : pystr) : ∃ a b, url = a ++ World.clean url ++ b.
Proof.
  unfold World.clean, sub_leading_at_space, strip.
  destruct (lstrip_with_suffix is_space url) as [p1 H1].
  destruct (lstrip_with_suffix is_space (rev (lstrip_with is_space url))) as [p2 H2].
  destruct (lstrip_with_suffix (fun c => (c =? 64)%N || is_space c)
              (rev (lstrip_with is_space (rev (lstrip_with is_space url)))))
    as [p3 H3].
  exists (p1 ++ p3), (rev p2).
  rewrite <- app_assoc, (app_assoc p3), <- H3.
  rewrite <- rev_app_distr, <- H2, rev_involutive. done.
Qed.

(** A string without white space or at-signs that occurs in [url] still
    occurs in the cleaned URL, and conversely. *)
Lemma contains_clean (sub url : pystr) :
  sub ≠ [] →
  Forall (fun c => is_space c = false ∧ c ≠ 64%N) sub →
  contains sub (World.clean url) = contains sub url.
Proof.
  intros Hne Hall. apply eq_true_iff_eq. rewrite !contains_spec. split.
  - intros (a & b & Hab). destruct (clean_infix url) as (a0 & b0 & H0).
    exists (a0 ++ a), (b ++ b0). rewrite H0, Hab. by rewrite <- !app_assoc.
  - intros (a & b & ->).
    destruct sub as [|c sub]; [done|].
    assert (Hrev : ∃ d sub', rev (c :: sub) = d :: sub' ∧ is_space d = false) .
    { destruct (rev (c :: sub)) as [|d sub'] eqn:Hr.
      - apply (f_equal (@rev N)) in Hr. by rewrite rev_involutive in Hr.
      - exists d, sub'. split; [done|].
        assert (Hd : d ∈ c :: sub).
        { rewrite list_elem_of_In, (in_rev (c :: sub)), Hr. by left. }
        rewrite Forall_forall in Hall. by apply Hall in Hd as [? _]. }
    destruct Hrev as (d & sub' & Hr & Hd).
    apply Forall_cons in Hall as [[Hc1 Hc2] _].
    unfold World.clean, sub_leading_at_space, strip.
    destruct (lstrip_with_keeps is_space c sub a b Hc1) as [a1 ->].
    rewrite !rev_app_distr, Hr, <- app_assoc.
    destruct (lstrip_with_keeps is_space d sub' (rev b) (rev a1) Hd) as [b1 ->].
    rewrite !rev_app_distr, rev_involutive, <- Hr, rev_involutive, <- app_assoc.
    assert (Hc3 : (c =? 64)%N || is_space c = false).
    { rewrite Hc1, orb_false_r. by apply N.eqb_neq. }
    destruct (lstrip_with_keeps (fun c => (c =? 64)%N || is_space c) c sub a1 (rev b1) Hc3) as [a2 ->].
    eauto.
Qed.

Import Re.

Lemma plus_cls_suffix (p : N -> bool) (s t : pystr) :
  In t (plus_cls p s) → ∃ a, s = a ++ t.
Proof.
  revert t. induction s as [|c s IH]; intros t; simpl; [done|].
  destruct (p c); [|done]. intros Ht. apply in_app_or in Ht as [Ht|[<-|[]]].
  - destruct (IH _ Ht) as [a ->]. by exists (c :: a).
  - by exists [c].
Qed.

(** Whatever remains after a match is a suffix of the subject. *)
Lemma match_re_suffix (r : re) (s t : pystr) :
  In t (match_re r s) → ∃ a, s = a ++ t.
Proof.
  revert s t. induction r as [l|p|r1 IH1 r2 IH2|r1 IH1 r2 IH2|r IH|n r IH|p];
    intros s t; simpl.
  - destruct (startswith s l); [|done]. intros [<-|[]].
    exists (take (length l) s). by rewrite take_drop.
  - destruct s as [|c s]; [done|]. destruct (p c); [|done].
    intros [<-|[]]. by exists [c].
  - intros Ht. apply in_flat_map in Ht as (u & Hu & Ht).
    destruct (IH1 _ _ Hu) as [a ->]. destruct (IH2 _ _ Ht) as [b ->].
    exists (a ++ b). by rewrite app_assoc.
  - intros Ht. apply in_app_or in Ht as [Ht|Ht]; eauto.
  - intros Ht. apply in_app_or in Ht as [Ht|[<-|[]]]; [eauto|by exists []].
  - revert s t. induction n as [|n IHn]; intros s t.
    + intros [<-|[]]. by exists [].
    + intros Ht. apply in_flat_map in Ht as (u & Hu & Ht).
      destruct (IH _ _ Hu) as [a ->]. destruct (IHn _ _ Ht) as [b ->].
      exists (a ++ b). by rewrite app_assoc.
  - apply plus_cls_suffix.
Qed.

Lemma search_spec (r : re) (s : pystr) :
  search r s = true → ∃ a t, s = a ++ t ∧ match_re r t ≠ [].
Proof.
  induction s as [|c s IH]; simpl.
  - destruct (match_re r []) eqn:Hm; [done|]. intros _. exists [], [].
    split; [done|]. by rewrite Hm.
  - destruct (match_re r (c :: s)) eqn:Hm.
    + intros Hs. destruct (IH Hs) as (a & t & -> & Ht). by exists (c :: a), t.
    + intros _. exists [], (c :: s). split; [done|]. by rewrite Hm.
Qed.

Lemma match_seq_nonempty (r1 r2 : re) (s : pystr) :
  match_re (Seq r1 r2) s ≠ [] →
  ∃ t, In t (match_re r1 s) ∧ match_re r2 t ≠ [].
Proof.
  simpl. induction (match_re r1 s) as [|t l IH]; simpl; [done|].
  destruct (match_re r2 t) eqn:Ht.
  - intros Hl. destruct (IH Hl) as (u & Hu & Hne). eauto.
  - intros _. exists t. split; [by left|]. by rewrite Ht.
Qed.

Lemma match_lit_nonempty (l s : pystr) :
  match_re (Lit l) s ≠ [] → ∃ b, s = l ++ b.
Proof.
  simpl. destruct (startswith s l) eqn:Hs; [|done].
  intros _. by apply startswith_spec.
Qed.

(** The pattern spells out a host: it cannot match a string that contains
    neither [youtube.com] nor [youtu.be]. *)
Lemma pattern_needs_host (s : pystr) :
  search YOUTUBE_URL_PATTERN s = true →
  contains (py "youtube.com") s || contains (py "youtu.be") s = true.
Proof.
  intros Hs. apply search_spec in Hs as (a0 & t & -> & Hm).
  unfold YOUTUBE_URL_PATTERN in Hm.
  apply match_seq_nonempty in Hm as (t1 & Ht1 & Hm).
  apply match_re_suffix in Ht1 as [a1 ->].
  apply match_seq_nonempty in Hm as (t2 & Ht2 & Hm).
  apply match_re_suffix in Ht2 as [a2 ->].
  apply match_seq_nonempty in Hm as (t3 & Ht3 & _).
  change (In t3 (match_re (Seq (Lit (py "youtube.com/"))
                             (Alt (Lit (py "watch?v="))
                                (Alt (Lit (py "embed/")) (Lit (py "v/"))))) t2
                 ++ match_re (Lit (py "youtu.be/")) t2)) in Ht3.
  apply orb_true_iff. apply in_app_or in Ht3 as [Ht3|Ht3].
  - left. apply contains_spec.
    assert (Hne : match_re (Seq (Lit (py "youtube.com/"))
                     (Alt (Lit (py "watch?v="))
                        (Alt (Lit (py "embed/")) (Lit (py "v/"))))) t2 ≠ [])
      by (intros Hnil; by rewrite Hnil in Ht3).
    apply match_seq_nonempty in Hne as (u & Hu & _).
    assert (Hl : match_re (Lit (py "youtube.com/")) t2 ≠ [])
      by (intros Hnil; by rewrite Hnil in Hu).
    apply match_lit_nonempty in Hl as [b ->].
    exists (a0 ++ a1 ++ a2), (py "/" ++ b).
    change (py "youtube.com/") with (py "youtube.com" ++ py "/").
    by rewrite <- !app_assoc.
  - right. apply contains_spec.
    assert (Hl : match_re (Lit (py "youtu.be/")) t2 ≠ [])
      by (intros Hnil; by rewrite Hnil in Ht3).
    apply match_lit_nonempty in Hl as [b ->].
    exists (a0 ++ a1 ++ a2), (py "/" ++ b).
    change (py "youtu.be/") with (py "youtu.be" ++ py "/").
    by rewrite <- !app_assoc.
Qed.

Lemma host_chars_plain :
  Forall (fun c => is_space c = false ∧ c ≠ 64%N) (py "youtube.com")
  ∧ Forall (fun c => is_space c = false ∧ c ≠ 64%N) (py "youtu.be").
Proof. split; repeat constructor; discriminate. Qed.

(** The validator is exactly the test for a host substring. *)
Lemma is_valid_youtube_url_host (url : pystr) :
  is_valid_youtube_url url
  = contains (py "youtube.com") url || contains (py "youtu.be") url.
Proof.
  destruct host_chars_plain as [H1 H2].
  unfold is_valid_youtube_url. destruct url as [|c url]; [reflexivity|].
  set (u := c :: url).
  change (sub_leading_at_space (strip u)) with (World.clean u).
  rewrite <- (contains_clean (py "youtube.com") u), <- (contains_clean (py "youtu.be") u);
    [|done|done|done|done].
  destruct (contains (py "youtube.com") (World.clean u)
            || contains (py "youtu.be") (World.clean u)) eqn:Hh; [done|].
  destruct (search YOUTUBE_URL_PATTERN (World.clean u)) eqn:Hs; [|done].
  apply pattern_needs_host in Hs. congruence.
Qed.

(** C5. The validator returns a boolean on every string; it returns [true]
    on every string containing [youtube.com] or [youtu.be], and [false] on
    every string that contains neither and does not match the path
    pattern. *)
Theorem is_valid_youtube_url_spec (url : pystr) :
  (is_valid_youtube_url url = true ∨ is_valid_youtube_url url = false)
  ∧ (contains (py "youtube.com") url = true ∨ contains (py "youtu.be") url = true →
     is_valid_youtube_url url = true)
  ∧ (contains (py "youtube.com") url = false →
     contains (py "youtu.be") url = false →
     search YOUTUBE_URL_PATTERN url = false →
     is_valid_youtube_url url = false).
Proof.
  rewrite is_valid_youtube_url_host. split; [|split].
  - destruct (contains (py "youtube.com") url || contains (py "youtu.be") url); auto.
  - intros [->| ->]; [done|by rewrite orb_true_r].
  - by intros -> -> _.
Qed.

Lemma is_valid_youtube_url_spec_witness :
  is_valid_youtube_url (py "  @https://youtu.be/dQw4w9WgXcQ ") = true
  ∧ is_valid_youtube_url (py "https://vimeo.com/76979871") = false.
Proof.
  split.
  - apply (is_valid_youtube_url_spec (py "  @https://youtu.be/dQw4w9WgXcQ ")).
    right. reflexivity.
  - apply (is_valid_youtube_url_spec (py "https://vimeo.com/76979871"));
      reflexivity.
Defined.

Lemma lstrip_with_head (p : N -> bool) (s : pystr) :
  lstrip_with p s = [] ∨ ∃ c t, lstrip_with p s = c :: t ∧ p c = false.
Proof.
  induction s as [|c s IH]; simpl; [by left|].
  destruct (p c) eqn:Hc; [done|]. right. eauto.
Qed.

Lemma lstrip_with_id (p : N -> bool) (s : pystr) :
  (s = [] ∨ ∃ c t, s = c :: t ∧ p c = false) → lstrip_with p s = s.
Proof. intros [->|(c & t & -> & Hc)]; simpl; [done|by rewrite Hc]. Qed.

(** Cleaning an already cleaned URL changes nothing. *)
Lemma clean_idempotent (url : pystr) : World.clean (World.clean url) = World.clean url.
Proof.
  set (t := World.clean url).
  assert (Ht : t = [] ∨ ∃ c r, t = c :: r ∧ (c =? 64)%N || is_space c = false)
    by apply lstrip_with_head.
  assert (Hrev : rev t = [] ∨ ∃ d r, rev t = d :: r ∧ is_space d = false).
  { destruct (rev t) as [|d r] eqn:Hr; [by left|]. right. exists d, r.
    split; [done|].
    destruct (lstrip_with_suffix (fun c => (c =? 64)%N || is_space c) (strip url))
      as [pre Hpre].
    fold (sub_leading_at_space (strip url)) in Hpre. fold (World.clean url) in Hpre.
    fold t in Hpre. unfold strip in Hpre.
    apply (f_equal (@rev N)) in Hpre.
    rewrite rev_involutive, rev_app_distr, Hr in Hpre.
    destruct (lstrip_with_head is_space (rev (lstrip_with is_space url)))
      as [Hnil|(c & u & Hcu & Hc)]; [by rewrite Hnil in Hpre|].
    rewrite Hcu in Hpre. simpl in Hpre. congruence. }
  unfold World.clean at 1. unfold strip.
  rewrite (lstrip_with_id is_space t).
  - rewrite (lstrip_with_id is_space (rev t)) by done.
    rewrite rev_involutive. by apply lstrip_with_id.
  - destruct Ht as [->|(c & r & -> & Hc)]; [by left|]. right. exists c, r.
    split; [done|]. by apply orb_false_iff in Hc as [_ ?].
Qed.

(** ** Probing and downloading *)

Import World.

(** C6. [get_available_formats] never raises, and whenever the probe fails
    it returns the fixed list 144p, 240p, 360p, 480p, 720p, 1080p. *)
Theorem get_available_formats_degrades (E : env) (url : pystr) (w : world) :
  (∃ l w', get_available_formats E url w = (inr l, w') ∧ files w' = files w)
  ∧ (∀ e, extract_info E (clean url) info_opts = inl e →
          (get_available_formats E url w).1
          = inr [py "144p"; py "240p"; py "360p"; py "480p"; py "720p"; py "1080p"]).
Proof.
  split.
  - run. rewrite clean_idempotent. destruct (extract_info E (clean url) info_opts); simpl; eauto.
  - intros e He. run. by rewrite clean_idempotent, He.
Qed.

(** A probe that succeeds without any usable video height ends in the
    720-capped fallback, not in the list of the failure path. *)
Lemma get_available_formats_no_heights (E : env) (url : pystr) (w : world) (i : info) :
  extract_info E (clean url) info_opts = inr i →
  available_heights (formats i) = ∅ →
  (get_available_formats E url w).1
  = inr [py "144p"; py "240p"; py "360p"; py "480p"; py "720p"].
Proof.
  intros Hi Hh. run. rewrite clean_idempotent, Hi. simpl. rewrite Hh.
  by rewrite (proj2 available_qualities_empty_list).
Qed.

Lemma get_available_formats_degrades_witness :
  (get_available_formats Examples.unreachable Examples.link Examples.empty_world).1
  = inr [py "144p"; py "240p"; py "360p"; py "480p"; py "720p"; py "1080p"].
Proof.
  apply (get_available_formats_degrades Examples.unreachable Examples.link
           Examples.empty_world)
    with (e := OtherError (py "Video unavailable")).
  reflexivity.
Defined.

Import Callbacks Examples.

(** C2, as stated, fails: when the extractor raises and when it leaves no
    matching file, the download functions do not fail at all; they return
    normally, and with the very same value. *)
Lemma download_failures_look_alike :
  (ydl_download (make_env breaks quiet_transport) link [] []).1
    = Some (OtherError (py "HTTP Error 403: Forbidden"))
  ∧ (ydl_download (make_env writes_nothing quiet_transport) link [] []).1 = None
  ∧ (download_video (make_env breaks quiet_transport) link (py "720p") empty_world).1
    = inr (None, None)
  ∧ (download_video (make_env writes_nothing quiet_transport) link (py "720p") empty_world).1
    = inr (None, None)
  ∧ (download_audio (make_env breaks quiet_transport) link empty_world).1
    = inr (None, None)
  ∧ (download_audio (make_env writes_nothing quiet_transport) link empty_world).1
    = inr (None, None).
Proof. repeat split; vm_compute; reflexivity. Qed.

(** C2, amended. [download_video] and [download_audio] never raise.  When
    the probe or the extractor's download raises, and also when no file
    with the fresh identifier and the expected extension is found, they
    return the pair [(None, None)], the same in both cases; the caller then
    edits the status message into the localized error text "Failed to
    download video" (or "audio") and cleans nothing up. *)
Theorem download_failure_returns_none
    (E : env) (url quality language : pystr) (w : world) :
  (∃ r w', download_video E url quality w = (inr r, w'))
  ∧ (∃ r w', download_audio E url w = (inr r, w'))
  ∧ (∀ e, extract_info E (clean url) info_opts = inl e
          ∨ (video_request E url quality w).1 = Some e →
          (download_video E url quality w).1 = inr (None, None))
  ∧ (find_downloaded E (uuid4 E (fresh w)) (py ".mp4")
       (dir_names (download_dir E) (video_request E url quality w).2) = None →
     (download_video E url quality w).1 = inr (None, None))
  ∧ (∀ e, extract_info E (clean url) info_opts = inl e
          ∨ (audio_request E url w).1 = Some e →
          (download_audio E url w).1 = inr (None, None))
  ∧ (find_downloaded E (uuid4 E (fresh w)) (py ".mp3")
       (dir_names (download_dir E) (audio_request E url w).2) = None →
     (download_audio E url w).1 = inr (None, None))
  ∧ deliver_video E language None None
    = tg E (edit_text (error_message language (py "Failed to download video")) None)
  ∧ deliver_audio E language None None
    = tg E (edit_text (error_message language (py "Failed to download audio")) None)
  ∧ cleanups (journal
       (tg E (edit_text (error_message language (py "Failed to download video")) None) w).2)
    = cleanups (journal w).
Proof.
  repeat apply conj.
  - run. rewrite clean_idempotent.
    destruct (extract_info E (clean url) info_opts); simpl; eauto.
    destruct (ydl_download E _ _ _) as [[e|] fs]; simpl; eauto.
    destruct (find_downloaded E _ _ _); simpl; eauto.
    destruct (rename_error E _ _); simpl; eauto.
  - run. rewrite clean_idempotent.
    destruct (extract_info E (clean url) info_opts); simpl; eauto.
    destruct (ydl_download E _ _ _) as [[e|] fs]; simpl; eauto.
    destruct (find_downloaded E _ _ _); simpl; eauto.
    destruct (rename_error E _ _); simpl; eauto.
  - intros e He. unfold video_request in He. run. rewrite clean_idempotent.
    destruct (extract_info E (clean url) info_opts); simpl; [done|].
    destruct He as [He|He]; [done|].
    destruct (ydl_download E _ _ _) as [[e'|] fs]; simpl; [done|done].
  - unfold video_request. intros Hf. run. rewrite clean_idempotent.
    destruct (extract_info E (clean url) info_opts); simpl; [done|].
    destruct (ydl_download E _ _ _) as [[e'|] fs]; simpl; [done|].
    simpl in Hf. by rewrite Hf.
  - intros e He. unfold audio_request in He. run. rewrite clean_idempotent.
    destruct (extract_info E (clean url) info_opts); simpl; [done|].
    destruct He as [He|He]; [done|].
    destruct (ydl_download E _ _ _) as [[e'|] fs]; simpl; [done|done].
  - unfold audio_request. intros Hf. run. rewrite clean_idempotent.
    destruct (extract_info E (clean url) info_opts); simpl; [done|].
    destruct (ydl_download E _ _ _) as [[e'|] fs]; simpl; [done|].
    simpl in Hf. by rewrite Hf.
  - reflexivity.
  - reflexivity.
  - run. unfold cleanups.
    destruct (transport_fate E _ _); simpl; by rewrite omap_app, app_nil_r.
Qed.

(** Both handlers, run against a failing download: they return normally,
    the last message edit is the localized error, nothing is cleaned up. *)
Lemma failed_download_is_reported :
  let audio := callback_format (make_env breaks quiet_transport)
                 audio_pressed empty_world in
  let video := callback_quality (make_env writes_nothing quiet_transport)
                 quality_pressed empty_world in
  audio.1 = inr tt
  ∧ Transport (edit_text (error_message (py "en") (py "Failed to download audio")) None)
      None ∈ journal audio.2
  ∧ cleanups (journal audio.2) = []
  ∧ video.1 = inr tt
  ∧ Transport (edit_text (error_message (py "en") (py "Failed to download video")) None)
      None ∈ journal video.2
  ∧ cleanups (journal video.2) = [].
Proof.
  repeat split; try (vm_compute; reflexivity).
  - vm_compute. repeat first [apply list_elem_of_here | apply list_elem_of_further].
  - vm_compute. repeat first [apply list_elem_of_here | apply list_elem_of_further].
Qed.

Lemma download_failure_returns_none_witness :
  (download_video (make_env breaks quiet_transport) link (py "720p") empty_world).1
    = inr (None, None)
  ∧ (download_audio (make_env writes_nothing quiet_transport) link empty_world).1
    = inr (None, None).
Proof.
  pose proof (download_failure_returns_none (make_env breaks quiet_transport)
                link (py "720p") (py "en") empty_world)
    as (_ & _ & Hvideo & _).
  pose proof (download_failure_returns_none (make_env writes_nothing quiet_transport)
                link (py "720p") (py "en") empty_world)
    as (_ & _ & _ & _ & _ & Haudio & _).
  split.
  - apply (Hvideo (OtherError (py "HTTP Error 403: Forbidden"))).
    right. vm_compute. reflexivity.
  - apply Haudio. vm_compute. reflexivity.
Defined.

(** ** Download specs, as handed to the extractor *)

Import YtDlp.

(** [download_video] runs the extractor on the cleaned link with
    [video_opts]: unless a downloaded file is found (and then renamed), it
    returns [(None, None)] and leaves the directory as that run left it. *)
Lemma download_video_runs_extractor (E : env) (url quality : pystr) (w : world)
    (i : info) :
  extract_info E (clean url) info_opts = inr i →
  (video_request E url quality w).1 ≠ None
  ∨ find_downloaded E (uuid4 E (fresh w)) (py ".mp4")
      (dir_names (download_dir E) (video_request E url quality w).2) = None →
  files (download_video E url quality w).2 = (video_request E url quality w).2
  ∧ (download_video E url quality w).1 = inr (None, None).
Proof.
  intros Hi. unfold video_request. run. rewrite clean_idempotent, Hi. simpl.
  destruct (ydl_download E _ _ _) as [[e|] fs]; simpl; [done|].
  intros [?|Hnone]; [done|]. by rewrite Hnone.
Qed.

Lemma download_video_returns (E : env) (url quality : pystr) (w : world) :
  ∃ r w', download_video E url quality w = (inr r, w').
Proof.
  run. rewrite clean_idempotent.
  destruct (extract_info E (clean url) info_opts); simpl; eauto.
  destruct (ydl_download E _ _ _) as [[e|] fs]; simpl; eauto.
  destruct (find_downloaded E _ _ _); simpl; eauto.
  destruct (rename_error E _ _); simpl; eauto.
Qed.

(** C10. A quality string that is not one of the eight labels is given the
    height cap 720 and is not rejected: the options dict [download_video]
    builds has the format entry
    [bestvideo[height<=720]+bestaudio/best[height<=720]], which the
    extractor can read, and is as a whole the dict built for 720p;
    [download_video] returns normally, and the extractor is run exactly as
    it is for 720p. *)
Theorem unknown_quality_falls_back (E : env) (url quality : pystr) (w : world) :
  quality ∉ LABELS →
  let outtmpl := path_join (download_dir E) (uuid4 E (fresh w) ++ py ".%(ext)s") in
  let code := py "bestvideo[height<=720]+bestaudio/best[height<=720]" in
  height_for quality = 720
  ∧ dict_get (video_opts quality outtmpl) (py "format") = Some (VStr code)
  ∧ parse_format code
    = Some [ [ {| a_kind := BestVideo; a_height_le := [720] |};
               {| a_kind := BestAudio; a_height_le := [] |} ];
             [ {| a_kind := Best; a_height_le := [720] |} ] ]
  ∧ video_opts quality outtmpl = video_opts (py "720p") outtmpl
  ∧ (∃ r w', download_video E url quality w = (inr r, w'))
  ∧ video_request E url quality w = video_request E url (py "720p") w
  ∧ (∀ i, extract_info E (clean url) info_opts = inr i →
          (video_request E url (py "720p") w).1 ≠ None
          ∨ find_downloaded E (uuid4 E (fresh w)) (py ".mp4")
              (dir_names (download_dir E) (video_request E url (py "720p") w).2)
            = None →
          files (download_video E url quality w).2
          = (video_request E url (py "720p") w).2).
Proof.
  intros Hq outtmpl code. assert (Hh : height_for quality = 720).
  { unfold height_for. by rewrite (dict_get_None _ _ Hq). }
  assert (Hopts : ∀ out, video_opts quality out = video_opts (py "720p") out).
  { intros out. unfold video_opts. by rewrite Hh. }
  assert (Hreq : video_request E url quality w = video_request E url (py "720p") w).
  { unfold video_request. by rewrite Hopts. }
  split; [done|]. split.
  { rewrite Hopts. subst code. vm_compute. reflexivity. }
  split; [vm_compute; reflexivity|]. split; [apply Hopts|].
  split; [apply download_video_returns|]. split; [exact Hreq|].
  intros i Hi Hleft. rewrite <- Hreq in Hleft |- *.
  by apply (download_video_runs_extractor E url quality w i).
Qed.

Lemma unknown_quality_falls_back_witness :
  let E := make_env breaks quiet_transport in
  dict_get (video_opts (py "4320p") (py "downloads/" ++ file_id ++ py ".%(ext)s"))
    (py "format")
  = Some (VStr (py "bestvideo[height<=720]+bestaudio/best[height<=720]"))
  ∧ (∃ r w', download_video E link (py "4320p") empty_world = (inr r, w'))
  ∧ files (download_video E link (py "4320p") empty_world).2 = [].
Proof.
  destruct (unknown_quality_falls_back (make_env breaks quiet_transport) link
              (py "4320p") empty_world)
    as (_ & Hformat & _ & _ & Hreturns & _ & Hrun).
  - vm_compute. intros H. repeat (apply elem_of_cons in H as [H|H]; [discriminate H|]).
    by apply elem_of_nil in H.
  - split; [exact Hformat|]. split; [exact Hreturns|].
    rewrite (Hrun {| title := Some (py "My clip!"); formats := [] |}).
    + reflexivity.
    + reflexivity.
    + left. vm_compute. discriminate.
Defined.

Lemma pick_Some (formats : list stream) (a : atom) (s : stream) :
  pick formats a = Some s →
  s ∈ formats ∧ capped a s = true
  ∧ (eligible a s = true
     ∨ (a_kind a = Best ∧ incomplete_formats formats = true ∧ has_media s = true)).
Proof.
  unfold pick.
  destruct (List.filter (eligible a) formats) as [|x l] eqn:Hl.
  - destruct (a_kind a) eqn:Hk; try done.
    destruct (incomplete_formats formats) eqn:Hinc; [|done].
    intros Hs. apply last_Some_elem_of, elem_of_filter_bool in Hs as [Hin Hs].
    apply andb_true_iff in Hs as [Hm Hc]. split; [done|]. split; [done|].
    right. done.
  - assert (Hlast : last (x :: l) = Some s → s ∈ formats ∧ eligible a s = true).
    { intros Hs. apply last_Some_elem_of in Hs. rewrite <- Hl in Hs.
      by apply elem_of_filter_bool in Hs. }
    intros Hs.
    assert (Hs' : last (x :: l) = Some s) by (by destruct (a_kind a)).
    destruct (Hlast Hs') as [Hin He]. split; [done|]. split; [|by left].
    unfold eligible in He. by apply andb_true_iff in He as [_ ?].
Qed.

Lemma capped_1080 (k : kind) (s : stream) :
  capped {| a_kind := k; a_height_le := [1080] |} s = true →
  ∃ h, stream_height s = Some h ∧ h ≤ 1080.
Proof.
  unfold capped. simpl. destruct (stream_height s) as [h|]; [|done].
  intros Hc. exists h. split; [done|].
  destruct (Z.leb_spec h 1080); [done|discriminate].
Qed.

(** C7, as stated, fails in its last clause: what the extractor falls back
    to need not be a combined stream.  For a video that has no audio stream
    at all, the 1080p options select a single video-only stream. *)
Lemma fallback_is_not_always_combined :
  ∃ code,
    dict_get (video_opts (py "1080p") (py "downloads/x.%(ext)s")) (py "format")
    = Some (VStr code)
    ∧ select_format code silent_streams = Some [video_720]
    ∧ has_video video_720 = true ∧ has_audio video_720 = false.
Proof. eexists. repeat split; vm_compute; reflexivity. Qed.

(** C7, amended. For 1080p the options dict handed to the extractor has the
    format entry [bestvideo[height<=1080]+bestaudio/best[height<=1080]].
    Its first choice is a video-only stream of height at most 1080 merged
    with the best audio-only stream; its second choice is one stream of
    height at most 1080, a combined one, or, when the extractor's list has
    no stream with video or none with audio, the best stream of any kind.
    No stream carrying video is ever selected above 1080. *)
Theorem format_1080p_capped (E : env) (url : pystr) (w : world)
    (streams chosen : list stream) :
  let outtmpl := path_join (download_dir E) (uuid4 E (fresh w) ++ py ".%(ext)s") in
  let code := py "bestvideo[height<=1080]+bestaudio/best[height<=1080]" in
  dict_get (video_opts (py "1080p") outtmpl) (py "format") = Some (VStr code)
  ∧ (∀ i, extract_info E (clean url) info_opts = inr i →
          (video_request E url (py "1080p") w).1 ≠ None
          ∨ find_downloaded E (uuid4 E (fresh w)) (py ".mp4")
              (dir_names (download_dir E) (video_request E url (py "1080p") w).2)
            = None →
          files (download_video E url (py "1080p") w).2
          = (video_request E url (py "1080p") w).2)
  ∧ parse_format code
    = Some [ [ {| a_kind := BestVideo; a_height_le := [1080] |};
               {| a_kind := BestAudio; a_height_le := [] |} ];
             [ {| a_kind := Best; a_height_le := [1080] |} ] ]
  ∧ (select_format code streams = Some chosen →
     (∀ s, s ∈ chosen → has_video s = true →
           ∃ h, stream_height s = Some h ∧ h ≤ 1080)
     ∧ ((∃ v a, chosen = [v; a]
                ∧ has_video v = true ∧ has_audio v = false
                ∧ has_video a = false ∧ has_audio a = true)
        ∨ (∃ c h, chosen = [c] ∧ stream_height c = Some h ∧ h ≤ 1080
                  ∧ (pick streams {| a_kind := BestVideo; a_height_le := [1080] |} = None
                     ∨ pick streams {| a_kind := BestAudio; a_height_le := [] |} = None)
                  ∧ ((has_video c = true ∧ has_audio c = true)
                     ∨ (incomplete_formats streams = true ∧ has_media c = true))))).
Proof.
  intros outtmpl code.
  split; [subst code; vm_compute; reflexivity|]. split.
  { intros i Hi Hleft.
    by apply (download_video_runs_extractor E url (py "1080p") w i). }
  split; [vm_compute; reflexivity|].
  unfold select_format.
  replace (parse_format code)
    with (Some [ [ {| a_kind := BestVideo; a_height_le := [1080] |};
                   {| a_kind := BestAudio; a_height_le := [] |} ];
                 [ {| a_kind := Best; a_height_le := [1080] |} ] ])
    by (vm_compute; reflexivity).
  assert (Hsingle : ∀ c,
    pick streams {| a_kind := Best; a_height_le := [1080] |} = Some c →
    (∃ h, stream_height c = Some h ∧ h ≤ 1080)
    ∧ ((has_video c = true ∧ has_audio c = true)
       ∨ (incomplete_formats streams = true ∧ has_media c = true))).
  { intros c Hc. apply pick_Some in Hc as (_ & Hcap & Hkind).
    split; [by apply (capped_1080 Best)|].
    destruct Hkind as [He|(_ & ? & ?)]; [left|by right].
    unfold eligible in He. simpl in He.
    by destruct (has_video c), (has_audio c). }
  simpl.
  destruct (pick streams {| a_kind := BestVideo; a_height_le := [1080] |})
    as [v|] eqn:Hv; simpl.
  - destruct (pick streams {| a_kind := BestAudio; a_height_le := [] |})
      as [a|] eqn:Ha; simpl.
    + intros [= <-].
      apply pick_Some in Hv as (_ & Hcap & [Hv|(? & _)]); [|done].
      apply pick_Some in Ha as (_ & _ & [Ha|(? & _)]); [|done].
      unfold eligible in Hv, Ha. simpl in Hv, Ha.
      destruct (has_video v) eqn:?, (has_audio v) eqn:?,
               (has_video a) eqn:?, (has_audio a) eqn:?; try discriminate.
      split; [|left; by exists v, a].
      intros s Hs Hvid.
      apply elem_of_cons in Hs as [->|Hs];
        [|apply list_elem_of_singleton in Hs as ->; congruence].
      by apply (capped_1080 BestVideo).
    + destruct (pick streams {| a_kind := Best; a_height_le := [1080] |})
        as [c|] eqn:Hc; simpl; [|done].
      intros [= <-]. destruct (Hsingle c eq_refl) as [[h [Hh Hle]] Hkind].
      split; [|right; exists c, h; repeat split; auto].
      intros s Hs _. apply list_elem_of_singleton in Hs as ->. eauto.
  - destruct (pick streams {| a_kind := Best; a_height_le := [1080] |})
      as [c|] eqn:Hc; simpl; [|done].
    intros [= <-]. destruct (Hsingle c eq_refl) as [[h [Hh Hle]] Hkind].
    split; [|right; exists c, h; repeat split; auto].
    intros s Hs _. apply list_elem_of_singleton in Hs as ->. eauto.
Qed.

Lemma format_1080p_capped_witness :
  select_format (py "bestvideo[height<=1080]+bestaudio/best[height<=1080]")
    some_streams
  = Some some_choice
  ∧ ∃ h, stream_height video_1080 = Some h ∧ h ≤ 1080.
Proof.
  assert (Hsel : select_format
                   (py "bestvideo[height<=1080]+bestaudio/best[height<=1080]")
                   some_streams = Some some_choice)
    by (vm_compute; reflexivity).
  split; [exact Hsel|].
  destruct (format_1080p_capped (make_env breaks quiet_transport) link empty_world
              some_streams some_choice) as (_ & _ & _ & Hcap).
  destruct (Hcap Hsel) as [Hheight _].
  apply (Hheight video_1080).
  - apply list_elem_of_here.
  - reflexivity.
Defined.

(** ** File lifecycle *)

Lemma elem_of_remove (p q : pystr) (fs : list pystr) :
  q ∈ List.filter (fun x => negb (str_eqb x p)) fs ↔ q ∈ fs ∧ q ≠ p.
Proof.
  rewrite elem_of_filter_bool. unfold str_eqb.
  rewrite negb_true_iff, bool_decide_eq_false. done.
Qed.

(** C8. [cleanup_file] never raises, whether the file is there, is absent,
    or cannot be deleted; a second call right after the first does not raise
    either and leaves the directory as the first call left it; no path
    other than the given one is ever removed, and the given one is gone
    unless its deletion failed. *)
Theorem cleanup_file_idempotent (E : env) (file_path : pystr) (w : world) :
  ∃ w1 w2,
    cleanup_file E file_path w = (inr tt, w1)
    ∧ cleanup_file E file_path w1 = (inr tt, w2)
    ∧ files w2 = files w1
    ∧ (∀ q, q ≠ file_path → q ∈ files w1 ↔ q ∈ files w)
    ∧ (remove_error E file_path = None → file_path ∉ files w1).
Proof.
  run. destruct (bool_decide (file_path ∈ files w)) eqn:Hin; simpl.
  - destruct (remove_error E file_path) as [e|] eqn:Hrm; simpl.
    + do 2 eexists. split; [reflexivity|]. simpl. rewrite Hin. simpl.
      repeat split; try done.
    + assert (Hgone : bool_decide
          (file_path ∈ List.filter (fun q => negb (str_eqb q file_path)) (files w))
          = false).
      { apply bool_decide_eq_false. rewrite elem_of_remove. by intros [_ ?]. }
      do 2 eexists. split; [reflexivity|]. simpl. rewrite Hgone. simpl.
      repeat split; simpl; try done.
      * rewrite elem_of_remove. by intros [? _].
      * intros ?. by rewrite elem_of_remove.
      * intros _. rewrite elem_of_remove. by intros [_ ?].
  - do 2 eexists. split; [reflexivity|]. simpl. rewrite Hin. simpl.
    repeat split; simpl; try done.
    intros _. by apply bool_decide_eq_false in Hin.
Qed.

Lemma cleanup_file_idempotent_witness :
  ∃ w1 w2,
    cleanup_file (make_env breaks quiet_transport) (py "downloads/a.mp3")
      {| files := [py "downloads/a.mp3"; py "downloads/b.mp3"];
         journal := []; fresh := 0 |} = (inr tt, w1)
    ∧ cleanup_file (make_env breaks quiet_transport) (py "downloads/a.mp3") w1
      = (inr tt, w2)
    ∧ files w2 = files w1
    ∧ py "downloads/b.mp3" ∈ files w1
    ∧ py "downloads/a.mp3" ∉ files w1.
Proof.
  destruct (cleanup_file_idempotent (make_env breaks quiet_transport)
              (py "downloads/a.mp3")
              {| files := [py "downloads/a.mp3"; py "downloads/b.mp3"];
                 journal := []; fresh := 0 |})
    as (w1 & w2 & H1 & H2 & H3 & H4 & H5).
  exists w1, w2. repeat split; try done.
  - apply H4; [discriminate|]. simpl. apply list_elem_of_further, list_elem_of_here.
  - apply H5. reflexivity.
Defined.

Lemma cleanups_app (j1 j2 : list entry) :
  cleanups (j1 ++ j2) = cleanups j1 ++ cleanups j2.
Proof. apply omap_app. Qed.

Ltac split_fates :=
  repeat match goal with
         | |- context [match transport_fate ?E ?j ?c with _ => _ end] =>
             destruct (transport_fate E j c) as [[?|?]|]; simpl
         | |- context [if bool_decide ?P then _ else _] =>
             destruct (bool_decide P); simpl
         | |- context [match remove_error ?E ?p with _ => _ end] =>
             destruct (remove_error E p); simpl
         end.

(** Once the "uploading" notice has gone out, the delivery step enters
    [cleanup_file] exactly once with the downloaded path, whatever becomes
    of the transfer and of the messages after it. *)
Lemma deliver_audio_cleans_up_once
    (E : env) (language path name : pystr) (w : world) :
  path ≠ [] → name ≠ [] →
  transport_fate E (journal w)
    (edit_text (message "uploading" language) None) = None →
  cleanups (journal (deliver_audio E language (Some path) (Some name) w).2)
  = cleanups (journal w) ++ [path].
Proof.
  intros Hp Hn Hup. unfold deliver_audio.
  destruct path as [|c path]; [done|]. destruct name as [|d name]; [done|].
  simpl truthy. simpl andb. cbv iota. run. rewrite Hup. simpl.
  split_fates; rewrite ?cleanups_app; simpl; rewrite ?app_nil_r; reflexivity.
Qed.

Lemma deliver_video_cleans_up_once
    (E : env) (language path name : pystr) (w : world) :
  path ≠ [] → name ≠ [] →
  transport_fate E (journal w)
    (edit_text (message "uploading" language) None) = None →
  cleanups (journal (deliver_video E language (Some path) (Some name) w).2)
  = cleanups (journal w) ++ [path].
Proof.
  intros Hp Hn Hup. unfold deliver_video.
  destruct path as [|c path]; [done|]. destruct name as [|d name]; [done|].
  simpl truthy. simpl andb. cbv iota. run. rewrite Hup. simpl.
  split_fates; rewrite ?cleanups_app; simpl; rewrite ?app_nil_r; reflexivity.
Qed.

(** C3 is broken by the code.  The audio download succeeds and its file is
    renamed into place; the transport then rejects the "uploading" status
    edit, which [callback_format] issues before its [try]: the handler
    raises, the file is still there and [cleanup_file] was never entered.
    In [callback_quality] the outer [except] reports the error, and again
    the file stays and [cleanup_file] was never entered. *)
Theorem cleanup_skipped_when_status_edit_fails :
  let audio := callback_format (make_env (writes ".mp3") rejects_uploading)
                 audio_pressed empty_world in
  let video := callback_quality (make_env (writes ".mp4") rejects_uploading)
                 quality_pressed empty_world in
  audio.1 = inl (TelegramAPIError (py "Bad Request: message to edit not found"))
  ∧ last (journal audio.2)
    = Some (Transport (edit_text (message "uploading" (py "en")) None)
              (Some (TelegramAPIError (py "Bad Request: message to edit not found"))))
  ∧ files audio.2 = [py "downloads/My clip_.mp3"]
  ∧ cleanups (journal audio.2) = []
  ∧ video.1 = inr tt
  ∧ files video.2 = [py "downloads/My clip__720p.mp4"]
  ∧ cleanups (journal video.2) = [].
Proof. repeat split; vm_compute; reflexivity. Qed.

(** ** Request throttling *)

Section Debounce.
Import Throttling.
Context {D S R : Type}.
Variable get_flag : D -> option Float64.float.
Variable handler : TelegramObject -> D -> S -> R * S.

(** A request that comes too soon after the stored instant is dropped:
    the handler does not run and the gate is left as it was.  "Too soon"
    is the test of line 62: the float [now - last] is below the rate. *)
Lemma call_dropped (self : ThrottlingMiddleware) (event : TelegramObject)
    (data : D) (now last : Float64.float) (user : User) (s : S) :
  _get_user event = Some user →
  Float64.leb (rate_for get_flag self data) Float64.zero = false →
  user_last_request self !! id user = Some last →
  Float64.ltb (Float64.sub now last) (rate_for get_flag self data) = true →
  __call__ get_flag handler self event data now s = (None, self, s).
Proof.
  intros Hu Hpos Hlast Hsoon. unfold __call__. rewrite Hu, Hpos, Hlast.
  cbn [default from_option Datatypes.id]. by rewrite Hsoon.
Qed.

(** Either the gate is left as it was, or the handler ran. *)
Lemma call_updates_only_when_accepted (self : ThrottlingMiddleware)
    (event : TelegramObject) (data : D) (now : Float64.float) (s : S) :
  (__call__ get_flag handler self event data now s).1.2 = self
  ∨ (__call__ get_flag handler self event data now s).1.1 = Some (handler event data s).1
    ∧ (__call__ get_flag handler self event data now s).2 = (handler event data s).2.
Proof.
  unfold __call__, invoke. destruct (_get_user event) as [user|].
  - destruct (Float64.leb _ Float64.zero).
    + destruct (handler event data s); by left.
    + destruct (Float64.ltb _ _); [by left|]. destruct (handler event data s); by right.
  - destruct (handler event data s); by left.
Qed.

(** C9. Of two requests of one user, the first accepted at [t1] and the
    second arriving less than the minimum interval later, the second is
    dropped: the gate returns [None], the handler does not run, and the
    stored instant stays [t1]; the stored instants only ever change when
    the handler is run.  The interval is measured as the code measures it:
    a rate is in force when the test [throttling_rate <= 0] fails, and a
    request comes too soon when the float [current_time - last_request_time]
    is below the rate. *)
Theorem throttle_debounces (self : ThrottlingMiddleware)
    (e1 e2 : TelegramObject) (d1 d2 : D) (t1 t2 : Float64.float)
    (user : User) (s : S) :
  _get_user e1 = Some user →
  _get_user e2 = Some user →
  Float64.leb (rate_for get_flag self d1) Float64.zero = false →
  Float64.leb (rate_for get_flag self d2) Float64.zero = false →
  Float64.ltb
    (Float64.sub t1 (default Float64.zero (user_last_request self !! id user)))
    (rate_for get_flag self d1) = false →
  Float64.ltb (Float64.sub t2 t1) (rate_for get_flag self d2) = true →
  ∃ self1,
    __call__ get_flag handler self e1 d1 t1 s
      = (Some (handler e1 d1 s).1, self1, (handler e1 d1 s).2)
    ∧ user_last_request self1 !! id user = Some t1
    ∧ (∀ s1, __call__ get_flag handler self1 e2 d2 t2 s1 = (None, self1, s1))
    ∧ (∀ self' e d t s',
         (__call__ get_flag handler self' e d t s').1.2 = self'
         ∨ (__call__ get_flag handler self' e d t s').1.1 = Some (handler e d s').1).
Proof.
  intros Hu1 Hu2 Hpos1 Hpos2 Hfirst Hsoon.
  exists {| default_rate := default_rate self;
            user_last_request := <[id user := t1]> (user_last_request self) |}.
  split; [|split; [|split]].
  - unfold __call__. rewrite Hu1, Hpos1, Hfirst.
    unfold invoke. by destruct (handler e1 d1 s).
  - simpl. apply lookup_insert_eq.
  - intros s1. apply (call_dropped _ _ _ _ t1 user); try done.
    simpl. apply lookup_insert_eq.
  - intros self' e d t s'.
    destruct (call_updates_only_when_accepted self' e d t s') as [?|[? _]]; auto.
Qed.
End Debounce.

Lemma throttle_debounces_witness :
  ∃ self1,
    Throttling.__call__ id counting_handler fresh_gate (message_from 7) None
      (Cases.clock 0) 0%nat
      = (Some tt, self1, 1%nat)
    ∧ Throttling.user_last_request self1 !! 7 = Some (Cases.clock 0)
    ∧ (∀ s1, Throttling.__call__ id counting_handler self1 (message_from 7) None
               (Cases.clock 1) s1 = (None, self1, s1)).
Proof.
  destruct (throttle_debounces id counting_handler fresh_gate
              (message_from 7) (message_from 7) None None
              (Cases.clock 0) (Cases.clock 1)
              {| Throttling.id := 7 |} 0%nat)
    as (self1 & H1 & H2 & H3 & _).
  - reflexivity.
  - reflexivity.
  - reflexivity.
  - reflexivity.
  - vm_compute. reflexivity.
  - vm_compute. reflexivity.
  - exists self1. auto.
Defined.

(** The gate's window is a window of floats.  With a rate of 2^53 + 4
    seconds, a request at instant 2^53 + 4 comes 2^53 + 3 seconds after
    the one stored at instant 1, which is less than the rate; but the
    difference is not a float and rounds to 2^53 + 4, so the test of line
    62 fails and the request is let through. *)
Lemma window_is_rounded :
  let rate := Float64.of_Z (2 ^ 53 + 4) in
  let last := Float64.of_Z 1 in
  let now := Float64.of_Z (2 ^ 53 + 4) in
  Float64.value rate = Some (inject_Z (2 ^ 53 + 4))
  ∧ Float64.value last = Some (inject_Z 1)
  ∧ Float64.value now = Some (inject_Z (2 ^ 53 + 4))
  ∧ (inject_Z (2 ^ 53 + 4) - inject_Z 1 < inject_Z (2 ^ 53 + 4))%Q
  ∧ Float64.sub now last = rate
  ∧ (Throttling.__call__ id counting_handler Cases.slow_gate (message_from 7) None
       now 0%nat).1.1 = Some tt.
Proof. repeat split; vm_compute; reflexivity. Qed.

(** * Further properties of the code *)

(** ** Link validator *)

(** X1. The validator's verdict is the substring test alone: a string is
    accepted exactly when it contains [youtube.com] or [youtu.be]; the
    pattern with the 11-character identifier never accepts a string the
    substring test has rejected. *)
Theorem validator_is_host_test (url : pystr) :
  (is_valid_youtube_url url = true ↔
   contains (py "youtube.com") url = true ∨ contains (py "youtu.be") url = true)
  ∧ (contains (py "youtube.com") (clean url) || contains (py "youtu.be") (clean url)
     = false →
     search YOUTUBE_URL_PATTERN (clean url) = false).
Proof.
  split.
  - rewrite is_valid_youtube_url_host. apply orb_true_iff.
  - intros Hh. destruct (search YOUTUBE_URL_PATTERN (clean url)) eqn:Hs; [|done].
    apply pattern_needs_host in Hs. congruence.
Qed.

Lemma validator_is_host_test_witness :
  is_valid_youtube_url (py "see youtube.com") = true
  ∧ search YOUTUBE_URL_PATTERN (clean (py " @https://vimeo.com/watch?v=dQw4w9WgXcQ"))
    = false.
Proof.
  split.
  - apply (validator_is_host_test (py "see youtube.com")). left. reflexivity.
  - apply (validator_is_host_test (py " @https://vimeo.com/watch?v=dQw4w9WgXcQ")).
    reflexivity.
Defined.

(** X2. Cleaning a URL (strip, then drop leading at-signs and white space)
    is idempotent and does not change the validator's verdict, so the
    handlers' cleaning before validation and the service's cleaning after
    it agree. *)
Theorem cleaning_is_harmless (url : pystr) :
  clean (clean url) = clean url
  ∧ is_valid_youtube_url (clean url) = is_valid_youtube_url url.
Proof.
  split; [apply clean_idempotent|].
  destruct host_chars_plain as [H1 H2].
  rewrite !is_valid_youtube_url_host.
  by rewrite !contains_clean.
Qed.

(** ** Format resolver *)

Lemma available_qualities_of_match (heights : gset Z) :
  matching_formats heights ≠ [] →
  available_qualities heights = matching_formats heights.
Proof.
  intros Hne. unfold available_qualities.
  destruct (matching_formats heights) as [|n l] eqn:Hm; [done|].
  rewrite <- Hm. unfold matching_formats.
  by rewrite RESOLUTIONS_sorted, sorted_labels.
Qed.

Lemma available_qualities_of_no_match (heights : gset Z) :
  matching_formats heights = [] →
  available_qualities heights
  = fst <$> List.filter
      (fun '(_, height) => height <=? default 720 (py_max (elements heights)))
      RESOLUTIONS.
Proof.
  intros Hm. unfold available_qualities. rewrite Hm. apply sorted_labels.
Qed.

Lemma available_qualities_labels (heights : gset Z) (q : pystr) :
  q ∈ available_qualities heights → q ∈ LABELS.
Proof.
  destruct (matching_formats heights) as [|n l] eqn:Hm.
  - rewrite (available_qualities_of_no_match _ Hm). unfold LABELS.
    intros Hq. eapply elem_of_sublist; [exact Hq|].
    apply fmap_sublist, filter_sublist_of.
  - rewrite available_qualities_of_match by (by rewrite Hm).
    unfold matching_formats, LABELS. rewrite RESOLUTIONS_sorted.
    intros Hq. eapply elem_of_sublist; [exact Hq|].
    apply fmap_sublist, filter_sublist_of.
Qed.

Lemma RESOLUTIONS_cases (q : pystr) (h : Z) :
  (q, h) ∈ RESOLUTIONS →
  (q, h) = (py "144p", 144) ∨ (q, h) = (py "240p", 240)
  ∨ (q, h) = (py "360p", 360) ∨ (q, h) = (py "480p", 480)
  ∨ (q, h) = (py "720p", 720) ∨ (q, h) = (py "1080p", 1080)
  ∨ (q, h) = (py "1440p", 1440) ∨ (q, h) = (py "2160p", 2160).
Proof.
  unfold RESOLUTIONS. rewrite !elem_of_cons, elem_of_nil. tauto.
Qed.

Lemma RESOLUTIONS_lookup (q : pystr) (h : Z) :
  (q, h) ∈ RESOLUTIONS → dict_get RESOLUTIONS q = Some h.
Proof.
  intros Hin. apply RESOLUTIONS_cases in Hin.
  repeat destruct Hin as [Hin|Hin]; injection Hin as -> ->; reflexivity.
Qed.

(** The tolerance test in integers: ten times the distance against the
    larger of the height and 500. *)
Lemma close_to_Z (a h : Z) :
  close_to a h = true ↔ 10 * Z.abs (a - h) ≤ Z.max h 500.
Proof.
  rewrite close_to_spec.
  destruct (Q.max_spec (inject_Z h * (1 # 10)) (inject_Z 50)) as [[Hlt ->]|[Hle ->]];
    unfold Qlt, Qle in *; simpl in *; lia.
Qed.

Lemma LABELS_heights (q : pystr) :
  q ∈ LABELS → ∃ h, (q, h) ∈ RESOLUTIONS.
Proof.
  unfold LABELS. rewrite list_elem_of_fmap. intros ([q' h] & -> & Hin). eauto.
Qed.

(** X3. Every label that [get_available_formats] returns, on the matching
    path, the fallback path or the failure path, is a key of [RESOLUTIONS]:
    when the user picks it, [download_video] caps the streams at that
    label's own height and never through the default of 720. *)
Theorem offered_label_keeps_height
    (E : env) (url : pystr) (w w' : world) (offered : list pystr) (q : pystr) :
  get_available_formats E url w = (inr offered, w') →
  q ∈ offered →
  ∃ h, (q, h) ∈ RESOLUTIONS ∧ height_for q = h
       ∧ format_code (height_for q) = format_code h.
Proof.
  intros Hrun Hq.
  assert (Hlabel : q ∈ LABELS).
  { revert Hrun. run. destruct (extract_info E (clean (clean url)) info_opts); simpl.
    - intros [= <- _]. revert Hq. unfold DEFAULT_FORMATS, LABELS, RESOLUTIONS. simpl.
      rewrite !elem_of_cons, !elem_of_nil. tauto.
    - intros [= <- _]. by eapply available_qualities_labels. }
  apply LABELS_heights in Hlabel as [h Hh]. exists h.
  assert (height_for q = h) as ->
    by (unfold height_for; by rewrite (RESOLUTIONS_lookup _ _ Hh)).
  done.
Qed.

Lemma offered_label_keeps_height_witness :
  ∃ h, (py "1080p", h) ∈ RESOLUTIONS ∧ height_for (py "1080p") = h
       ∧ format_code (height_for (py "1080p")) = format_code h.
Proof.
  apply (offered_label_keeps_height Examples.unreachable Examples.link
           Examples.empty_world
           (get_available_formats Examples.unreachable Examples.link
              Examples.empty_world).2
           DEFAULT_FORMATS (py "1080p")).
  - reflexivity.
  - unfold DEFAULT_FORMATS. do 5 apply list_elem_of_further. apply list_elem_of_here.
Defined.

Lemma available_heights_from (formats : list fmt) (acc : gset Z) (h : Z) :
  h ∈ foldl (fun acc f =>
               if bool_decide (vcodec f = Some (py "none")) then acc
               else match height f with
                    | Some h => if h =? 0 then acc else {[ h ]} ∪ acc
                    | None => acc
                    end) acc formats ↔
  h ∈ acc ∨ (h ≠ 0 ∧ ∃ f, f ∈ formats ∧ vcodec f ≠ Some (py "none")
                          ∧ height f = Some h).
Proof.
  revert acc. induction formats as [|f formats IH]; intros acc; simpl.
  - split; [by left|]. intros [?|(_ & f & Hf & _)]; [done|].
    by apply elem_of_nil in Hf.
  - rewrite IH. clear IH. split.
    + intros [Hacc|(Hnz & g & Hg & Hv & Hh)].
      * destruct (bool_decide (vcodec f = Some (py "none"))) eqn:Hv; [by left|].
        apply bool_decide_eq_false in Hv.
        destruct (height f) as [x|] eqn:Hx; [|by left].
        destruct (Z.eqb_spec x 0); [by left|].
        apply elem_of_union in Hacc as [Hacc|Hacc]; [|by left].
        apply elem_of_singleton in Hacc as ->. right. split; [done|].
        exists f. split; [apply list_elem_of_here|done].
      * right. split; [done|]. exists g. split; [by apply list_elem_of_further|done].
    + intros [Hacc|(Hnz & g & Hg & Hv & Hh)].
      * left. destruct (bool_decide _); [done|].
        destruct (height f) as [x|]; [|done].
        destruct (x =? 0); [done|]. apply elem_of_union. by right.
      * apply elem_of_cons in Hg as [->|Hg].
        -- left. rewrite bool_decide_eq_false_2 by done. rewrite Hh.
           destruct (Z.eqb_spec h 0); [done|]. apply elem_of_union. left.
           by apply elem_of_singleton.
        -- right. split; [done|]. eauto.
Qed.

(** X4. The heights collected from the extractor's format list are exactly
    the non-zero heights of the entries whose [vcodec] is not the string
    [none]: audio-only entries and entries without a height never
    contribute. *)
Theorem available_heights_spec (formats : list fmt) (h : Z) :
  h ∈ available_heights formats ↔
  h ≠ 0 ∧ ∃ f, f ∈ formats ∧ vcodec f ≠ Some (py "none") ∧ height f = Some h.
Proof.
  unfold available_heights. rewrite available_heights_from. split.
  - intros [Hin|?]; [by apply not_elem_of_empty in Hin|done].
  - by right.
Qed.

(** X5. A label whose exact height is among the available heights is always
    offered. *)
Theorem exact_height_is_offered (heights : gset Z) (q : pystr) (h : Z) :
  (q, h) ∈ RESOLUTIONS → h ∈ heights → q ∈ available_qualities heights.
Proof.
  intros Hq Hh.
  assert (Hm : q ∈ matching_formats heights).
  { apply matching_formats_spec. exists h. split; [done|]. exists h. split; [done|].
    apply close_to_spec, close_to_Z. lia. }
  rewrite available_qualities_of_match; [done|].
  intros Hnil. rewrite Hnil in Hm. by apply elem_of_nil in Hm.
Qed.

Lemma exact_height_is_offered_witness :
  py "480p" ∈ available_qualities {[ 480; 4000 ]}.
Proof.
  apply (exact_height_is_offered {[ 480; 4000 ]} (py "480p") 480).
  - do 3 apply list_elem_of_further. apply list_elem_of_here.
  - apply elem_of_union. left. by apply elem_of_singleton.
Defined.

Lemma matching_formats_close (heights : gset Z) (q : pystr) :
  q ∈ matching_formats heights ↔
  ∃ h a, (q, h) ∈ RESOLUTIONS ∧ a ∈ heights ∧ 10 * Z.abs (a - h) ≤ Z.max h 500.
Proof.
  rewrite matching_formats_spec. unfold within_tolerance. split.
  - intros (h & Hq & a & Ha & Hc). exists h, a.
    by rewrite <- close_to_Z, close_to_spec.
  - intros (h & a & Hq & Ha & Hc). exists h. split; [done|]. exists a.
    by rewrite <- close_to_spec, close_to_Z.
Qed.

(** X6. The resolver returns no label at all exactly when some height is
    available and every available height is below 94, the lower end of the
    144p window. *)
Theorem no_label_iff_all_tiny (heights : gset Z) :
  available_qualities heights = [] ↔
  heights ≠ ∅ ∧ ∀ a, a ∈ heights → a < 94.
Proof.
  split.
  - intros Hnil. split.
    + intros ->. by rewrite (proj2 available_qualities_empty_list) in Hnil.
    + intros a Ha. destruct (Z.lt_ge_cases a 94) as [|Hge]; [done|]. exfalso.
      assert (Hin : py "144p" ∈ available_qualities heights);
        [|rewrite Hnil in Hin; by apply elem_of_nil in Hin].
      destruct (matching_formats heights) as [|n l] eqn:Hm.
      * rewrite (available_qualities_of_no_match _ Hm). apply fallback_spec.
        exists 144. split; [apply list_elem_of_here|]. right.
        destruct (py_max (elements heights)) as [m|] eqn:Hmax.
        -- apply py_max_elements in Hmax as [Hm1 Hm2]. exists m.
           split; [done|]. split; [done|].
           destruct (Z.le_gt_cases a 194) as [Hle|Hgt]; [|specialize (Hm2 a Ha); lia].
           assert (Hq : py "144p" ∈ matching_formats heights).
           { apply matching_formats_close. exists 144, a.
             split; [apply list_elem_of_here|]. split; [done|]. lia. }
           rewrite Hm in Hq. by apply elem_of_nil in Hq.
        -- apply py_max_none in Hmax. subst. by apply not_elem_of_empty in Ha.
      * destruct (Z.le_gt_cases a 194) as [Hle|Hgt].
        -- rewrite available_qualities_of_match by (by rewrite Hm).
           apply matching_formats_close. exists 144, a.
           split; [apply list_elem_of_here|]. split; [done|]. lia.
        -- assert (Hne : available_qualities heights ≠ []).
           { rewrite available_qualities_of_match by (by rewrite Hm). by rewrite Hm. }
           by rewrite Hnil in Hne.
  - intros [Hne Hall].
    assert (Hm : matching_formats heights = []).
    { apply elem_of_nil_inv. intros q Hq.
      apply matching_formats_close in Hq as (h & a & Hq & Ha & Hc).
      specialize (Hall a Ha). apply RESOLUTIONS_cases in Hq.
      repeat destruct Hq as [Hq|Hq]; injection Hq as -> ->; lia. }
    rewrite (available_qualities_of_no_match _ Hm).
    apply elem_of_nil_inv. intros q Hq.
    apply fallback_spec in Hq as (h & Hq & [[-> _]|(m & Hm1 & _ & Hle)]); [done|].
    specialize (Hall m Hm1). apply RESOLUTIONS_cases in Hq.
    repeat destruct Hq as [Hq|Hq]; injection Hq as -> ->; lia.
Qed.

(** ** Request throttling, continued *)

Section Gate.
Import Throttling Traffic.
Context {D S R : Type}.
Variable get_flag : D -> option Float64.float.
Variable handler : TelegramObject -> D -> S -> R * S.

(** X7. An update that carries no user (neither a message nor a callback
    query, or one without [from_user]) is never throttled: the handler runs
    and the gate is left untouched. *)
Theorem anonymous_updates_pass (self : ThrottlingMiddleware)
    (event : TelegramObject) (data : D) (now : Float64.float) (s : S) :
  _get_user event = None →
  __call__ get_flag handler self event data now s
  = (Some (handler event data s).1, self, (handler event data s).2).
Proof.
  intros Hu. unfold __call__, invoke. rewrite Hu. by destruct (handler event data s).
Qed.

(** A float below zero is truthy and passes the test [rate <= 0]. *)
Lemma negative_rate (rate : Float64.float) :
  Float64.ltb rate Float64.zero = true →
  Float64.truthy rate = true ∧ Float64.leb rate Float64.zero = true.
Proof. destruct rate as [[|]|[|]| |[|] m e]; by compute. Qed.

(** X8. A [throttling_rate] flag of zero does not switch the gate off: the
    default rate applies, so a request arriving too soon (the float
    [now - last] is below the default rate) is still dropped.  A negative
    flag does switch it off: the handler runs and no instant is stored. *)
Theorem zero_flag_keeps_default_rate (self : ThrottlingMiddleware)
    (event : TelegramObject) (data : D) (now last rate : Float64.float)
    (user : User) (s : S) :
  _get_user event = Some user →
  get_flag data = Some rate →
  (Float64.truthy rate = false →
   Float64.leb (default_rate self) Float64.zero = false →
   user_last_request self !! id user = Some last →
   Float64.ltb (Float64.sub now last) (default_rate self) = true →
   rate_for get_flag self data = default_rate self
   ∧ __call__ get_flag handler self event data now s = (None, self, s))
  ∧ (Float64.ltb rate Float64.zero = true →
     __call__ get_flag handler self event data now s
     = (Some (handler event data s).1, self, (handler event data s).2)).
Proof.
  intros Hu Hflag. split.
  - intros Hzero Hpos Hlast Hsoon.
    assert (Hrate : rate_for get_flag self data = default_rate self).
    { unfold rate_for. by rewrite Hflag, Hzero. }
    split; [done|].
    apply (call_dropped _ _ _ _ _ _ last user); try done; by rewrite Hrate.
  - intros Hneg. apply negative_rate in Hneg as [Htruthy Hle].
    assert (Hrate : rate_for get_flag self data = rate).
    { unfold rate_for. by rewrite Hflag, Htruthy. }
    unfold __call__, invoke. rewrite Hu, Hrate, Hle.
    by destruct (handler event data s).
Qed.

(** X9. Whatever the outcome, a request only ever touches the stored
    instant of its own user; the instants of all other users and the
    default rate stay as they were. *)
Theorem gate_touches_own_user_only (self : ThrottlingMiddleware)
    (event : TelegramObject) (data : D) (now : Float64.float) (s : S) (other : Z) :
  (∀ user, _get_user event = Some user → id user ≠ other) →
  user_last_request (__call__ get_flag handler self event data now s).1.2 !! other
  = user_last_request self !! other
  ∧ default_rate (__call__ get_flag handler self event data now s).1.2
    = default_rate self.
Proof.
  intros Hother. unfold __call__, invoke.
  destruct (_get_user event) as [user|] eqn:Hu.
  - specialize (Hother user eq_refl). destruct (Float64.leb _ Float64.zero).
    + by destruct (handler event data s).
    + destruct (Float64.ltb _ _); [done|]. destruct (handler event data s). simpl.
      split; [|done]. by apply lookup_insert_ne.
  - by destruct (handler event data s).
Qed.

Lemma serve_spacing (uid : Z)
    (requests : list (TelegramObject * D * Float64.float)) :
  (∀ d, get_flag d = None) →
  ∀ (self : ThrottlingMiddleware) (s : S),
    Float64.leb (default_rate self) Float64.zero = false →
    let log := accepted_at uid requests
                 (serve get_flag handler self requests s).1.1 in
    spaced (default_rate self) log
    ∧ ∀ t last, head log = Some t →
                user_last_request self !! uid = Some last →
                Float64.ltb (Float64.sub t last) (default_rate self) = false.
Proof.
  intros Hflags. induction requests as [|[[event data] now] rest IH];
    intros self s Hpos; simpl; [done|].
  destruct (__call__ get_flag handler self event data now s) as [[r self1] s1] eqn:Hc.
  destruct (serve get_flag handler self1 rest s1) as [[rs self2] s2] eqn:Hs.
  simpl. unfold __call__, rate_for, invoke in Hc. rewrite Hflags in Hc.
  pose proof (IH self s1 Hpos) as IHsame.
  destruct (_get_user event) as [user|] eqn:Hu.
  - rewrite Hpos in Hc.
    destruct (Float64.ltb
                (Float64.sub now
                   (default Float64.zero (user_last_request self !! id user)))
                (default_rate self)) eqn:Hsoon.
    + injection Hc as <- <- <-. rewrite Hs in IHsame. exact IHsame.
    + destruct (handler event data s) as [r0 s0]. injection Hc as <- <- <-.
      specialize (IH {| default_rate := default_rate self;
                        user_last_request :=
                          <[id user := now]> (user_last_request self) |} s0 Hpos).
      rewrite Hs in IH. simpl in IH. destruct IH as [IH1 IH2].
      destruct (bool_decide (id user = uid)) eqn:Hid.
      * apply bool_decide_eq_true in Hid. split.
        -- destruct (accepted_at uid rest rs) as [|t' log'] eqn:Hlog; [done|].
           split; [|done]. apply (IH2 t' now); [done|].
           rewrite <- Hid. apply lookup_insert_eq.
        -- simpl. intros t last [= <-] Hlast. rewrite Hid, Hlast in Hsoon. done.
      * apply bool_decide_eq_false in Hid. split; [done|].
        intros t last Ht Hlast. apply (IH2 t last Ht).
        by rewrite lookup_insert_ne.
  - destruct (handler event data s) as [r0 s0]. injection Hc as <- <- <-.
    specialize (IH self s0 Hpos). by rewrite Hs in IH.
Qed.

(** X10. With a default rate in force (the test [rate <= 0] fails) and no
    handler flag, in every stream of requests the instants at which
    requests of one user are let through lie at least the default rate
    apart as the gate measures it: between two consecutive ones the test
    [t' - t < rate] on floats fails. *)
Theorem accepted_requests_are_spaced (self : ThrottlingMiddleware)
    (requests : list (TelegramObject * D * Float64.float)) (s : S) (uid : Z) :
  (∀ d, get_flag d = None) →
  Float64.leb (default_rate self) Float64.zero = false →
  spaced (default_rate self)
    (accepted_at uid requests (serve get_flag handler self requests s).1.1).
Proof.
  intros Hflags Hpos. by apply (serve_spacing uid requests Hflags self s Hpos).
Qed.
End Gate.

Lemma anonymous_updates_pass_witness :
  Throttling.__call__ id counting_handler Cases.busy_gate
    (Throttling.Message None) None (Cases.clock 1) 0%nat
  = (Some tt, Cases.busy_gate, 1%nat).
Proof.
  apply (anonymous_updates_pass id counting_handler Cases.busy_gate
           (Throttling.Message None) None (Cases.clock 1) 0%nat).
  reflexivity.
Defined.

Lemma zero_flag_keeps_default_rate_witness :
  Throttling.__call__ id counting_handler Cases.busy_gate (message_from 7)
    (Some Float64.zero) (Cases.clock 1) 0%nat
  = (None, Cases.busy_gate, 0%nat)
  ∧ Throttling.__call__ id counting_handler Cases.busy_gate (message_from 7)
      (Some (Float64.of_Z (-1))) (Cases.clock 1) 0%nat
    = (Some tt, Cases.busy_gate, 1%nat).
Proof.
  pose proof (zero_flag_keeps_default_rate id counting_handler Cases.busy_gate
                (message_from 7) (Some Float64.zero) (Cases.clock 1) (Cases.clock 0)
                Float64.zero {| Throttling.id := 7 |} 0%nat eq_refl eq_refl)
    as [Hzero _].
  pose proof (zero_flag_keeps_default_rate id counting_handler Cases.busy_gate
                (message_from 7) (Some (Float64.of_Z (-1))) (Cases.clock 1)
                (Cases.clock 0) (Float64.of_Z (-1)) {| Throttling.id := 7 |} 0%nat
                eq_refl eq_refl)
    as [_ Hneg].
  split.
  - apply Hzero; vm_compute; reflexivity.
  - apply Hneg. vm_compute. reflexivity.
Defined.

Lemma gate_touches_own_user_only_witness :
  Throttling.user_last_request
    (Throttling.__call__ id counting_handler Cases.busy_gate (message_from 8)
       None (Cases.clock 4) 0%nat).1.2 !! 7
  = Some (Cases.clock 0)
  ∧ Throttling.user_last_request
      (Throttling.__call__ id counting_handler Cases.busy_gate (message_from 8)
         None (Cases.clock 4) 0%nat).1.2 !! 8
    = Some (Cases.clock 4).
Proof.
  split; [|vm_compute; reflexivity].
  rewrite (proj1 (gate_touches_own_user_only id counting_handler Cases.busy_gate
                    (message_from 8) None (Cases.clock 4) 0%nat 7
                    ltac:(intros user [= <-]; discriminate))).
  reflexivity.
Defined.

Lemma accepted_requests_are_spaced_witness :
  let log := Traffic.accepted_at 7 Cases.burst
               (Traffic.serve Cases.no_flag Cases.plain_handler fresh_gate
                  Cases.burst 0%nat).1.1 in
  log = [Cases.clock 0; Cases.clock 2] ∧ Traffic.spaced (Float64.scaled 1 (-1)) log.
Proof.
  split; [vm_compute; reflexivity|].
  apply (accepted_requests_are_spaced Cases.no_flag Cases.plain_handler fresh_gate
           Cases.burst 0%nat 7); reflexivity.
Defined.

(** ** Button payloads and keyboards *)

Lemma split_nonempty (sep : N) (s : pystr) : split sep s ≠ [].
Proof.
  destruct s as [|c s]; simpl; [done|].
  destruct (c =? sep)%N; [done|]. by destruct (split sep s).
Qed.

Lemma split_no_sep (sep : N) (s : pystr) : sep ∉ s → split sep s = [s].
Proof.
  induction s as [|c s IH]; simpl; [done|].
  intros Hs. apply not_elem_of_cons in Hs as [Hc Hs].
  destruct (N.eqb_spec c sep); [congruence|]. by rewrite IH.
Qed.

Lemma split_at_sep (sep : N) (a b : pystr) :
  sep ∉ a → split sep (a ++ sep :: b) = a :: split sep b.
Proof.
  induction a as [|c a IH]; simpl.
  - intros _. by rewrite N.eqb_refl.
  - intros Hs. apply not_elem_of_cons in Hs as [Hc Hs].
    destruct (N.eqb_spec c sep); [congruence|]. by rewrite IH.
Qed.

Lemma join_split (sep : N) (s : pystr) : join [sep] (split sep s) = s.
Proof.
  induction s as [|c s IH]; simpl; [done|].
  destruct (N.eqb_spec c sep) as [->|Hne].
  - pose proof (split_nonempty sep s) as Hne.
    destruct (split sep s) as [|w ws]; [done|]. simpl in *. by rewrite IH.
  - pose proof (split_nonempty sep s) as Hne'.
    destruct (split sep s) as [|w ws]; [done|].
    destruct ws as [|w' ws]; simpl in *; by rewrite <- IH.
Qed.

Lemma colon : py ":" = [58%N].
Proof. reflexivity. Qed.

Ltac no_colon := by (apply (bool_decide_unpack _); vm_compute).

Lemma quality_payload_parts (url quality : pystr) :
  58%N ∉ quality →
  split 58 (py "quality:" ++ quality ++ py ":" ++ url)
  = py "quality" :: quality :: split 58 url.
Proof.
  intros Hq.
  change (py "quality:" ++ quality ++ py ":" ++ url)
    with (py "quality" ++ 58%N :: (quality ++ 58%N :: url)).
  rewrite split_at_sep by no_colon. by rewrite split_at_sep.
Qed.

Lemma format_payload_parts (kind : string) (url : pystr) :
  58%N ∉ py kind →
  split 58 (py "format:" ++ py kind ++ py ":" ++ url)
  = py "format" :: py kind :: split 58 url.
Proof.
  intros Hk.
  change (py "format:" ++ py kind ++ py ":" ++ url)
    with (py "format" ++ 58%N :: (py kind ++ 58%N :: url)).
  rewrite split_at_sep by no_colon. by rewrite split_at_sep.
Qed.

Lemma back_payload_parts (url : pystr) :
  split 58 (py "back_to_format:" ++ url) = py "back_to_format" :: split 58 url.
Proof.
  change (py "back_to_format:" ++ url) with (py "back_to_format" ++ 58%N :: url).
  by rewrite split_at_sep by no_colon.
Qed.

(** X11. What the keyboards put into a button is what the handlers read
    back.  A quality button yields its quality as [parts[1]] and its URL,
    colons included, as the re-joined rest; a format button with a
    non-empty URL yields the format and the URL, and without one it has
    just two parts, which sends [callback_format] to the replied-to
    message; a back button yields the URL. *)
Theorem payload_round_trip (language url quality : pystr) :
  58%N ∉ quality →
  (let parts := split 58 (Keyboards.callback_data (Keyboards.quality_button url quality)) in
   parts !! 1%nat = Some quality ∧ join (py ":") (drop 2 parts) = url)
  ∧ (∀ kind, kind = "video" ∨ kind = "audio" → url ≠ [] →
       let parts := split 58 (Keyboards.format_data kind (Some url)) in
       parts !! 1%nat = Some (py kind)
       ∧ bool_decide (2 < length parts)%nat = true
       ∧ join (py ":") (drop 2 parts) = url)
  ∧ (∀ kind, kind = "video" ∨ kind = "audio" →
       split 58 (Keyboards.format_data kind None) = [py "format"; py kind]
       ∧ split 58 (Keyboards.format_data kind (Some [])) = [py "format"; py kind])
  ∧ (let parts := split 58 (Keyboards.callback_data (Keyboards.back_button language url)) in
     join (py ":") (drop 1 parts) = url).
Proof.
  intros Hq. rewrite colon. cbv zeta.
  unfold Keyboards.quality_button, Keyboards.back_button.
  cbn [Keyboards.callback_data].
  rewrite quality_payload_parts, back_payload_parts by done.
  split; [|split; [|split]].
  - split; [done|]. apply join_split.
  - intros kind Hk Hurl. destruct url as [|c u]; [done|].
    unfold Keyboards.format_data.
    rewrite format_payload_parts by (destruct Hk as [-> | ->]; no_colon).
    pose proof (split_nonempty 58 (c :: u)) as Hne.
    split; [done|]. split.
    + destruct (split 58 (c :: u)); [done|]. apply bool_decide_eq_true_2.
      simpl. lia.
    + apply join_split.
  - intros kind [-> | ->]; split; reflexivity.
  - apply join_split.
Qed.

Lemma payload_round_trip_witness :
  split 58 (Keyboards.callback_data
              (Keyboards.quality_button (py "https://youtu.be/dQw4w9WgXcQ") (py "720p")))
    !! 1%nat = Some (py "720p")
  ∧ join (py ":")
      (drop 2 (split 58 (Keyboards.callback_data
                           (Keyboards.quality_button (py "https://youtu.be/dQw4w9WgXcQ")
                              (py "720p")))))
    = py "https://youtu.be/dQw4w9WgXcQ".
Proof.
  apply (payload_round_trip (py "en") (py "https://youtu.be/dQw4w9WgXcQ") (py "720p")).
  no_colon.
Defined.

Lemma concat_rows_of {B : Type} (buttons : list B) :
  ∀ (size : nat) (sizes : list nat) (row : list B),
    concat (Keyboards.rows_of size sizes row buttons) = row ++ buttons.
Proof.
  induction buttons as [|b rest IH]; intros size sizes row; simpl.
  - destruct row; simpl; by rewrite ?app_nil_r.
  - destruct (size <=? length row)%nat; simpl.
    + destruct sizes; by rewrite IH.
    + by rewrite IH, <- app_assoc.
Qed.

(** X12. The quality keyboard holds, in this order, one button per format
    given, then "back", then "cancel"; no button is lost or repeated by the
    layout.  When no formats are given, or an empty list, the eight standard
    labels are shown instead, so the keyboard never comes without a quality
    button. *)
Theorem quality_keyboard_buttons (language url : pystr)
    (available_formats : option (list pystr)) :
  concat (Keyboards.get_video_quality_keyboard language url available_formats)
  = (Keyboards.quality_button url <$> Keyboards.shown_formats available_formats)
      ++ [Keyboards.back_button language url; Keyboards.cancel_button language]
  ∧ Keyboards.shown_formats available_formats ≠ []
  ∧ Keyboards.shown_formats None = Keyboards.STANDARD_FORMATS
  ∧ Keyboards.shown_formats (Some []) = Keyboards.STANDARD_FORMATS.
Proof.
  split; [|split; [|done]].
  - unfold Keyboards.get_video_quality_keyboard, Keyboards.adjust.
    destruct (length _ <=? 4)%nat; [by rewrite concat_rows_of|].
    destruct (replicate _ 2%nat ++ [1%nat; 1%nat]); by rewrite concat_rows_of.
  - by destruct available_formats as [[|q l]|].
Qed.

Lemma rows_of_singles {B : Type} (rest : list B) :
  ∀ (sizes : list nat) (b : B),
    Forall (eq 1%nat) sizes →
    Keyboards.rows_of 1 sizes [b] rest = [b] :: ((fun x => [x]) <$> rest).
Proof.
  induction rest as [|c rest IH]; intros sizes b Hs; simpl; [done|].
  destruct sizes as [|s sizes]; [by rewrite IH|].
  apply Forall_cons in Hs as [<- Hs]. by rewrite IH.
Qed.

Lemma rows_of_pairs {B : Type} (k : nat) :
  ∀ (a : B) (rest : list B),
    Keyboards.rows_of 2 (replicate k 2%nat ++ [1%nat; 1%nat]) [a] rest
    = Keyboards.pairs (take (2 * S k) (a :: rest))
        ++ ((fun x => [x]) <$> drop (2 * S k) (a :: rest)).
Proof.
  induction k as [|k IH]; intros a rest.
  - destruct rest as [|b [|c rest]]; simpl; [done|done|].
    by rewrite rows_of_singles by (by repeat constructor).
  - replace (2 * S (S k))%nat with (S (S (2 * S k))) by lia.
    destruct rest as [|b [|c rest]]; [done|done|].
    change (Keyboards.rows_of 2 (replicate (S k) 2%nat ++ [1%nat; 1%nat]) [a]
              (b :: c :: rest))
      with ([a; b] :: Keyboards.rows_of 2 (replicate k 2%nat ++ [1%nat; 1%nat]) [c] rest).
    by rewrite IH.
Qed.

(** X13. How the quality keyboard is laid out.  Up to four formats: every
    button on a row of its own.  More than four, an even number: the
    qualities in rows of two, then "back" and "cancel" each on its own row.
    More than four, an odd number: "back" shares the row of the last
    quality, and only "cancel" stands alone. *)
Theorem quality_keyboard_layout (language url : pystr)
    (available_formats : option (list pystr)) :
  let formats := Keyboards.shown_formats available_formats in
  let qualities := Keyboards.quality_button url <$> formats in
  let back := Keyboards.back_button language url in
  let cancel := Keyboards.cancel_button language in
  ((length formats ≤ 4)%nat →
   Keyboards.get_video_quality_keyboard language url available_formats
   = (fun b => [b]) <$> (qualities ++ [back; cancel]))
  ∧ ((4 < length formats)%nat → Nat.even (length formats) = true →
     Keyboards.get_video_quality_keyboard language url available_formats
     = Keyboards.pairs qualities ++ [[back]; [cancel]])
  ∧ ((4 < length formats)%nat → Nat.even (length formats) = false →
     Keyboards.get_video_quality_keyboard language url available_formats
     = Keyboards.pairs (qualities ++ [back]) ++ [[cancel]]).
Proof.
  intros formats qualities back cancel.
  unfold Keyboards.get_video_quality_keyboard. fold formats. fold qualities.
  fold back. fold cancel.
  assert (Hlen : length qualities = length formats) by apply length_fmap.
  split; [|split].
  - intros Hle. apply Nat.leb_le in Hle. rewrite Hle.
    unfold Keyboards.adjust.
    destruct qualities as [|q qs]; simpl; [done|].
    by rewrite rows_of_singles by (by repeat constructor).
  - intros Hgt Heven. apply Nat.leb_gt in Hgt as Hgt'. rewrite Hgt'.
    apply Nat.even_spec in Heven as [m Hm].
    replace ((length formats + 2 - 1) / 2)%nat with m
      by (rewrite Hm; apply Nat.div_unique with 1%nat; lia).
    destruct m as [|k]; [lia|]. unfold Keyboards.adjust. simpl replicate.
    simpl app at 1.
    destruct qualities as [|q qs] eqn:Hq; [simpl in Hlen; lia|].
    change (Keyboards.rows_of 2 (replicate k 2%nat ++ [1%nat; 1%nat]) []
              ((q :: qs) ++ [back; cancel]))
      with (Keyboards.rows_of 2 (replicate k 2%nat ++ [1%nat; 1%nat]) [q]
              (qs ++ [back; cancel])).
    rewrite rows_of_pairs.
    change (q :: qs ++ [back; cancel]) with ((q :: qs) ++ [back; cancel]).
    rewrite take_app_length', drop_app_length' by (rewrite Hlen; lia). done.
  - intros Hgt Hodd. apply Nat.leb_gt in Hgt as Hgt'. rewrite Hgt'.
    assert (Nat.odd (length formats) = true) as Ho
      by (rewrite <- Nat.negb_even; by rewrite Hodd).
    apply Nat.odd_spec in Ho as [m Hm].
    replace ((length formats + 2 - 1) / 2)%nat with (S m)
      by (rewrite Hm; apply Nat.div_unique with 0%nat; lia).
    unfold Keyboards.adjust. simpl replicate. simpl app at 1.
    destruct qualities as [|q qs] eqn:Hq; [simpl in Hlen; lia|].
    change (Keyboards.rows_of 2 (replicate m 2%nat ++ [1%nat; 1%nat]) []
              ((q :: qs) ++ [back; cancel]))
      with (Keyboards.rows_of 2 (replicate m 2%nat ++ [1%nat; 1%nat]) [q]
              (qs ++ [back; cancel])).
    rewrite rows_of_pairs.
    replace (q :: qs ++ [back; cancel]) with (((q :: qs) ++ [back]) ++ [cancel])
      by (by rewrite <- app_assoc).
    rewrite take_app_length', drop_app_length'
      by (rewrite length_app, Hlen; simpl; lia).
    done.
Qed.

Lemma quality_keyboard_layout_witness :
  Keyboards.get_video_quality_keyboard (py "en") (py "u")
    (Some [py "144p"; py "240p"; py "360p"; py "480p"; py "720p"])
  = Keyboards.pairs
      ((Keyboards.quality_button (py "u")
          <$> [py "144p"; py "240p"; py "360p"; py "480p"; py "720p"])
         ++ [Keyboards.back_button (py "en") (py "u")])
      ++ [[Keyboards.cancel_button (py "en")]].
Proof.
  apply (quality_keyboard_layout (py "en") (py "u")
           (Some [py "144p"; py "240p"; py "360p"; py "480p"; py "720p"])).
  - simpl. lia.
  - reflexivity.
Defined.

(** ** Delivery and the callback handlers, continued *)

Import Callbacks Outcomes.

Ltac fates :=
  repeat match goal with
         | |- context [transport_fate ?E ?j ?c] =>
             destruct (transport_fate E j c) as [[?|?]|]; cbn -[py]
         end.

Lemma remove_if_present (p : pystr) (fs : list pystr) :
  (if bool_decide (p ∈ fs)
   then List.filter (fun q => negb (str_eqb q p)) fs else fs)
  = List.filter (fun q => negb (str_eqb q p)) fs.
Proof.
  case_bool_decide as Hin; [done|].
  symmetry. induction fs as [|x fs IH]; simpl; [done|].
  apply not_elem_of_cons in Hin as [Hx Hin]. unfold str_eqb at 1.
  rewrite bool_decide_eq_false_2 by congruence. simpl. f_equal. by apply IH.
Qed.

Lemma delivery_leaves (E : env) (language path name : pystr) (w : world) :
  path ≠ [] → name ≠ [] →
  transport_fate E (journal w)
    (edit_text (message "uploading" language) None) = None →
  remove_error E path = None →
  files (deliver_audio E language (Some path) (Some name) w).2
  = List.filter (fun q => negb (str_eqb q path)) (files w)
  ∧ files (deliver_video E language (Some path) (Some name) w).2
    = List.filter (fun q => negb (str_eqb q path)) (files w).
Proof.
  intros Hp Hn Hup Hrm. rewrite <- (remove_if_present path (files w)).
  destruct path as [|c path]; [done|]. destruct name as [|d name]; [done|].
  split; unfold deliver_audio, deliver_video; cbn [truthy andb];
    run; rewrite Hup, Hrm; cbn -[py]; fates;
    destruct (bool_decide _); reflexivity.
Qed.

(** X14. Once the "uploading" notice has gone out and unless [os.remove]
    itself fails, the downloaded file is gone when the delivery step ends,
    whether the transfer went through, was refused by the transport or
    broke in some other way; no other path of the directory is touched. *)
Theorem delivered_file_is_removed
    (E : env) (language path name : pystr) (w : world) :
  path ≠ [] → name ≠ [] →
  transport_fate E (journal w)
    (edit_text (message "uploading" language) None) = None →
  remove_error E path = None →
  let after_audio := (deliver_audio E language (Some path) (Some name) w).2 in
  let after_video := (deliver_video E language (Some path) (Some name) w).2 in
  (path ∉ files after_audio)
  ∧ (path ∉ files after_video)
  ∧ (∀ q, q ≠ path → (q ∈ files after_audio ↔ q ∈ files w))
  ∧ (∀ q, q ≠ path → (q ∈ files after_video ↔ q ∈ files w)).
Proof.
  intros Hp Hn Hup Hrm after_audio after_video. subst after_audio after_video.
  destruct (delivery_leaves E language path name w Hp Hn Hup Hrm) as [-> ->].
  repeat split; try (rewrite elem_of_remove; tauto).
Qed.

Lemma delivered_file_is_removed_witness :
  let E := make_env writes_nothing quiet_transport in
  let after_audio :=
    (deliver_audio E (py "en") (Some (py "downloads/a.mp3")) (Some (py "a.mp3"))
       Cases.two_files).2 in
  (py "downloads/a.mp3" ∉ files after_audio)
  ∧ (py "downloads/b.mp3" ∈ files after_audio).
Proof.
  destruct (delivered_file_is_removed (make_env writes_nothing quiet_transport)
              (py "en") (py "downloads/a.mp3") (py "a.mp3") Cases.two_files)
    as (Hgone & _ & Hrest & _).
  - discriminate.
  - discriminate.
  - reflexivity.
  - reflexivity.
  - split; [exact Hgone|]. apply Hrest; [discriminate|].
    apply list_elem_of_further, list_elem_of_here.
Defined.

(** The validator's call: its verdict is that of [is_valid_youtube_url], it
    touches neither the directory nor the identifiers, and a rejection leaves
    [rejection_records] in the log. *)
Lemma validation_rejects (url : pystr) (w : world) :
  is_valid_youtube_url url = false →
  is_valid_youtube_url_logged url w
  = (inr false, {| files := files w;
                   journal := journal w ++ rejection_records url;
                   fresh := fresh w |}).
Proof.
  intros Hbad. destruct url as [|c url].
  - destruct w. unfold is_valid_youtube_url_logged, ret. cbn [rejection_records].
    by rewrite app_nil_r.
  - unfold is_valid_youtube_url in Hbad. unfold is_valid_youtube_url_logged.
    change (sub_leading_at_space (strip (c :: url))) with (clean (c :: url)) in Hbad.
    destruct (contains (py "youtube.com") (clean (c :: url))
              || contains (py "youtu.be") (clean (c :: url))); [done|].
    cbv zeta. rewrite Hbad. reflexivity.
Qed.

Lemma validation_verdict (url : pystr) (w : world) :
  (is_valid_youtube_url_logged url w).1 = inr (is_valid_youtube_url url)
  ∧ files (is_valid_youtube_url_logged url w).2 = files w
  ∧ fresh (is_valid_youtube_url_logged url w).2 = fresh w.
Proof.
  destruct url as [|c url]; [done|].
  unfold is_valid_youtube_url, is_valid_youtube_url_logged.
  change (sub_leading_at_space (strip (c :: url))) with (clean (c :: url)).
  by destruct (contains (py "youtube.com") (clean (c :: url))
               || contains (py "youtu.be") (clean (c :: url))).
Qed.

Lemma validation_accepts (url : pystr) (w : world) :
  is_valid_youtube_url url = true →
  ∃ record,
    is_valid_youtube_url_logged url w
    = (inr true, {| files := files w;
                    journal := journal w ++ [Log DEBUG record];
                    fresh := fresh w |}).
Proof.
  intros Hok. destruct url as [|c url]; [done|].
  unfold is_valid_youtube_url in Hok. unfold is_valid_youtube_url_logged.
  change (sub_leading_at_space (strip (c :: url))) with (clean (c :: url)) in Hok.
  destruct (contains (py "youtube.com") (clean (c :: url))
            || contains (py "youtu.be") (clean (c :: url))).
  - eexists. reflexivity.
  - cbv zeta. rewrite Hok. eexists. reflexivity.
Qed.

Lemma starts_nothing_transport (c : call) (failure : option exn) (l : list entry) :
  starts_nothing l → starts_nothing (Transport c failure :: l).
Proof. intros Hl. constructor; [left; eauto|done]. Qed.

Lemma starts_nothing_rejection (url : pystr) (l : list entry) :
  starts_nothing l → starts_nothing (rejection_records url ++ l).
Proof.
  intros Hl. destruct url; [done|]. constructor; [by right|done].
Qed.

(** X15. A "quality" button whose link is not recognized starts nothing:
    whatever the transport does, no identifier is drawn, the download
    directory is untouched, and the run leaves behind transport calls and
    the validator's own DEBUG record only (no probe, no download, no
    cleanup).  The "downloading" status edit is nevertheless the first call
    made, since the link is checked after it; when the transport accepts
    every call the run is exactly: that edit, the validator's record, the
    "invalid link" edit, the callback answer. *)
Theorem unrecognized_link_downloads_nothing
    (E : env) (callback : CallbackQuery) (w : world) :
  let url := clean (join (py ":") (drop 2 (split 58 (data callback)))) in
  let language := user_language E (from_user_id callback) in
  is_valid_youtube_url url = false →
  let w' := (callback_quality E callback w).2 in
  files w' = files w ∧ fresh w' = fresh w
  ∧ ∃ added, journal w' = journal w ++ added ∧ starts_nothing added
      ∧ ((1 < length (split 58 (data callback)))%nat →
         (∃ failure rest,
            added = Transport (edit_text (message "downloading" language) None)
                      failure :: rest)
         ∧ ((∀ j c, transport_fate E j c = None) →
            added
            = [Transport (edit_text (message "downloading" language) None) None]
                ++ rejection_records url
                ++ [Transport (edit_text (message "invalid_url" language) None) None;
                    Transport answer None])).
Proof.
  intros url language Hbad w'. subst w' language.
  remember (callback_quality E callback w) as run eqn:Hrun.
  unfold callback_quality, second in Hrun.
  destruct (split 58 (data callback) !! 1%nat) as [quality|] eqn:Hq.
  - fold url in Hrun. unfold bind at 1 in Hrun. unfold ret at 1 in Hrun.
    unfold bind at 1 in Hrun. unfold tg at 1 in Hrun.
    set (downloading := edit_text (message "downloading"
                                     (user_language E (from_user_id callback))) None)
      in *.
    set (invalid := edit_text (message "invalid_url"
                                 (user_language E (from_user_id callback))) None)
      in *.
    destruct (transport_fate E (journal w) downloading) as [e|] eqn:Hfirst.
    + subst run. cbn [fst snd files fresh journal].
      split; [done|]. split; [done|].
      eexists. split; [reflexivity|]. split.
      * apply starts_nothing_transport. constructor.
      * intros _. split; [eauto|]. intros Hquiet. by rewrite Hquiet in Hfirst.
    + unfold bind at 1 in Hrun. rewrite (validation_rejects url _ Hbad) in Hrun.
      cbn [negb files fresh journal] in Hrun. unfold bind, tg in Hrun.
      cbn [files fresh journal] in Hrun.
      set (j1 := (journal w ++ [Transport downloading None]) ++ rejection_records url)
        in *.
      destruct (transport_fate E j1 invalid) as [e|] eqn:Hsecond.
      * subst run. cbn [fst snd files fresh journal].
        split; [done|]. split; [done|].
        exists ([Transport downloading None] ++ rejection_records url
                  ++ [Transport invalid (Some e)]).
        split; [subst j1; by rewrite <- !app_assoc|]. split.
        -- apply starts_nothing_transport, starts_nothing_rejection,
             starts_nothing_transport. constructor.
        -- intros _. split; [eauto|]. intros Hquiet. by rewrite Hquiet in Hsecond.
      * cbn [files fresh journal] in Hrun.
        destruct (transport_fate E (j1 ++ [Transport invalid None]) answer)
          as [e|] eqn:Hthird.
        -- subst run. cbn [fst snd files fresh journal].
           split; [done|]. split; [done|].
           exists ([Transport downloading None] ++ rejection_records url
                     ++ [Transport invalid None; Transport answer (Some e)]).
           split; [subst j1; by rewrite <- !app_assoc|]. split.
           ++ apply starts_nothing_transport, starts_nothing_rejection,
                starts_nothing_transport, starts_nothing_transport. constructor.
           ++ intros _. split; [eauto|]. intros Hquiet. by rewrite Hquiet in Hthird.
        -- subst run. cbn [fst snd files fresh journal].
           split; [done|]. split; [done|].
           exists ([Transport downloading None] ++ rejection_records url
                     ++ [Transport invalid None; Transport answer None]).
           split; [subst j1; by rewrite <- !app_assoc|]. split.
           ++ apply starts_nothing_transport, starts_nothing_rejection,
                starts_nothing_transport, starts_nothing_transport. constructor.
           ++ intros _. split; [eauto|]. done.
  - apply lookup_ge_None in Hq. subst run. unfold bind, raise. cbn -[py clean].
    split; [done|]. split; [done|]. exists []. rewrite app_nil_r.
    split; [done|]. split; [constructor | lia].
Qed.

Lemma unrecognized_link_downloads_nothing_witness :
  let run := callback_quality (make_env (writes ".mp4") quiet_transport)
               Cases.stray_quality Cases.two_files in
  files run.2 = files Cases.two_files ∧ fresh run.2 = 1%nat
  ∧ journal run.2
    = [ Transport (edit_text (message "downloading" (py "en")) None) None;
        rejection_record;
        Transport (edit_text (message "invalid_url" (py "en")) None) None;
        Transport answer None ].
Proof.
  destruct (unrecognized_link_downloads_nothing
              (make_env (writes ".mp4") quiet_transport)
              Cases.stray_quality Cases.two_files)
    as (Hfiles & Hfresh & added & Hjournal & _ & Hshape).
  - vm_compute. reflexivity.
  - split; [exact Hfiles|]. split; [exact Hfresh|].
    destruct Hshape as [_ Hall]; [vm_compute; lia|].
    rewrite Hjournal, Hall by done. vm_compute. reflexivity.
Defined.

Lemma starts_nothing_records (records l : list entry) :
  records = [] ∨ records = [rejection_record] →
  starts_nothing l → starts_nothing (records ++ l).
Proof. intros [->| ->] Hl; [done|]. constructor; [by right|done]. Qed.

Lemma guarded_validation (url : option pystr) (w : world) :
  (truthy url = true → is_valid_youtube_url (default [] url) = false) →
  ∃ records,
    (records = [] ∨ records = [rejection_record])
    ∧ (if truthy url then is_valid_youtube_url_logged (default [] url)
       else ret false) w
      = (inr false, {| files := files w;
                       journal := journal w ++ records;
                       fresh := fresh w |}).
Proof.
  intros Hbad. destruct url as [[|c url]|]; cbn [truthy].
  - exists []. split; [by left|]. destruct w. unfold ret. cbn [files journal fresh].
    by rewrite app_nil_r.
  - exists [rejection_record]. split; [by right|].
    apply (validation_rejects (c :: url)), Hbad. reflexivity.
  - exists []. split; [by left|]. destruct w. unfold ret. cbn [files journal fresh].
    by rewrite app_nil_r.
Qed.

(** X16. A "format" button takes its link from the payload and, when the
    payload has none, from the message replied to.  When neither gives a
    recognized link, the first call on the transport is the "invalid link"
    edit, preceded in the log by nothing but the validator's DEBUG record
    (if a non-empty link was checked at all); nothing is probed or
    downloaded, no identifier is drawn and the download directory is
    untouched. *)
Theorem format_button_needs_a_link
    (E : env) (callback : CallbackQuery) (w : world) :
  let language := user_language E (from_user_id callback) in
  is_valid_youtube_url
    (clean (join (py ":") (drop 2 (split 58 (data callback))))) = false →
  (∀ t, reply_to_text callback = Some t → is_valid_youtube_url (clean t) = false) →
  let w' := (callback_format E callback w).2 in
  files w' = files w ∧ fresh w' = fresh w
  ∧ ∃ added, journal w' = journal w ++ added ∧ starts_nothing added
      ∧ ((1 < length (split 58 (data callback)))%nat →
         ∃ records failure rest,
           (records = [] ∨ records = [rejection_record])
           ∧ added = records
                       ++ Transport (edit_text (message "invalid_url" language) None)
                            failure :: rest).
Proof.
  intros language Hbad Hreply w'. subst w' language.
  remember (callback_format E callback w) as run eqn:Hrun.
  unfold callback_format, second in Hrun.
  destruct (split 58 (data callback) !! 1%nat) as [format_type|] eqn:Hq.
  - set (url := if truthy (if bool_decide (2 < length (split 58 (data callback)))%nat
                            then Some (clean (join (py ":") (drop 2 (split 58 (data callback)))))
                            else None)
                then (if bool_decide (2 < length (split 58 (data callback)))%nat
                            then Some (clean (join (py ":") (drop 2 (split 58 (data callback)))))
                            else None)
                else if truthy (reply_to_text callback)
                     then clean <$> reply_to_text callback
                     else (if bool_decide (2 < length (split 58 (data callback)))%nat
                            then Some (clean (join (py ":") (drop 2 (split 58 (data callback)))))
                            else None)) in *.
    assert (Hurl : truthy url = true → is_valid_youtube_url (default [] url) = false).
    { subst url.
      destruct (clean (join (py ":") (drop 2 (split 58 (data callback)))))
        as [|c payload] eqn:Hc;
        destruct (bool_decide _);
        destruct (reply_to_text callback) as [[|d t]|] eqn:Hr;
        cbn [truthy fmap option_fmap option_map default from_option id];
        try done; intros _;
        rewrite ?Hbad, ?(Hreply _ eq_refl); done. }
    destruct (guarded_validation url w Hurl) as (records & Hrecords & Hval).
    set (invalid := edit_text (message "invalid_url"
                                 (user_language E (from_user_id callback))) None)
      in *.
    unfold bind at 1 in Hrun. unfold ret at 1 in Hrun. cbv zeta in Hrun.
    fold url in Hrun. unfold bind at 1 in Hrun. rewrite Hval in Hrun.
    rewrite orb_true_r in Hrun. unfold bind, tg in Hrun.
    cbn [files fresh journal] in Hrun.
    destruct (transport_fate E (journal w ++ records) invalid) as [e|] eqn:Hfirst.
    + subst run. cbn [fst snd files fresh journal].
      split; [done|]. split; [done|].
      exists (records ++ [Transport invalid (Some e)]).
      split; [by rewrite <- !app_assoc|]. split.
      * apply starts_nothing_records; [done|].
        apply starts_nothing_transport. constructor.
      * intros _. eauto.
    + cbn [files fresh journal] in Hrun.
      destruct (transport_fate E ((journal w ++ records) ++ [Transport invalid None])
                  answer) as [e|] eqn:Hsecond;
        subst run; cbn [fst snd files fresh journal];
        (split; [done|]); (split; [done|]);
        eexists (records ++ [Transport invalid None; Transport answer _]);
        (split; [by rewrite <- !app_assoc|]); split;
        try (intros _; eauto);
        (apply starts_nothing_records; [done|]);
        do 2 apply starts_nothing_transport; constructor.
  - apply lookup_ge_None in Hq. subst run. unfold bind, raise. cbn -[py clean].
    split; [done|]. split; [done|]. exists []. rewrite app_nil_r.
    split; [done|]. split; [constructor | lia].
Qed.

Lemma format_button_needs_a_link_witness :
  let run := callback_format (make_env (writes ".mp3") quiet_transport)
               Cases.stray_format Cases.two_files in
  files run.2 = files Cases.two_files ∧ fresh run.2 = 1%nat
  ∧ journal run.2
    = [ rejection_record;
        Transport (edit_text (message "invalid_url" (py "en")) None) None;
        Transport answer None ].
Proof.
  destruct (format_button_needs_a_link
              (make_env (writes ".mp3") quiet_transport)
              Cases.stray_format Cases.two_files)
    as (Hfiles & Hfresh & _).
  - vm_compute. reflexivity.
  - intros t [= <-]. vm_compute. reflexivity.
  - split; [exact Hfiles|]. split; [exact Hfresh|]. vm_compute. reflexivity.
Defined.

(** ** File names made from titles *)

Lemma startswith_app (p b : pystr) : startswith (p ++ b) p = true.
Proof. apply startswith_spec. by exists b. Qed.

Lemma endswith_app (a p : pystr) : endswith (a ++ p) p = true.
Proof. unfold endswith. rewrite rev_app_distr. apply startswith_app. Qed.

Lemma endswith_app_r (a b p : pystr) :
  endswith b p = true → endswith (a ++ b) p = true.
Proof.
  unfold endswith. rewrite !startswith_spec. intros [c Hc].
  exists (c ++ rev a). by rewrite rev_app_distr, Hc, <- app_assoc.
Qed.

Ltac ends :=
  repeat first [ apply endswith_app | apply endswith_app_r
               | apply (endswith_app_r [_]) ].

Lemma safe_has_no_separator (E : env) (title : pystr) :
  is_word E 47 = false → 47%N ∉ safe E title.
Proof.
  intros Hw. unfold safe. intros (c & Hc & _)%list_elem_of_fmap.
  destruct (is_word E c || (c =? 45)%N || (c =? 95)%N || (c =? 46)%N
            || (c =? 32)%N) eqn:Hok; [|done].
  subst c. by rewrite Hw in Hok.
Qed.

(** X17. Whatever the video's title, the file name made from it has no
    path separator, so the renamed download lies directly in the download
    directory: the title cannot point the rename elsewhere.  (The class
    [\w] of [re] does not contain the separator.) *)
Theorem title_stays_in_directory (E : env) (title suffix : pystr) :
  is_word E 47 = false → 47%N ∉ suffix →
  length (safe E title) = length title
  ∧ (47%N ∉ safe E title ++ suffix)
  ∧ path_join (download_dir E) (safe E title ++ suffix)
    = path_join (download_dir E) [] ++ safe E title ++ suffix.
Proof.
  intros Hw Hs.
  assert (Hno : 47%N ∉ safe E title ++ suffix).
  { rewrite elem_of_app. intros [?|?]; [by eapply safe_has_no_separator|done]. }
  split; [apply length_fmap|]. split; [done|].
  unfold path_join. change (py "/") with [47%N].
  destruct (startswith (safe E title ++ suffix) [47%N]) eqn:Hstart.
  { apply startswith_spec in Hstart as [b Hb]. rewrite Hb in Hno.
    exfalso. apply Hno. simpl. left. }
  cbn [startswith]. destruct (str_eqb _ _ || endswith _ _).
  - by rewrite app_nil_r.
  - by rewrite app_nil_r, <- app_assoc.
Qed.

Lemma title_stays_in_directory_witness :
  let E := Examples.unreachable in
  length (safe E (py "a/b")) = 3%nat
  ∧ (47%N ∉ safe E (py "a/b") ++ py ".mp3")
  ∧ path_join (download_dir E) (safe E (py "a/b") ++ py ".mp3")
    = py "downloads/a_b.mp3".
Proof.
  destruct (title_stays_in_directory Examples.unreachable (py "a/b") (py ".mp3"))
    as (Hlen & Hno & Hjoin).
  - reflexivity.
  - vm_compute. intros H. repeat (inversion H as [|? ? ? H']; clear H; rename H' into H).
  - split; [exact Hlen|]. split; [exact Hno|]. rewrite Hjoin. vm_compute. reflexivity.
Defined.

(** X18. A download never hands back half a result: [download_audio] and
    [download_video] return either [(None, None)] or a file name ending in
    the expected extension together with that name joined to the download
    directory, so the callers' test [if file_path and file_name] succeeds
    exactly on the second; either way exactly one identifier is drawn. *)
Theorem download_gives_both_or_neither
    (E : env) (url quality : pystr) (w : world) :
  ((download_audio E url w).1 = inr (None, None)
   ∨ ∃ name, endswith name (py ".mp3") = true
       ∧ (download_audio E url w).1
         = inr (Some (path_join (download_dir E) name), Some name))
  ∧ ((download_video E url quality w).1 = inr (None, None)
     ∨ ∃ name, endswith name (py ".mp4") = true
         ∧ (download_video E url quality w).1
           = inr (Some (path_join (download_dir E) name), Some name))
  ∧ fresh (download_audio E url w).2 = S (fresh w)
  ∧ fresh (download_video E url quality w).2 = S (fresh w).
Proof.
  repeat apply conj.
  - run. rewrite clean_idempotent.
    destruct (extract_info E (clean url) info_opts); simpl; eauto.
    destruct (ydl_download E _ _ _) as [[e|] fs]; simpl; eauto.
    destruct (find_downloaded E _ _ _); simpl; eauto.
    destruct (rename_error E _ _); simpl; eauto.
    right. destruct (bool_decide _); eexists; (split; [|reflexivity]); ends.
  - run. rewrite clean_idempotent.
    destruct (extract_info E (clean url) info_opts); simpl; eauto.
    destruct (ydl_download E _ _ _) as [[e|] fs]; simpl; eauto.
    destruct (find_downloaded E _ _ _); simpl; eauto.
    destruct (rename_error E _ _); simpl; eauto.
    right. destruct (bool_decide _); eexists; (split; [|reflexivity]); ends.
  - run. rewrite clean_idempotent.
    destruct (extract_info E (clean url) info_opts); simpl; eauto.
    destruct (ydl_download E _ _ _) as [[e|] fs]; simpl; eauto.
    destruct (find_downloaded E _ _ _); simpl; eauto.
    destruct (rename_error E _ _); simpl; eauto.
  - run. rewrite clean_idempotent.
    destruct (extract_info E (clean url) info_opts); simpl; eauto.
    destruct (ydl_download E _ _ _) as [[e|] fs]; simpl; eauto.
    destruct (find_downloaded E _ _ _); simpl; eauto.
    destruct (rename_error E _ _); simpl; eauto.
Qed.

(** ** User preferences *)

Section Odict.
Import Database.
Context {K V : Type} `{EqDecision K}.

Lemma odict_get_set (k : K) (v : V) (d : list (K * V)) :
  odict_get (odict_set k v d) k = Some v.
Proof.
  induction d as [|[k' v'] d IH]; simpl.
  - by destruct (decide (k = k)).
  - destruct (decide (k' = k)) as [Heq|Hne]; simpl.
    + by destruct (decide (k' = k)).
    + by destruct (decide (k' = k)).
Qed.

Lemma odict_get_set_ne (k k' : K) (v : V) (d : list (K * V)) :
  k ≠ k' → odict_get (odict_set k v d) k' = odict_get d k'.
Proof.
  intros Hne. induction d as [|[k0 v0] d IH]; simpl.
  - by destruct (decide (k = k')).
  - destruct (decide (k0 = k)) as [Heq|Hne0]; simpl.
    + destruct (decide (k0 = k')); [congruence|done].
    + by destruct (decide (k0 = k')).
Qed.

Lemma odict_get_None (k : K) (d : list (K * V)) :
  odict_get d k = None ↔ k ∉ fst <$> d.
Proof.
  induction d as [|[k0 v0] d IH]; simpl.
  - split; [intros _; apply not_elem_of_nil|done].
  - rewrite not_elem_of_cons. case_decide as Hk.
    + split; [done|]. intros [? _]. congruence.
    + rewrite IH. split; [split; [congruence|done]|by intros [_ ?]].
Qed.

Lemma odict_get_Some (k : K) (v : V) (d : list (K * V)) :
  odict_get d k = Some v → (k, v) ∈ d.
Proof.
  induction d as [|[k0 v0] d IH]; simpl; [done|].
  case_decide as Hk.
  - intros [= ->]. subst. apply list_elem_of_here.
  - intros Hget. by apply list_elem_of_further, IH.
Qed.

Lemma odict_set_new (k : K) (v : V) (d : list (K * V)) :
  k ∉ fst <$> d → odict_set k v d = d ++ [(k, v)].
Proof.
  induction d as [|[k0 v0] d IH]; simpl; [done|].
  intros Hk. apply not_elem_of_cons in Hk as [Hne Hk].
  destruct (decide (k0 = k)); [congruence|]. f_equal. by apply IH.
Qed.

Lemma odict_set_keys (k : K) (v : V) (d : list (K * V)) :
  k ∈ fst <$> d → fst <$> odict_set k v d = fst <$> d.
Proof.
  induction d as [|[k0 v0] d IH]; simpl; [by intros ?%elem_of_nil|].
  intros Hk. destruct (decide (k0 = k)) as [Heq|Hne]; simpl; [done|].
  apply elem_of_cons in Hk as [Hk|Hk]; [congruence|]. f_equal. by apply IH.
Qed.

Lemma odict_set_NoDup (k : K) (v : V) (d : list (K * V)) :
  NoDup (fst <$> d) → NoDup (fst <$> odict_set k v d).
Proof.
  intros Hd. destruct (decide (k ∈ fst <$> d)) as [Hin|Hout].
  - by rewrite odict_set_keys.
  - rewrite odict_set_new, fmap_app by done.
    apply NoDup_app. split; [done|]. split; [|apply NoDup_singleton].
    intros x Hx Hk. apply list_elem_of_singleton in Hk as ->. done.
Qed.

Lemma odict_set_elem (k k' : K) (v v' : V) (d : list (K * V)) :
  (k', v') ∈ odict_set k v d → (k', v') = (k, v) ∨ (k', v') ∈ d.
Proof.
  induction d as [|[k0 v0] d IH]; simpl.
  - intros Hin. apply list_elem_of_singleton in Hin. by left.
  - case_decide as Hk; intros Hin; apply elem_of_cons in Hin as [Hin|Hin].
    + left. congruence.
    + right. by apply list_elem_of_further.
    + right. rewrite Hin. apply list_elem_of_here.
    + destruct (IH Hin); [by left|right; by apply list_elem_of_further].
Qed.
End Odict.

Import Database.

Lemma set_user_language_get (db : UserDatabase) (uid : Z) (lang : pystr) :
  ∃ user, get_user (set_user_language db uid lang) uid = Some user
          ∧ language user = lang.
Proof.
  unfold set_user_language, get_user.
  destruct (odict_get (_users db) uid) as [user|] eqn:Hget; simpl.
  - destruct (decide (user_id user = uid)) as [Heq|Hne].
    + rewrite Heq, odict_get_set. eauto.
    + rewrite odict_get_set_ne, odict_get_set by done. eauto.
  - rewrite odict_get_set. eauto.
Qed.

Lemma set_user_language_consistent (db : UserDatabase) (uid : Z) (lang : pystr) :
  consistent (_users db) → consistent (_users (set_user_language db uid lang)).
Proof.
  intros [Hnd Hid]. unfold set_user_language, get_user.
  destruct (odict_get (_users db) uid) as [user|] eqn:Hget; simpl.
  - split; [by do 2 apply odict_set_NoDup|].
    intros k u Hin.
    apply odict_set_elem in Hin as [[= -> ->]|Hin]; [done|].
    apply odict_set_elem in Hin as [[= -> ->]|Hin]; [|by apply Hid].
    simpl. apply Hid. by apply odict_get_Some.
  - split; [by apply odict_set_NoDup|].
    intros k u Hin. apply odict_set_elem in Hin as [[= -> ->]|Hin]; [done|by apply Hid].
Qed.

(** X19. After [set_user_language] the user's language is the one just
    set, whatever was stored before; with every settings object under its
    own identifier, no other user's language changes, and that state of
    the table is kept. *)
Theorem language_is_set_for_that_user_only
    (db : UserDatabase) (uid : Z) (lang fallback : pystr) :
  get_user_language (set_user_language db uid lang) uid fallback = lang
  ∧ (consistent (_users db) →
     consistent (_users (set_user_language db uid lang))
     ∧ ∀ other, other ≠ uid →
         get_user_language (set_user_language db uid lang) other fallback
         = get_user_language db other fallback).
Proof.
  split.
  - unfold get_user_language.
    by destruct (set_user_language_get db uid lang) as (user & -> & <-).
  - intros Hc. split; [by apply set_user_language_consistent|].
    intros other Hne. destruct Hc as [_ Hid].
    unfold get_user_language, set_user_language, get_user.
    destruct (odict_get (_users db) uid) as [user|] eqn:Hget; simpl.
    + assert (user_id user = uid) as -> by (by apply Hid, odict_get_Some).
      by rewrite !odict_get_set_ne.
    + by rewrite odict_get_set_ne.
Qed.

Lemma two_users_consistent : consistent (_users Cases.two_users).
Proof.
  split.
  - change (NoDup [7; 8]). apply NoDup_cons. split; [|apply NoDup_singleton].
    by intros [=]%list_elem_of_singleton.
  - intros uid user Hin. unfold Cases.two_users in Hin. cbn [_users] in Hin.
    apply elem_of_cons in Hin as [[= -> ->]|Hin]; [done|].
    by apply list_elem_of_singleton in Hin as [= -> ->].
Qed.

Lemma language_is_set_for_that_user_only_witness :
  get_user_language (set_user_language Cases.two_users 7 (py "de")) 7 (py "en")
  = py "de"
  ∧ get_user_language (set_user_language Cases.two_users 7 (py "de")) 8 (py "en")
    = py "ru".
Proof.
  destruct (language_is_set_for_that_user_only Cases.two_users 7 (py "de") (py "en"))
    as [Hset Hrest].
  destruct (Hrest two_users_consistent) as [_ Hother].
  split; [exact Hset|]. rewrite (Hother 8) by done. reflexivity.
Defined.

Section Persistence.
Variable int : pystr -> option Z.

Lemma save_appends (users : list (Z * UserSettings)) :
  ∀ acc : list (pystr * user_json),
    NoDup ((fst <$> acc) ++ ((fun e => str_of_int e.1) <$> users)) →
    foldl (fun acc '(uid, user) => odict_set (str_of_int uid) (to_dict user) acc)
      acc users
    = acc ++ ((fun e => (str_of_int e.1, to_dict e.2)) <$> users).
Proof.
  induction users as [|[k u] users IH]; intros acc Hnd; simpl.
  - by rewrite app_nil_r.
  - rewrite fmap_cons in Hnd. simpl in Hnd.
    assert (Hk : str_of_int k ∉ fst <$> acc).
    { apply NoDup_app in Hnd as (_ & Hdisj & _). intros Hin.
      apply (Hdisj _ Hin). apply list_elem_of_here. }
    rewrite odict_set_new by done. rewrite IH.
    + by rewrite <- app_assoc.
    + rewrite fmap_app, <- app_assoc. simpl. exact Hnd.
Qed.

Lemma load_appends (users : list (Z * UserSettings)) :
  ∀ acc : list (Z * UserSettings),
    NoDup ((fst <$> acc) ++ (fst <$> users)) →
    (∀ k u, (k, u) ∈ users → user_id u = k ∧ int (str_of_int k) = Some k) →
    foldl (fun acc '(key, user_data) =>
             match acc, int key with
             | inr users, Some n => inr (odict_set n (from_dict user_data n) users)
             | inr _, None => inl (OtherError (py "invalid literal for int()"))
             | inl e, _ => inl e
             end) (inr acc)
      ((fun e => (str_of_int e.1, to_dict e.2)) <$> users)
    = inr (acc ++ users).
Proof.
  induction users as [|[k u] users IH]; intros acc Hnd Hok; simpl.
  - by rewrite app_nil_r.
  - destruct (Hok k u) as [Hid Hint]; [apply list_elem_of_here|].
    rewrite Hint.
    assert (Hk : k ∉ fst <$> acc).
    { apply NoDup_app in Hnd as (_ & Hdisj & _). intros Hin.
      apply (Hdisj _ Hin). apply list_elem_of_here. }
    rewrite odict_set_new by done.
    assert (from_dict (to_dict u) k = u) as ->
      by (destruct u; simpl in *; by subst).
    rewrite IH.
    + by rewrite <- app_assoc.
    + rewrite fmap_app, <- app_assoc. exact Hnd.
    + intros k' u' Hin. apply Hok. by apply list_elem_of_further.
Qed.

Lemma saved_then_loaded (users : list (Z * UserSettings)) (doc : document) :
  consistent users →
  (∀ k, k ∈ fst <$> users → int (str_of_int k) = Some k) →
  _load_users int (file (_save_users {| _users := users; file := doc |}))
  = inr users.
Proof.
  intros [Hnd Hid] Hint. unfold _save_users, _load_users. simpl.
  rewrite save_appends.
  - simpl. rewrite load_appends; [done|done|].
    intros k u Hin. split; [by apply Hid|].
    apply Hint. apply list_elem_of_fmap. by exists (k, u).
  - assert (Hstr : NoDup (str_of_int <$> (fst <$> users))).
    { apply NoDup_fmap_2_strong; [|done].
      intros x y Hx Hy Heq. apply Hint in Hx, Hy. congruence. }
    rewrite <- list_fmap_compose in Hstr. exact Hstr.
Qed.

(** X20. The preference table survives a restart.  After
    [set_user_language] the file holds the whole table, and opening the
    database again from that file gives back exactly the table that was in
    memory (given a table with every settings object under its own
    identifier, and [int] reading the written keys back). *)
Theorem preferences_survive_restart
    (db : UserDatabase) (uid : Z) (lang : pystr) :
  let db' := set_user_language db uid lang in
  consistent (_users db) →
  (∀ k, k ∈ fst <$> _users db' → int (str_of_int k) = Some k) →
  _load_users int (file db') = inr (_users db')
  ∧ open_database int (Some (file db')) = inr db'.
Proof.
  intros db' Hc Hint.
  assert (Hc' : consistent (_users db')) by (by apply set_user_language_consistent).
  assert (Hload : _load_users int (file db') = inr (_users db')).
  { revert Hint Hc'. unfold db', set_user_language.
    destruct (get_user db uid) as [user|]; unfold add_or_update_user;
      intros Hint Hc'; by apply saved_then_loaded. }
  split; [done|]. unfold open_database.
  assert (Hfile : ∃ data, file db' = Some data).
  { unfold db', set_user_language, add_or_update_user, _save_users.
    destruct (get_user db uid); simpl; eauto. }
  destruct Hfile as [data Hfile]. rewrite Hfile in *. rewrite Hload.
  f_equal. destruct db'. simpl in *. by subst.
Qed.



End Persistence.

Lemma preferences_survive_restart_witness :
  open_database Cases.int
    (Some (file (set_user_language Cases.two_users 7 (py "de"))))
  = inr (set_user_language Cases.two_users 7 (py "de")).
Proof.
  apply (preferences_survive_restart Cases.int Cases.two_users 7 (py "de")).
  - exact two_users_consistent.
  - intros k Hk. vm_compute in Hk.
    apply elem_of_cons in Hk as [->|Hk]; [vm_compute; reflexivity|].
    apply list_elem_of_singleton in Hk as ->. vm_compute. reflexivity.
Defined.



(** ** Localized texts *)

Import Localization.

Lemma has_languages (ru : language_module) (lang : pystr) :
  has_key (languages (localization ru)) lang = true ↔ lang = py "ru" ∨ lang = py "en".
Proof.
  unfold has_key, localization, __init__. simpl. unfold str_eqb.
  destruct (bool_decide (py "ru" = lang)) eqn:Hru.
  - apply bool_decide_eq_true in Hru. split; [by left|done].
  - apply bool_decide_eq_false in Hru.
    destruct (bool_decide (py "en" = lang)) eqn:Hen.
    + apply bool_decide_eq_true in Hen. split; [by right|done].
    + apply bool_decide_eq_false in Hen. split; [done|]. intros [?|?]; congruence.
Qed.

(** X22. A language tag other than [ru] and [en] is served as the default
    language: for every key and every keyword arguments, [get_message] and
    [get_button] return what they return for [en]. *)
Theorem unsupported_language_is_english
    (str_format : pystr -> list (pystr * pystr) -> format_outcome)
    (ru : language_module) (key lang : pystr) (kwargs : list (pystr * pystr)) :
  lang ≠ py "ru" → lang ≠ py "en" →
  get_message str_format (localization ru) key lang kwargs
  = get_message str_format (localization ru) key (py "en") kwargs
  ∧ get_button (localization ru) key lang = get_button (localization ru) key (py "en").
Proof.
  intros Hru Hen.
  assert (Hno : has_key (languages (localization ru)) lang = false).
  { destruct (has_key _ lang) eqn:Hh; [|done].
    apply has_languages in Hh as [?|?]; done. }
  assert (Hyes : has_key (languages (localization ru)) (py "en") = true)
    by (apply has_languages; by right).
  unfold get_message, get_button. by rewrite Hno, Hyes.
Qed.

Lemma unsupported_language_is_english_witness :
  get_message (fun s _ => Formatted s) (localization en) (py "processing") (py "de") []
  = get_message (fun s _ => Formatted s) (localization en) (py "processing") (py "en") []
  ∧ get_button (localization en) (py "processing") (py "de")
    = get_button (localization en) (py "processing") (py "en").
Proof.
  apply (unsupported_language_is_english (fun s _ => Formatted s) en
           (py "processing") (py "de") []); discriminate.
Defined.

Lemma handler_keys_in_english (key : pystr) :
  key ∈ HANDLER_KEYS → ∃ text, dict_get en_MESSAGES key = Some text.
Proof.
  unfold HANDLER_KEYS. rewrite !elem_of_cons, elem_of_nil.
  intros Hk. repeat destruct Hk as [->|Hk]; try done; eexists; reflexivity.
Qed.

Lemma lookup_ru (ru : language_module) :
  subscript (languages (localization ru)) (py "ru") = inr ru.
Proof. reflexivity. Qed.

Lemma lookup_en (ru : language_module) :
  subscript (languages (localization ru)) (py "en") = inr en.
Proof. reflexivity. Qed.

(** X23. Every message key the handlers ask for is in the English table.
    So, for any of them, in any language, with any keyword arguments and
    with any Russian table, [get_message] finds a text and never returns
    the "not found" note: the Russian text when the language is [ru] and
    the Russian table has the key, and the English text otherwise.  Without
    keyword arguments that text is returned as it is.  With keyword
    arguments (the handlers pass [error=...] with the key [error]) the
    result is that of [str.format] on it, the text itself when [str.format]
    raises [KeyError]; [get_message] raises only what [str.format] raises
    besides. *)
Theorem handler_messages_are_defined
    (str_format : pystr -> list (pystr * pystr) -> format_outcome)
    (ru : language_module) (key lang : pystr) (kwargs : list (pystr * pystr)) :
  key ∈ HANDLER_KEYS →
  ∃ text,
    (if str_eqb lang (py "ru") then
       dict_get (MESSAGES ru) key = Some text
       ∨ (dict_get (MESSAGES ru) key = None ∧ dict_get en_MESSAGES key = Some text)
     else dict_get en_MESSAGES key = Some text)
    ∧ get_message str_format (localization ru) key lang kwargs
      = match kwargs with
        | [] => inr text
        | _ :: _ =>
            match str_format text kwargs with
            | Formatted s => inr s
            | KeyError => inr text
            | FormatError e => inl e
            end
        end.
Proof.
  intros Hkey. destruct (handler_keys_in_english key Hkey) as [text Hen].
  unfold get_message.
  change (default_language (localization ru)) with (py "en").
  destruct (decide (lang = py "ru")) as [->|Hne].
  - rewrite (proj2 (has_languages ru (py "ru"))) by (by left).
    rewrite lookup_ru. cbn [try_result]. rewrite lookup_en. cbn [try_result].
    change (MESSAGES en) with en_MESSAGES.
    unfold str_eqb. rewrite bool_decide_eq_true_2 by done.
    unfold has_key, finish, subscript.
    destruct (dict_get (MESSAGES ru) key) as [t|] eqn:Hr.
    + exists t. split; [by left|]. cbn [try_result]. reflexivity.
    + rewrite Hen. cbn [try_result]. exists text. split; [by right|]. reflexivity.
  - assert ((if has_key (languages (localization ru)) lang then lang else py "en")
            = py "en") as ->.
    { destruct (has_key _ lang) eqn:Hh; [|done].
      apply has_languages in Hh as [?|?]; done. }
    rewrite lookup_en. cbn [try_result]. change (MESSAGES en) with en_MESSAGES.
    unfold str_eqb. rewrite bool_decide_eq_false_2 by done.
    unfold has_key, finish, subscript. rewrite Hen. cbn [try_result].
    by exists text.
Qed.

Lemma handler_messages_are_defined_witness :
  get_message Cases.format_fields (localization en) (py "uploading") (py "ru") []
  = inr ([9203%N] ++ py " Uploading file to Telegram...")
  ∧ get_message Cases.format_fields (localization en) (py "error") (py "de")
      [(py "error", py "HTTP Error 403: Forbidden")]
    = inr ([10060%N] ++ py " An error occurred: HTTP Error 403: Forbidden").
Proof.
  destruct (handler_messages_are_defined Cases.format_fields en
              (py "uploading") (py "ru") []) as (text & Htext & Hget).
  { unfold HANDLER_KEYS. do 9 apply list_elem_of_further. apply list_elem_of_here. }
  destruct (handler_messages_are_defined Cases.format_fields en
              (py "error") (py "de") [(py "error", py "HTTP Error 403: Forbidden")])
    as (text' & Htext' & Hget').
  { unfold HANDLER_KEYS. do 11 apply list_elem_of_further. apply list_elem_of_here. }
  split.
  - rewrite Hget. f_equal. vm_compute in Htext.
    destruct Htext as [Htext|[Hnone _]]; [|discriminate Hnone].
    injection Htext as <-. vm_compute. reflexivity.
  - rewrite Hget'. vm_compute in Htext'. injection Htext' as <-.
    vm_compute. reflexivity.
Defined.

(** ** Text messages and the language callback *)

Import Conversation.

Lemma language_buttons_exist (ru : language_module) :
  (∃ b, get_button (localization ru) (py "ru") (py "ru") = inr b)
  ∧ (∃ b, get_button (localization ru) (py "en") (py "en") = inr b).
Proof.
  split; unfold get_button; change (default_language (localization ru)) with (py "en").
  - rewrite (proj2 (has_languages ru (py "ru"))) by (by left).
    rewrite lookup_ru. cbn [try_result]. rewrite lookup_en. cbn [try_result].
    unfold has_key, subscript.
    destruct (dict_get (BUTTONS ru) (py "ru")) as [b|]; [eauto|].
    eexists. reflexivity.
  - rewrite (proj2 (has_languages ru (py "en"))) by (by right).
    rewrite lookup_en. cbn [try_result]. eexists. reflexivity.
Qed.

Ltac run_chat :=
  unfold handle_text, callback_language, send, lift, of_result, get_users,
    set_users, ctry, cbind, cret.

(** X24. A text that is neither a recognized link nor one of the two
    language captions gets no answer: nothing is sent, the preferences and
    the download directory stay as they are, the handler returns normally,
    and the log receives the handler's two records with the validator's
    rejection record between them. *)
Theorem unrecognized_text_is_ignored
    (E : env) (ru : language_module)
    (reply_fate : list (reply * option exn) -> reply -> option exn)
    (message : Message) (c : chat) :
  is_valid_youtube_url (clean (text message)) = false →
  (∀ b, get_button (localization ru) (py "ru") (py "ru") = inr b → text message ≠ b) →
  (∀ b, get_button (localization ru) (py "en") (py "en") = inr b → text message ≠ b) →
  (handle_text E ru reply_fate message c).1 = inr tt
  ∧ outbox (handle_text E ru reply_fate message c).2 = outbox c
  ∧ users (handle_text E ru reply_fate message c).2 = users c
  ∧ files (world (handle_text E ru reply_fate message c).2) = files (world c)
  ∧ fresh (world (handle_text E ru reply_fate message c).2) = fresh (world c)
  ∧ journal (world (handle_text E ru reply_fate message c).2)
    = journal (world c)
        ++ [Log INFO (py "Received message: " ++ clean (text message))]
        ++ Outcomes.rejection_records (clean (text message))
        ++ [Log DEBUG (py "YouTube link check result: False")].
Proof.
  intros Hlink Hru Hen.
  destruct (language_buttons_exist ru) as [[rb Hrb] [eb Heb]].
  specialize (Hru rb Hrb). specialize (Hen eb Heb).
  run_chat. unfold log, record. cbn [world users outbox].
  rewrite (validation_rejects _ _ Hlink). cbn [world users outbox files journal fresh].
  rewrite Hrb, Heb. cbn [str_of_bool].
  unfold str_eqb. rewrite !bool_decide_eq_false_2 by done.
  cbn [orb fst snd world users outbox files journal fresh].
  repeat split; try done. by rewrite <- !app_assoc.
Qed.

Lemma unrecognized_text_is_ignored_witness :
  let run := handle_text Examples.unreachable en Cases.quiet_replies
               Cases.greeting Cases.idle_chat in
  run.1 = inr tt ∧ outbox run.2 = [] ∧ users run.2 = Cases.two_users
  ∧ journal (world run.2)
    = [ Log INFO (py "Received message: hello");
        Outcomes.rejection_record;
        Log DEBUG (py "YouTube link check result: False") ].
Proof.
  destruct (unrecognized_text_is_ignored Examples.unreachable en Cases.quiet_replies
              Cases.greeting Cases.idle_chat)
    as (Hret & Hout & Husers & _ & _ & Hjournal).
  - vm_compute. reflexivity.
  - intros b Hb. vm_compute in Hb. injection Hb as <-. vm_compute. discriminate.
  - intros b Hb. vm_compute in Hb. injection Hb as <-. vm_compute. discriminate.
  - split; [exact Hret|]. split; [exact Hout|]. split; [exact Husers|].
    rewrite Hjournal. vm_compute. reflexivity.
Defined.

(** X25. When a recognized link cannot be probed, [handle_text] does not
    let the extractor's exception escape: after the "processing" answer it
    edits that message into the localized error carrying the exception's
    text, offers no format keyboard, and touches neither the preferences
    nor the download directory. *)
Theorem probe_failure_is_reported
    (E : env) (ru : language_module)
    (reply_fate : list (reply * option exn) -> reply -> option exn)
    (message : Message) (c : chat) (e : exn) :
  let language := get_user_language (users c) (from_user_id message) (py "en") in
  let processing := message_answer (Localized (py "processing") language None) in
  let report :=
    processing_edit_text (Localized (py "error") language (Some (exn_str e))) None in
  is_valid_youtube_url (clean (text message)) = true →
  reply_fate (outbox c) processing = None →
  extract_info E (clean (text message)) info_opts = inl e →
  outbox (handle_text E ru reply_fate message c).2
  = outbox c
      ++ [(processing, None);
          (report, reply_fate (outbox c ++ [(processing, None)]) report)]
  ∧ (handle_text E ru reply_fate message c).1
    = match reply_fate (outbox c ++ [(processing, None)]) report with
      | Some e' => inl e'
      | None => inr tt
      end
  ∧ users (handle_text E ru reply_fate message c).2 = users c
  ∧ files (world (handle_text E ru reply_fate message c).2) = files (world c).
Proof.
  intros language processing report Hlink Hsent Hprobe.
  subst language processing report.
  run_chat. unfold log, record. cbn [world users outbox].
  match goal with
  | |- context [is_valid_youtube_url_logged ?u ?w0] =>
      destruct (validation_accepts u w0 Hlink) as [accepted Hval]
  end.
  rewrite Hval. clear Hval.
  unfold get_video_info, _extract_info, lift_result, try_except, log, record,
    bind, raise, ret.
  cbn -[py clean get_user_language]. rewrite Hsent.
  cbn -[py clean get_user_language]. rewrite clean_idempotent, Hprobe.
  cbn -[py clean get_user_language].
  clear Hsent.
  destruct (reply_fate _ _); cbn -[py clean get_user_language];
    by rewrite <- app_assoc.
Qed.

Lemma probe_failure_is_reported_witness :
  let run := handle_text Examples.unreachable en Cases.quiet_replies
               Cases.link_sent Cases.idle_chat in
  outbox run.2
  = [ (message_answer (Localized (py "processing") (py "ru") None), None);
      (processing_edit_text
         (Localized (py "error") (py "ru") (Some (py "Video unavailable"))) None,
       None) ]
  ∧ run.1 = inr tt
  ∧ users run.2 = Cases.two_users.
Proof.
  destruct (probe_failure_is_reported Examples.unreachable en Cases.quiet_replies
              Cases.link_sent Cases.idle_chat (OtherError (py "Video unavailable")))
    as (Hout & Hret & Husers & _).
  - vm_compute. reflexivity.
  - reflexivity.
  - reflexivity.
  - split; [exact Hout|]. split; [exact Hret|exact Husers].
Defined.

(** X26. [callback_language] stores the tag found in the payload before it
    talks to the transport: whatever becomes of the confirmation and of the
    callback answer, the user's language is the tag afterwards, verbatim
    and whether or not a table exists for it, and it has been written to
    the file. *)
Theorem language_choice_is_saved_first
    (E : env) (callback : Callbacks.CallbackQuery) (c : chat) (tag fallback : pystr) :
  split 58 (Callbacks.data callback) !! 1%nat = Some tag →
  users (callback_language E callback c).2
  = set_user_language (users c) (Callbacks.from_user_id callback) tag
  ∧ get_user_language (users (callback_language E callback c).2)
      (Callbacks.from_user_id callback) fallback = tag
  ∧ (∃ data, file (users (callback_language E callback c).2) = Some data)
  ∧ files (world (callback_language E callback c).2) = files (world c).
Proof.
  intros Htag.
  assert (Husers : users (callback_language E callback c).2
                   = set_user_language (users c) (Callbacks.from_user_id callback) tag).
  { run_chat. unfold Callbacks.second. rewrite Htag. unfold tg, ret.
    cbn -[py].
    destruct (transport_fate E _ _); cbn -[py]; [done|].
    by destruct (transport_fate E _ _). }
  split; [done|]. rewrite Husers. split; [|split].
  - unfold get_user_language.
    by destruct (set_user_language_get (users c) (Callbacks.from_user_id callback) tag)
      as (user & -> & <-).
  - unfold set_user_language, add_or_update_user, _save_users.
    destruct (get_user _ _); simpl; eauto.
  - run_chat. unfold Callbacks.second. rewrite Htag. unfold tg, ret.
    cbn -[py].
    destruct (transport_fate E _ _); cbn -[py]; [done|].
    by destruct (transport_fate E _ _).
Qed.

Lemma language_choice_is_saved_first_witness :
  let run := callback_language Examples.unreachable Cases.russian_pressed
               Cases.idle_chat in
  users run.2 = set_user_language Cases.two_users 7 (py "ru")
  ∧ get_user_language (users run.2) 7 (py "en") = py "ru".
Proof.
  destruct (language_choice_is_saved_first Examples.unreachable Cases.russian_pressed
              Cases.idle_chat (py "ru") (py "en"))
    as (Husers & Hlang & _).
  - vm_compute. reflexivity.
  - split; [exact Husers|exact Hlang].
Defined.
